(** * pyCA ingest service: a shallow embedding of [pyca/ingest.py]

    The development follows the source file top to bottom:
    - the Python values the code handles ([str], [bytes], exceptions);
    - [get_config_params], the parser of the agent properties;
    - the effects of the service (remote calls, status updates, the
      supervisor notifications, the file system) as a state-and-exception
      monad over an explicit trace;
    - [ingest], [safe_start_ingest], [control_loop] and [run].

    Calls of [logger] change nothing the service can observe and are left
    out of the trace. *)

From Stdlib Require Import List String Ascii NArith ZArith Bool Lia.
From Stdlib Require Import DecimalString.
From Stdlib.Strings Require Import Byte.
Import ListNotations.

(** ** Python values *)

(** A Python [str] is a sequence of Unicode code points. *)
Definition char := N.
Definition str := list char.

(** [py "text"] is the [str] literal whose characters are those of
    ["text"]. *)
Definition py (s : string) : str :=
  map N_of_ascii (list_ascii_of_string s).

(** A Python [bytes] object. *)
Definition bytes := list byte.

Definition bytes_of (s : string) : bytes := list_byte_of_string s.

(** The exception classes that the code of the service and the builtins
    it calls can raise by themselves, and [Raised] for any other
    subclass of [Exception] that a collaborator ([http_request],
    [service], the XML library, [shutil.rmtree], the platform behind
    [time.sleep]) raises. *)
Inductive exn : Type :=
| ValueError
| UnboundLocalError
| AttributeError
| TypeError
| IndexError
| UnicodeEncodeError
| UnicodeDecodeError
| OverflowError
| Raised (cls : string).

(** The outcome of an expression: a value or a raised exception. *)
Inductive Exc (A : Type) : Type :=
| Ok (a : A)
| Err (e : exn).
Arguments Ok {A} a.
Arguments Err {A} e.

Module Py.

Local Open Scope N_scope.

Definition str_eqb (a b : str) : bool :=
  if list_eq_dec N.eq_dec a b then true else false.

(** [s.startswith(p)] *)
Fixpoint startswith (s p : str) : bool :=
  match p, s with
  | [], _ => true
  | _ :: _, [] => false
  | c :: p', d :: s' => N.eqb c d && startswith s' p'
  end.

(** [needle in hay] on [str] *)
Fixpoint contains (needle hay : str) : bool :=
  startswith hay needle ||
  match hay with
  | [] => false
  | _ :: hay' => contains needle hay'
  end.

(** [s.split(sep)] for a separator of one character: the result is
    never empty. *)
Fixpoint split (sep : char) (s : str) : list str :=
  match s with
  | [] => [[]]
  | c :: s' =>
      if N.eqb c sep then [] :: split sep s'
      else match split sep s' with
           | seg :: segs => (c :: seg) :: segs
           | [] => [[c]]
           end
  end.

(** [s.split(sep, 1)]: one or two parts, cut at the first [sep]. *)
Fixpoint split1 (sep : char) (s : str) : list str :=
  match s with
  | [] => [[]]
  | c :: s' =>
      if N.eqb c sep then [[]; s']
      else match split1 sep s' with
           | seg :: segs => (c :: seg) :: segs
           | [] => [[c]]
           end
  end.

(** [s.rsplit(sep, 1)]: one or two parts, cut at the last [sep]. *)
Fixpoint rsplit1 (sep : char) (s : str) : list str :=
  match s with
  | [] => [[]]
  | c :: s' =>
      match rsplit1 sep s' with
      | [a; b] => [c :: a; b]
      | _ => if N.eqb c sep then [[]; s'] else [c :: s']
      end
  end.

(** [l[-1]] on a list of strings; [IndexError] is impossible on the
    results of the split functions, which are never empty. *)
Definition last_item (l : list str) : str := last l [].

(** [l[0]] under the same proviso. *)
Definition first_item (l : list str) : str := hd [] l.

(** [bool(s)]: a string is true when it is not empty. *)
Definition truthy (s : str) : bool :=
  match s with [] => false | _ :: _ => true end.

(** [s.encode('ascii', 'ignore')]: the characters below 128, each as
    one byte; every other character is dropped and nothing is raised. *)
Definition encode_ascii_ignore (s : str) : bytes :=
  flat_map (fun c => if N.ltb c 128
                     then match Byte.of_N c with
                          | Some b => [b]
                          | None => []
                          end
                     else []) s.

Definition byte_of (n : N) : byte :=
  match Byte.of_N n with Some b => b | None => x00 end.

(** UTF-8 encoding of one code point; a surrogate cannot be encoded. *)
Definition utf8_char (c : N) : Exc bytes :=
  if N.ltb c 128 then Ok [byte_of c]
  else if N.ltb c 2048 then
    Ok [byte_of (192 + c / 64); byte_of (128 + c mod 64)]
  else if N.ltb c 65536 then
    if N.leb 55296 c && N.leb c 57343 then Err UnicodeEncodeError
    else Ok [byte_of (224 + c / 4096); byte_of (128 + (c / 64) mod 64);
             byte_of (128 + c mod 64)]
  else
    Ok [byte_of (240 + (c / 262144) mod 8);
        byte_of (128 + (c / 4096) mod 64);
        byte_of (128 + (c / 64) mod 64); byte_of (128 + c mod 64)].

(** [s.encode('utf-8')] *)
Fixpoint encode_utf8 (s : str) : Exc bytes :=
  match s with
  | [] => Ok []
  | c :: s' =>
      match utf8_char c with
      | Err e => Err e
      | Ok b => match encode_utf8 s' with
                | Err e => Err e
                | Ok bs => Ok (b ++ bs)
                end
      end
  end.

Definition cont (b : byte) : bool :=
  let n := Byte.to_N b in N.leb 128 n && N.leb n 191.

Definition low6 (b : byte) : N := Byte.to_N b mod 64.

(** [b.decode('utf-8')]: strict decoding; the ranges of the second byte
    exclude the overlong forms, the surrogates and the code points above
    U+10FFFF. *)
Fixpoint decode_utf8 (b : bytes) : Exc str :=
  match b with
  | [] => Ok []
  | b0 :: r0 =>
      let n0 := Byte.to_N b0 in
      if N.ltb n0 128 then
        match decode_utf8 r0 with Ok s => Ok (n0 :: s) | Err e => Err e end
      else match r0 with
      | [] => Err UnicodeDecodeError
      | b1 :: r1 =>
          let n1 := Byte.to_N b1 in
          if N.leb 194 n0 && N.leb n0 223 then
            if cont b1 then
              match decode_utf8 r1 with
              | Ok s => Ok (((n0 - 192) * 64 + low6 b1) :: s)
              | Err e => Err e
              end
            else Err UnicodeDecodeError
          else match r1 with
          | [] => Err UnicodeDecodeError
          | b2 :: r2 =>
              if N.leb 224 n0 && N.leb n0 239 then
                if N.leb (if N.eqb n0 224 then 160 else 128) n1
                   && N.leb n1 (if N.eqb n0 237 then 159 else 191)
                   && cont b2 then
                  match decode_utf8 r2 with
                  | Ok s => Ok (((n0 - 224) * 4096 + low6 b1 * 64
                                 + low6 b2) :: s)
                  | Err e => Err e
                  end
                else Err UnicodeDecodeError
              else match r2 with
              | [] => Err UnicodeDecodeError
              | b3 :: r3 =>
                  if N.leb 240 n0 && N.leb n0 244 then
                    if N.leb (if N.eqb n0 240 then 144 else 128) n1
                       && N.leb n1 (if N.eqb n0 244 then 143 else 191)
                       && cont b2 && cont b3 then
                      match decode_utf8 r3 with
                      | Ok s => Ok (((n0 - 240) * 262144 + low6 b1 * 4096
                                     + low6 b2 * 64 + low6 b3) :: s)
                      | Err e => Err e
                      end
                    else Err UnicodeDecodeError
                  else Err UnicodeDecodeError
              end
          end
      end
  end.

End Py.

(** ** [get_config_params] *)

Definition config_prefix : str := py "org.opencastproject.workflow.config".
Definition definition_prefix : str :=
  py "org.opencastproject.workflow.definition".

Definition ch_newline : char := 10%N.
Definition ch_equals : char := 61%N.
Definition ch_dot : char := 46%N.

(** The local variables [wdef] and [param] of the function. *)
Definition params := (str * list (str * str))%type.

(** One pass through the body of the [for] loop. The tuple assignment
    [key, val = prop.split('=', 1)] raises [ValueError] unless the split
    gave exactly two parts. *)
Definition config_line (acc : params) (prop : str) : Exc params :=
  let '(wdef, param) := acc in
  if Py.startswith prop config_prefix then
    match Py.split1 ch_equals prop with
    | [key; val] =>
        let key := Py.last_item (Py.split ch_dot key) in
        Ok (wdef, param ++ [(key, val)])
    | _ => Err ValueError
    end
  else if Py.startswith prop definition_prefix then
    Ok (Py.last_item (Py.split1 ch_equals prop), param)
  else Ok (wdef, param).

Fixpoint config_lines (acc : params) (props : list str) : Exc params :=
  match props with
  | [] => Ok acc
  | prop :: rest =>
      match config_line acc prop with
      | Err e => Err e
      | Ok acc' => config_lines acc' rest
      end
  end.

Definition get_config_params (properties : str) : Exc params :=
  config_lines ([], []) (Py.split ch_newline properties).


(** ** The data model *)

(** Modelled from the spec: [pyca.db.Status] is not part of the file; these
    are the event states of the upload life cycle. *)
Inductive Status : Type :=
| FINISHED_RECORDING
| UPLOADING
| FINISHED_UPLOADING
| FAILED_UPLOADING.

Definition Status_eqb (a b : Status) : bool :=
  match a, b with
  | FINISHED_RECORDING, FINISHED_RECORDING
  | UPLOADING, UPLOADING
  | FINISHED_UPLOADING, FINISHED_UPLOADING
  | FAILED_UPLOADING, FAILED_UPLOADING => true
  | _, _ => false
  end.

(** Modelled from the spec: [pyca.db.Service] and [pyca.db.ServiceStatus]
    are not part of the file; the service named here is the ingest
    service, with the three states the spec lists. *)
Inductive Service : Type := INGEST.

Inductive ServiceStatus : Type := BUSY | IDLE | STOPPED.

(** An attachment of the schedule: a dictionary read with [.get], so each
    key may be missing. *)
Record Attachment : Type := {
  x_apple_filename : option str;
  fmttype : option str;
  data : option str
}.

(** Modelled from the spec: [pyca.db.RecordedEvent] is not part of the
    file. [attach] is [event.get_data().get('attach')], [tracks] is
    [event.get_tracks()] and [directory] is [event.directory()]. *)
Record RecordedEvent : Type := {
  uid : str;
  status : Status;
  attach : list Attachment;
  tracks : list (str * str);
  directory : str
}.

(** The element tree of [xml.etree.ElementTree]. *)
#[warnings="-register-all"]
Inductive Element : Type :=
| mkElement (tag : str) (attrib : list (str * str)) (text : option str)
            (children : list Element) (tail : option str).


(** [d[key] = value] on a dictionary kept in insertion order. *)
Fixpoint dict_set (d : list (str * str)) (key value : str)
  : list (str * str) :=
  match d with
  | [] => [(key, value)]
  | (k, v) :: d' =>
      if Py.str_eqb k key then (k, value) :: d'
      else (k, v) :: dict_set d' key value
  end.


(** [element.set(key, value)] *)
Definition Element_set (e : Element) (key value : str) : Element :=
  match e with
  | mkElement t a x c l => mkElement t (dict_set a key value) x c l
  end.

(** ** Effects *)

(** The value of a form field: a [str], a [bytes] object, or the pair
    [(pycurl.FORM_FILE, path)]. *)
Inductive value : Type :=
| VStr (s : str)
| VBytes (b : bytes)
| VFormFile (path : bytes).

Definition field := (str * value)%type.

(** The arguments of one [http_request(url, post_data, timeout=0)]. *)
Record Request : Type := {
  url : str;
  post_data : option (list field)
}.

(** What the service does to the world, in the order it does it. *)
Inductive Effect : Type :=
| SetServiceStatus (s : Service) (st : ServiceStatus)
| SetServiceStatusImmediate (s : Service) (st : ServiceStatus)
| Notify (msg : str)
| RecordingState (event_uid state : str)
| UpdateEventStatus (event_uid : str) (st : Status)
| ServiceLookup (name : str) (force_update : bool)
| Http (req : Request) (resp : Exc bytes)
| Config (section key : str)
| Rmtree (dir : str)
| Sleep (seconds : Z)
| GetSession
| Query (found : option str)
| SessionClose.

Definition Trace := list Effect.

(** The collaborators the file imports, each as a function of what has
    happened so far: [pyca.utils.service], [pyca.utils.http_request],
    the generator behind [random], [pyca.utils.terminate], the values of
    [pyca.config.config] in the section [ingest], the parser and the
    serialiser of [xml.etree.ElementTree], what [shutil.rmtree] answers
    for a directory (it may raise, also after it has removed a part of
    the tree), and what the sleep of the platform answers for a delay
    that [time.sleep] has accepted. *)
Record World : Type := {
  service : Trace -> str -> bool -> Exc (list str);
  http_request : Trace -> Request -> Exc bytes;
  random : Trace -> N;
  terminate : Trace -> bool;
  upload_catalogs : bool;
  delete_after_upload : bool;
  delay_min : Z;
  delay_max : Z;
  fromstring : str -> Exc Element;
  tostring : Element -> bytes;
  shutil_rmtree : Trace -> str -> Exc unit;
  time_sleep : Trace -> Z -> Exc unit
}.

(** The state the service changes: the trace of its effects, the events
    of the database and the status of the ingest service. *)
Record State : Type := {
  trace : Trace;
  db : list RecordedEvent;
  ingest_status : ServiceStatus
}.

(** Computations that change the state and may raise; the state reached
    when an exception is raised is kept. *)
Definition M (A : Type) : Type := State -> Exc A * State.

Definition ret {A} (a : A) : M A := fun s => (Ok a, s).

Definition raise {A} (e : exn) : M A := fun s => (Err e, s).

Definition bind {A B} (m : M A) (k : A -> M B) : M B :=
  fun s => match m s with
           | (Ok a, s') => k a s'
           | (Err e, s') => (Err e, s')
           end.

Definition lift {A} (r : Exc A) : M A := fun s => (r, s).

(** [try: m except Exception: h] *)
Definition try_except {A} (m : M A) (h : M A) : M A :=
  fun s => match m s with
           | (Ok a, s') => (Ok a, s')
           | (Err _, s') => h s'
           end.

Declare Scope py_scope.
Delimit Scope py_scope with py.
Notation "x <- m ;; k" := (bind m (fun x => k))
  (at level 61, m at next level, right associativity) : py_scope.
Notation "m ;; k" := (bind m (fun _ => k))
  (at level 61, right associativity) : py_scope.
Local Open Scope py_scope.

Definition emit (e : Effect) : M unit :=
  fun s => (Ok tt, {| trace := trace s ++ [e]; db := db s;
                      ingest_status := ingest_status s |}).

Definition with_trace (s : State) (e : Effect) : State :=
  {| trace := trace s ++ [e]; db := db s; ingest_status := ingest_status s |}.

(** [for x in l: acc = body(acc, x)] *)
Fixpoint for_each {A S} (body : S -> A -> M S) (l : list A) (acc : S)
  : M S :=
  match l with
  | [] => ret acc
  | x :: l' => acc' <- body acc x ;; for_each body l' acc'
  end.

Definition opt_str_eqb (a : option str) (b : str) : bool :=
  match a with
  | Some s => Py.str_eqb s b
  | None => false
  end.

Definition prop : str := py "org.opencastproject.capture.agent.properties".
Definition dcns : str :=
  py "http://www.opencastproject.org/xsd/1.0/dublincore/".

Section Ingest.

Variable W : World.

(** *** The collaborators, as the file calls them *)

(** Modelled from the spec: [pyca.utils.set_service_status] and
    [set_service_status_immediate] are not part of the file; both record
    the new status of the service. *)
Definition set_service_status (sv : Service) (st : ServiceStatus)
  : M unit :=
  fun s => (Ok tt, {| trace := trace s ++ [SetServiceStatus sv st];
                      db := db s; ingest_status := st |}).

Definition set_service_status_immediate (sv : Service)
  (st : ServiceStatus) : M unit :=
  fun s => (Ok tt, {| trace := trace s ++ [SetServiceStatusImmediate sv st];
                      db := db s; ingest_status := st |}).

(** [notify.notify(msg)] *)
Definition notify (msg : str) : M unit := emit (Notify msg).

(** Modelled from the spec: [pyca.utils.recording_state] is not part of
    the file; it broadcasts the state text of an event. *)
Definition recording_state (event_uid state : str) : M unit :=
  emit (RecordingState event_uid state).

Definition set_status (e : RecordedEvent) (st : Status) : RecordedEvent :=
  {| uid := uid e; status := st; attach := attach e; tracks := tracks e;
     directory := directory e |}.

(** Modelled from the spec: [pyca.utils.update_event_status] is not part
    of the file; it stores the new status of the event. *)
Definition update_event_status (event : RecordedEvent) (st : Status)
  : M unit :=
  fun s =>
    (Ok tt,
     {| trace := trace s ++ [UpdateEventStatus (uid event) st];
        db := map (fun e => if Py.str_eqb (uid e) (uid event)
                            then set_status e st else e) (db s);
        ingest_status := ingest_status s |}).

(** [config('ingest', key)] *)
Definition config {A} (key : string) (v : A) : M A :=
  emit (Config (py "ingest") (py key)) ;; ret v.

(** [service(name, force_update=...)] *)
Definition call_service (name : str) (force_update : bool)
  : M (list str) :=
  fun s => (service W (trace s) name force_update,
            with_trace s (ServiceLookup name force_update)).

(** [http_request(url, post_data, timeout=0)] *)
Definition call_http (u : str) (fields : option (list field)) : M bytes :=
  fun s =>
    let req := {| url := u; post_data := fields |} in
    let r := http_request W (trace s) req in
    (r, with_trace s (Http req r)).

(** [random.randrange(start, stop)] *)
Definition randrange (start stop : Z) : M Z :=
  fun s =>
    if (start <? stop)%Z
    then (Ok (start + Z.of_N (random W (trace s)) mod (stop - start))%Z, s)
    else (Err ValueError, s).

(** [random.randint(a, b)] *)
Definition randint (a b : Z) : M Z := randrange a (b + 1).

(** [l[i]] for an index that is not negative *)
Definition item (l : list str) (i : Z) : M str :=
  match nth_error l (Z.to_nat i) with
  | Some x => ret x
  | None => raise IndexError
  end.

(** The largest number of whole seconds whose count of nanoseconds fits
    in 64 bits. *)
Definition sleep_max : Z := 9223372036.

(** [time.sleep(seconds)]: the delay is first converted to nanoseconds
    on 64 bits, which raises [OverflowError] when it does not fit; a
    negative delay then raises [ValueError]; the platform may still
    refuse the delay. [Sleep] is recorded when the pause has taken
    place. *)
Definition sleep (seconds : Z) : M unit :=
  if ((seconds <? - sleep_max) || (sleep_max <? seconds))%Z
  then raise OverflowError
  else if (seconds <? 0)%Z then raise ValueError
  else fun s =>
         match time_sleep W (trace s) seconds with
         | Ok _ => emit (Sleep seconds) s
         | Err e => (Err e, s)
         end.

(** [shutil.rmtree(directory)]: [Rmtree] records the call, which may
    raise, whatever it has removed by then. *)
Definition rmtree (dir : str) : M unit :=
  fun s => (shutil_rmtree W (trace s) dir, with_trace s (Rmtree dir)).

(** *** [ingest] *)

(** Lines 74 to 78: the identifier of the event replaces the one of the
    new mediapackage; a transformation of the document, without any
    effect. *)
Definition force_identity (event : RecordedEvent) (mediapackage : bytes)
  : Exc bytes :=
  match Py.decode_utf8 mediapackage with
  | Err e => Err e
  | Ok xml_string =>
      match fromstring W xml_string with
      | Err e => Err e
      | Ok xml_root =>
          let xml_root := Element_set xml_root (py "id") (uid event) in
          Ok (tostring W xml_root)
      end
  end.

(** The locals [workflow_def] and [workflow_config], which have no value
    until the properties attachment has been read, and [mediapackage]. *)
Definition Locals := (option params * bytes)%type.

(** Lines 84 to 103: the body of the loop over the attachments. *)
Definition attachment_step (service_url : str) (acc : Locals)
  (attachment : Attachment) : M Locals :=
  let '(workflow, mediapackage) := acc in
  if opt_str_eqb (x_apple_filename attachment) prop then
    match data attachment with
    | None => raise AttributeError
    | Some d => w <- lift (get_config_params d) ;;
                ret (Some w, mediapackage)
    end
  else if opt_str_eqb (fmttype attachment) (py "application/xml") then
    match data attachment with
    | None => raise TypeError
    | Some d =>
        if Py.contains dcns d then
          enabled <- config "upload_catalogs" (upload_catalogs W) ;;
          if enabled : bool then
            let label := match x_apple_filename attachment with
                         | Some l => l
                         | None => []
                         end in
            let name := Py.first_item (Py.rsplit1 ch_dot label) in
            payload <- lift (Py.encode_utf8 d) ;;
            let fields := [(py "mediaPackage", VBytes mediapackage);
                           (py "flavor", VStr (py "dublincore/" ++ name));
                           (py "dublinCore", VBytes payload)] in
            mediapackage <- call_http (service_url ++ py "/addDCCatalog")
                                      (Some fields) ;;
            ret (workflow, mediapackage)
          else ret acc
        else ret acc
    end
  else ret acc.

(** Lines 106 to 112: the body of the loop over the tracks. *)
Definition track_step (service_url : str) (mediapackage : bytes)
  (ft : str * str) : M bytes :=
  let '(flavor, track) := ft in
  let track := Py.encode_ascii_ignore track in
  let fields := [(py "mediaPackage", VBytes mediapackage);
                 (py "flavor", VStr flavor);
                 (py "BODY1", VFormFile track)] in
  call_http (service_url ++ py "/addTrack") (Some fields).

Definition config_fields (workflow_config : list (str * str))
  : list field :=
  map (fun kv => (fst kv, VStr (snd kv))) workflow_config.

(** Lines 116 to 122: the fields of the last call. *)
Definition ingest_fields (event : RecordedEvent) (w : params)
  (mediapackage : bytes) : list field :=
  let '(workflow_def, workflow_config) := w in
  let fields := [(py "mediaPackage", VBytes mediapackage)] in
  let fields :=
    if Py.truthy workflow_def
    then fields ++ [(py "workflowDefinitionId", VStr workflow_def)]
    else fields in
  let fields :=
    if Py.truthy (uid event)
    then fields ++ [(py "workflowInstanceId",
                     VBytes (Py.encode_ascii_ignore (uid event)))]
    else fields in
  fields ++ config_fields workflow_config.

(** Lines 116 to 123. Reading [workflow_def] when no attachment has
    bound it raises [UnboundLocalError]. *)
Definition submit (service_url : str) (event : RecordedEvent)
  (acc : Locals) : M bytes :=
  let '(workflow, mediapackage) := acc in
  match workflow with
  | None => raise UnboundLocalError
  | Some w =>
      call_http (service_url ++ py "/ingest")
                (Some (ingest_fields event w mediapackage))
  end.

(** Lines 52 to 55: the upload is announced. *)
Definition mark_uploading (event : RecordedEvent) : M unit :=
  set_service_status INGEST BUSY ;;
  notify (py "STATUS=Uploading") ;;
  recording_state (uid event) (py "uploading") ;;
  update_event_status event UPLOADING.

(** Lines 61 to 63: one of the known ingest services, at random. *)
Definition select_service : M str :=
  service_urls <- call_service (py "ingest") true ;;
  i <- randrange 0 (Z.of_nat (List.length service_urls)) ;;
  item service_urls i.

(** Lines 66 to 123: the mediapackage is built call by call and handed
    in. *)
Definition build (service_url : str) (event : RecordedEvent)
  (force_uid : bool) : M bytes :=
  mediapackage <- call_http (service_url ++ py "/createMediaPackage")
                            None ;;
  mediapackage <- (if force_uid
                   then lift (force_identity event mediapackage)
                   else ret mediapackage) ;;
  acc <- for_each (attachment_step service_url) (attach event)
                  (None, mediapackage) ;;
  mediapackage <- for_each (track_step service_url) (tracks event)
                           (snd acc) ;;
  submit service_url event (fst acc, mediapackage).

(** Lines 126 to 133: the upload is over. *)
Definition finish (event : RecordedEvent) : M unit :=
  recording_state (uid event) (py "upload_finished") ;;
  update_event_status event FINISHED_UPLOADING ;;
  delete <- config "delete_after_upload" (delete_after_upload W) ;;
  (if delete : bool then rmtree (directory event) else ret tt) ;;
  notify (py "STATUS=Running") ;;
  set_service_status_immediate INGEST IDLE.

Definition ingest (event : RecordedEvent) (force_uid : bool) : M unit :=
  mark_uploading event ;;
  service_url <- select_service ;;
  _ <- build service_url event force_uid ;;
  finish event.

(** *** [safe_start_ingest] *)

Definition safe_start_ingest (event : RecordedEvent) : M unit :=
  try_except
    (ingest event false)
    (recording_state (uid event) (py "upload_error") ;;
     update_event_status event FAILED_UPLOADING ;;
     set_service_status_immediate INGEST IDLE).

(** *** [control_loop] *)

(** [session.query(RecordedEvent).filter(RecordedEvent.status ==
    Status.FINISHED_RECORDING).first()] *)
Definition query_first : M (option RecordedEvent) :=
  fun s =>
    let r := find (fun e => Status_eqb (status e) FINISHED_RECORDING)
                  (db s) in
    (Ok r, with_trace s (Query (option_map uid r))).

(** Lines 162 to 177: the body of the [while] loop. *)
Definition loop_body (autoingesting_mode : bool) : M unit :=
  notify (py "WATCHDOG=1") ;;
  (if autoingesting_mode then
     emit GetSession ;;
     event <- query_first ;;
     match event with
     | Some event =>
         lo <- config "delay_min" (delay_min W) ;;
         hi <- config "delay_max" (delay_max W) ;;
         delay <- randint lo hi ;;
         sleep delay ;;
         safe_start_ingest event
     | None => ret tt
     end ;;
     emit SessionClose
   else ret tt) ;;
  sleep 1.

(** [while not terminate(): body], for at most [fuel] passes. The result
    tells whether the loop was left ([true]) or is still running. *)
Fixpoint while_not_terminate (fuel : nat) (body : M unit) : M bool :=
  match fuel with
  | O => ret false
  | S fuel' =>
      fun s => if terminate W (trace s) then (Ok true, s)
               else (body ;; while_not_terminate fuel' body) s
  end.

Definition control_loop (fuel : nat) : M bool :=
  set_service_status_immediate INGEST IDLE ;;
  notify (py "READY=1") ;;
  notify (py "STATUS=Running") ;;
  hi <- config "delay_max" (delay_max W) ;;
  lo <- config "delay_min" (delay_min W) ;;
  let autoingesting_mode := (hi >=? lo)%Z in
  left <- while_not_terminate fuel (loop_body autoingesting_mode) ;;
  if left : bool then set_service_status INGEST STOPPED ;; ret true
  else ret false.

Definition run (fuel : nat) : M bool := control_loop fuel.

End Ingest.

Definition nl : str := [ch_newline].

(** ** The words of the specification *)

Module Spec.

(** A line of the workflow configuration, of the workflow definition. *)
Definition is_config (line : str) : bool :=
  Py.startswith line config_prefix.
Definition is_definition (line : str) : bool :=
  Py.startswith line definition_prefix.

Definition has_equals (line : str) : bool :=
  existsb (N.eqb ch_equals) line.

(** A line that is not malformed: a configuration line has a [=]. *)
Definition well_formed (line : str) : bool :=
  negb (is_config line) || has_equals line.

(** [line] is [key], the first [c], then [val]. *)
Definition cut_at_first (c : char) (line key val : str) : Prop :=
  line = key ++ c :: val /\ ~ In c key.

(** [leaf] is what follows the last [c] of [key], all of [key] when it
    has none. *)
Definition last_segment (c : char) (key leaf : str) : Prop :=
  ~ In c leaf /\ (key = leaf \/ exists pre, key = pre ++ c :: leaf).

(** The pair that a configuration line stands for. *)
Definition config_pair (line : str) (kv : str * str) : Prop :=
  exists key, cut_at_first ch_equals line key (snd kv)
              /\ last_segment ch_dot key (fst kv).

(** The last line of the workflow definition, when there is one. *)
Fixpoint last_definition (lines : list str) : option str :=
  match lines with
  | [] => None
  | line :: rest =>
      match last_definition rest with
      | Some l => Some l
      | None => if is_definition line then Some line else None
      end
  end.

(** The definition id read from the lines: what follows the first [=]
    of the last definition line. The code's reading of the two cases
    the words leave open is written out: no such line gives the empty
    string, and such a line without [=] gives the whole line. *)
Definition definition_id (lines : list str) (wdef : str) : Prop :=
  match last_definition lines with
  | None => wdef = []
  | Some l => (exists key, cut_at_first ch_equals l key wdef)
              \/ (has_equals l = false /\ wdef = l)
  end.

End Spec.

(** ** The remote calls of a run *)

(** One remote call: the request and what came back. *)
Definition Call := (Request * Exc bytes)%type.

Fixpoint http_calls (t : Trace) : list Call :=
  match t with
  | [] => []
  | Http q r :: t' => (q, r) :: http_calls t'
  | _ :: t' => http_calls t'
  end.

(** The effects of the building phase: remote calls and readings of the
    configuration. *)
Definition is_remote (e : Effect) : Prop :=
  match e with
  | Http _ _ | Config _ _ => True
  | _ => False
  end.

(** The attachment that carries the agent properties. *)
Definition is_properties (a : Attachment) : bool :=
  opt_str_eqb (x_apple_filename a) prop.

(** A qualifying Dublin Core catalog: not the properties attachment, of
    type XML, with the namespace in its payload, and the upload of
    catalogs enabled. *)
Definition is_catalog (W : World) (a : Attachment) : bool :=
  negb (is_properties a)
  && opt_str_eqb (fmttype a) (py "application/xml")
  && match data a with
     | Some d => Py.contains dcns d
     | None => false
     end
  && upload_catalogs W.

Definition catalog_name (a : Attachment) : str :=
  Py.first_item (Py.rsplit1 ch_dot match x_apple_filename a with
                                   | Some l => l
                                   | None => []
                                   end).

(** The payload of a catalog whose text can be encoded. *)
Definition catalog_payload (a : Attachment) : bytes :=
  match data a with
  | Some d => match Py.encode_utf8 d with
              | Ok b => b
              | Err _ => []
              end
  | None => []
  end.

Definition create_request (service_url : str) : Request :=
  {| url := service_url ++ py "/createMediaPackage"; post_data := None |}.

Definition catalog_request (service_url : str) (a : Attachment)
  (current : bytes) : Request :=
  {| url := service_url ++ py "/addDCCatalog";
     post_data :=
       Some [(py "mediaPackage", VBytes current);
             (py "flavor", VStr (py "dublincore/" ++ catalog_name a));
             (py "dublinCore", VBytes (catalog_payload a))] |}.

Definition track_request (service_url : str) (ft : str * str)
  (current : bytes) : Request :=
  {| url := service_url ++ py "/addTrack";
     post_data :=
       Some [(py "mediaPackage", VBytes current);
             (py "flavor", VStr (fst ft));
             (py "BODY1", VFormFile (Py.encode_ascii_ignore (snd ft)))] |}.

Definition ingest_request (service_url : str) (event : RecordedEvent)
  (w : params) (current : bytes) : Request :=
  {| url := service_url ++ py "/ingest";
     post_data := Some (ingest_fields event w current) |}.

(** The calls of a sequence of requests, each made with the answer to the
    one before it. *)
Fixpoint thread (requests : list (bytes -> Request)) (current : bytes)
  (responses : list bytes) : list Call :=
  match requests, responses with
  | mk :: requests', r :: responses' =>
      (mk current, Ok r) :: thread requests' r responses'
  | _, _ => []
  end.

(** [fields.get(name)] on a list of form fields *)
Fixpoint field_value (name : str) (fields : list field) : option value :=
  match fields with
  | [] => None
  | (k, v) :: fields' =>
      if Py.str_eqb k name then Some v else field_value name fields'
  end.

(** The [mediaPackage] field sent with a request. *)
Definition media_package_of (q : Request) : option value :=
  match post_data q with
  | Some fields => field_value (py "mediaPackage") fields
  | None => None
  end.

(** Each call after the first sends the answer to the call before it. *)
Fixpoint threaded (calls : list Call) : Prop :=
  match calls with
  | c1 :: (c2 :: _) as rest =>
      (exists r, snd c1 = Ok r /\ media_package_of (fst c2) = Some (VBytes r))
      /\ threaded rest
  | _ => True
  end.

(** The effects of [mark_uploading] and of [finish]. *)
Definition begin_events (event : RecordedEvent) : Trace :=
  [SetServiceStatus INGEST BUSY;
   Notify (py "STATUS=Uploading");
   RecordingState (uid event) (py "uploading");
   UpdateEventStatus (uid event) UPLOADING].

Definition finish_events (W : World) (event : RecordedEvent) : Trace :=
  [RecordingState (uid event) (py "upload_finished");
   UpdateEventStatus (uid event) FINISHED_UPLOADING;
   Config (py "ingest") (py "delete_after_upload")]
  ++ (if delete_after_upload W then [Rmtree (directory event)] else [])
  ++ [Notify (py "STATUS=Running");
      SetServiceStatusImmediate INGEST IDLE].

(** The effects of [finish] up to a call of [shutil.rmtree] that
    raises. *)
Definition cleanup_events (event : RecordedEvent) : Trace :=
  [RecordingState (uid event) (py "upload_finished");
   UpdateEventStatus (uid event) FINISHED_UPLOADING;
   Config (py "ingest") (py "delete_after_upload");
   Rmtree (directory event)].

(** What the removal of the directory answers when [finish] starts after
    the trace [t]; nothing is removed unless [delete_after_upload] is
    set. *)
Definition cleanup_result (W : World) (event : RecordedEvent) (t : Trace)
  : Exc unit :=
  if delete_after_upload W
  then shutil_rmtree W
         (t ++ [RecordingState (uid event) (py "upload_finished");
                UpdateEventStatus (uid event) FINISHED_UPLOADING;
                Config (py "ingest") (py "delete_after_upload")])
         (directory event)
  else Ok tt.

Definition failure_events (event : RecordedEvent) : Trace :=
  [RecordingState (uid event) (py "upload_error");
   UpdateEventStatus (uid event) FAILED_UPLOADING;
   SetServiceStatusImmediate INGEST IDLE].

(** A computation that only appends effects that satisfy [P] to the
    trace, and leaves the database and the status of the service as they
    are. *)
Definition appends (P : Effect -> Prop) {A} (m : M A) : Prop :=
  forall s, exists new,
    trace (snd (m s)) = trace s ++ new
    /\ Forall P new
    /\ db (snd (m s)) = db s
    /\ ingest_status (snd (m s)) = ingest_status s.

(** ** Worlds to run the service in *)

Module Run.

Definition base : str := py "http://opencast.example/ingest".

(** The server answers the [n]-th call with a document of its own. *)
Definition answer (t : Trace) : bytes :=
  bytes_of "mp" ++ repeat "x"%byte (List.length (http_calls t)).

Definition beats (t : Trace) : nat :=
  List.length
    (filter (fun e => match e with
                      | Notify m => Py.str_eqb m (py "WATCHDOG=1")
                      | _ => false
                      end) t).

Definition quote : str := [34%N].

Definition declaration : bytes :=
  bytes_of "<?xml version='1.0' encoding='utf-8'?>" ++ [x0a].

Definition server_text : str :=
  py "<mediapackage id=" ++ quote ++ py "srv" ++ quote
  ++ py "><media/></mediapackage>".

Definition server_document : bytes := Py.encode_ascii_ignore server_text.

(** The document of the server once the identifier [ev1] has been
    forced into it, as the library writes it. *)
Definition forced_text : str :=
  py "<?xml version='1.0' encoding='utf-8'?>" ++ [10%N]
  ++ py "<mediapackage id=" ++ quote ++ py "ev1" ++ quote
  ++ py "><media /></mediapackage>".

(** What the parser of the XML library returns for the document of the
    server, and for that document with the identifier [ev1]: an element
    with one attribute and one empty child. *)
Definition parse (s : str) : Exc Element :=
  if Py.str_eqb s server_text
  then Ok (mkElement (py "mediapackage") [(py "id", py "srv")] None
                     [mkElement (py "media") [] None [] None] None)
  else if Py.str_eqb s forced_text
  then Ok (mkElement (py "mediapackage") [(py "id", py "ev1")] None
                     [mkElement (py "media") [] None [] None] None)
  else Err (Raised "xml.etree.ElementTree.ParseError").

(** [_escape_cdata]: the characters [&], [<] and [>] of a text. *)
Definition escape_text (s : str) : str :=
  flat_map (fun c => if N.eqb c 38 then py "&amp;"
                     else if N.eqb c 60 then py "&lt;"
                     else if N.eqb c 62 then py "&gt;"
                     else [c]) s.

(** [_escape_attrib]: the same, and the double quote, the carriage
    return, the newline and the tabulation of an attribute value. *)
Definition escape_attribute (s : str) : str :=
  flat_map (fun c => if N.eqb c 38 then py "&amp;"
                     else if N.eqb c 60 then py "&lt;"
                     else if N.eqb c 62 then py "&gt;"
                     else if N.eqb c 34 then py "&quot;"
                     else if N.eqb c 13 then py "&#13;"
                     else if N.eqb c 10 then py "&#10;"
                     else if N.eqb c 9 then py "&#09;"
                     else [c]) s.

Definition write_attribute (kv : str * str) : str :=
  py " " ++ fst kv ++ py "=" ++ quote ++ escape_attribute (snd kv)
  ++ quote.

Definition text_or_empty (x : option str) : str :=
  match x with Some t => t | None => [] end.

(** What the serialiser of the XML library writes for an element whose
    names need no namespace prefix: an element without text and children
    takes the short form, with a space before the slash. *)
Fixpoint write_element (e : Element) : str :=
  match e with
  | mkElement t a x c l =>
      py "<" ++ t ++ List.concat (map write_attribute a)
      ++ match text_or_empty x, c with
         | [], [] => py " />"
         | _, _ => py ">" ++ escape_text (text_or_empty x)
                   ++ List.concat (map write_element c)
                   ++ py "</" ++ t ++ py ">"
         end
      ++ escape_text (text_or_empty l)
  end.

(** The encoding of the output, with [errors='xmlcharrefreplace']: a
    character that UTF-8 cannot encode is written as a character
    reference. *)
Definition write_char (c : char) : bytes :=
  match Py.utf8_char c with
  | Ok b => b
  | Err _ =>
      bytes_of "&#"
      ++ list_byte_of_string (NilZero.string_of_uint (N.to_uint c))
      ++ bytes_of ";"
  end.

(** [ElementTree.tostring(e, encoding='utf-8', xml_declaration=True)] *)
Definition write (e : Element) : bytes :=
  declaration ++ flat_map write_char (write_element e).

(** Every collaborator answers; the loop is stopped after [stop]
    passes. *)
Definition calm (stop : nat) : World :=
  {| service := fun _ _ _ => Ok [base];
     http_request := fun t _ => Ok (answer t);
     random := fun _ => 0%N;
     terminate := fun t => Nat.leb stop (beats t);
     upload_catalogs := true;
     delete_after_upload := true;
     delay_min := 0;
     delay_max := 0;
     fromstring := parse;
     tostring := write;
     shutil_rmtree := fun _ _ => Ok tt;
     time_sleep := fun _ _ => Ok tt |}.

(** No ingest service is known. *)
Definition no_service : World :=
  {| service := fun _ _ _ => Ok [];
     http_request := fun t _ => Ok (answer t);
     random := fun _ => 0%N;
     terminate := fun t => Nat.leb 1 (beats t);
     upload_catalogs := true;
     delete_after_upload := true;
     delay_min := 0;
     delay_max := 0;
     fromstring := parse;
     tostring := write;
     shutil_rmtree := fun _ _ => Ok tt;
     time_sleep := fun _ _ => Ok tt |}.

(** Every call after the first one fails. *)
Definition failing : World :=
  {| service := fun _ _ _ => Ok [base];
     http_request := fun t _ =>
       match http_calls t with
       | [] => Ok (answer t)
       | _ => Err (Raised "pycurl.error")
       end;
     random := fun _ => 0%N;
     terminate := fun t => Nat.leb 1 (beats t);
     upload_catalogs := true;
     delete_after_upload := true;
     delay_min := 0;
     delay_max := 0;
     fromstring := parse;
     tostring := write;
     shutil_rmtree := fun _ _ => Ok tt;
     time_sleep := fun _ _ => Ok tt |}.

(** The server answers the first call with [server_document]. *)
Definition documents : World :=
  {| service := fun _ _ _ => Ok [base];
     http_request := fun t _ =>
       match http_calls t with
       | [] => Ok server_document
       | _ => Ok (answer t)
       end;
     random := fun _ => 0%N;
     terminate := fun t => Nat.leb 1 (beats t);
     upload_catalogs := true;
     delete_after_upload := false;
     delay_min := 0;
     delay_max := 0;
     fromstring := parse;
     tostring := write;
     shutil_rmtree := fun _ _ => Ok tt;
     time_sleep := fun _ _ => Ok tt |}.

(** The directory of the recording cannot be removed. *)
Definition locked : World :=
  {| service := fun _ _ _ => Ok [base];
     http_request := fun t _ => Ok (answer t);
     random := fun _ => 0%N;
     terminate := fun t => Nat.leb 1 (beats t);
     upload_catalogs := true;
     delete_after_upload := true;
     delay_min := 0;
     delay_max := 0;
     fromstring := parse;
     tostring := write;
     shutil_rmtree := fun _ _ => Err (Raised "PermissionError");
     time_sleep := fun _ _ => Ok tt |}.

(** Automatic ingest is off: [delay_max] is below [delay_min]. *)
Definition manual (stop : nat) : World :=
  {| service := fun _ _ _ => Ok [base];
     http_request := fun t _ => Ok (answer t);
     random := fun _ => 0%N;
     terminate := fun t => Nat.leb stop (beats t);
     upload_catalogs := true;
     delete_after_upload := true;
     delay_min := 10;
     delay_max := 5;
     fromstring := parse;
     tostring := write;
     shutil_rmtree := fun _ _ => Ok tt;
     time_sleep := fun _ _ => Ok tt |}.

Definition properties : Attachment :=
  {| x_apple_filename := Some prop;
     fmttype := Some (py "application/text");
     data := Some (py "org.opencastproject.workflow.definition=fast"
                   ++ nl ++
                   py "org.opencastproject.workflow.config.foo=bar") |}.

Definition catalog : Attachment :=
  {| x_apple_filename := Some (py "episode.xml");
     fmttype := Some (py "application/xml");
     data := Some (py "<dublincore xmlns=" ++ quote ++ dcns ++ quote
                   ++ py "/>") |}.

(** An event with its properties, a catalog and one track, whose path
    has a character outside ASCII. *)
Definition lecture : RecordedEvent :=
  {| uid := py "ev1";
     status := FINISHED_RECORDING;
     attach := [properties; catalog];
     tracks := [(py "presenter/source",
                 py "/rec/vid" ++ [233%N] ++ py "o.mkv")];
     directory := py "/rec" |}.

(** The same event without the properties attachment. *)
Definition bare : RecordedEvent :=
  {| uid := py "ev1";
     status := FINISHED_RECORDING;
     attach := [catalog];
     tracks := [(py "presenter/source", py "/rec/video.mkv")];
     directory := py "/rec" |}.

Definition start (events : list RecordedEvent) : State :=
  {| trace := []; db := events; ingest_status := STOPPED |}.

End Run.

(** The database once [update_event_status] has run. *)
Definition uploading_db (event : RecordedEvent) (st : Status)
  (events : list RecordedEvent) : list RecordedEvent :=
  map (fun e => if Py.str_eqb (uid e) (uid event)
                then set_status e st else e) events.

(** ** The effects of the control loop *)

(** What [control_loop] does before the loop. *)
Definition startup_events : Trace :=
  [SetServiceStatusImmediate INGEST IDLE;
   Notify (py "READY=1");
   Notify (py "STATUS=Running");
   Config (py "ingest") (py "delay_max");
   Config (py "ingest") (py "delay_min")].

(** One pass of the loop that starts no upload. *)
Definition heartbeat : Trace := [Notify (py "WATCHDOG=1"); Sleep 1].

(** The trace after [k] passes of the loop that have started no
    upload. *)
Definition beats_after (s : State) (k : nat) : Trace :=
  trace s ++ startup_events ++ List.concat (repeat heartbeat k).

(** ** Documents *)

(** A request made with the current mediapackage in its [mediaPackage]
    field. *)
Definition carries (mk : bytes -> Request) : Prop :=
  forall current, media_package_of (mk current) = Some (VBytes current).









(** ** Further notions *)

(** [sep.join(l)] for a separator of one character *)
Fixpoint join (sep : char) (l : list str) : str :=
  match l with
  | [] => []
  | [x] => x
  | x :: rest => x ++ sep :: join sep rest
  end.

(** A line that [get_config_params] passes over. *)
Definition is_other (line : str) : bool :=
  negb (Spec.is_config line) && negb (Spec.is_definition line).

Definition is_ascii (c : char) : bool := N.ltb c 128.

(** A code point that a [str] can be encoded from: below U+110000 and no
    surrogate. *)
Definition is_scalar (c : char) : bool :=
  N.ltb c 1114112 && negb (N.leb 55296 c && N.leb c 57343).

(** The recordings that wait for their upload. *)
Definition pending (events : list RecordedEvent) : list RecordedEvent :=
  filter (fun e => Status_eqb (status e) FINISHED_RECORDING) events.

(** What the control loop does by itself on a pass: the sessions it
    opens and closes, and the watchdog signal. *)
Definition opens_session (e : Effect) : bool :=
  match e with GetSession => true | _ => false end.

Definition closes_session (e : Effect) : bool :=
  match e with SessionClose => true | _ => false end.

Definition is_watchdog (e : Effect) : bool :=
  match e with
  | Notify msg => Py.str_eqb msg (py "WATCHDOG=1")
  | _ => false
  end.

Definition is_sleep (e : Effect) : bool :=
  match e with Sleep _ => true | _ => false end.

Definition is_loop_effect (e : Effect) : bool :=
  opens_session e || closes_session e || is_watchdog e || is_sleep e.

(** The pauses of the control loop: the second between two passes, or a
    delay between the two bounds of the configuration. *)
Definition is_pause (W : World) (e : Effect) : Prop :=
  match e with
  | Sleep seconds =>
      seconds = 1%Z
      \/ (0 <= seconds /\ delay_min W <= seconds <= delay_max W)%Z
  | _ => True
  end.

Definition count (p : Effect -> bool) (t : Trace) : nat :=
  List.length (filter p t).

(** The status an event is left with by [safe_start_ingest]. *)
Definition status_after (r : Exc unit) : Status :=
  match r with
  | Ok _ => FINISHED_UPLOADING
  | Err _ => FAILED_UPLOADING
  end.

(** A configuration with delays below zero. *)
Definition hasty : World :=
  {| service := fun _ _ _ => Ok [Run.base];
     http_request := fun t _ => Ok (Run.answer t);
     random := fun _ => 0%N;
     terminate := fun t => Nat.leb 1 (Run.beats t);
     upload_catalogs := true;
     delete_after_upload := true;
     delay_min := -2;
     delay_max := -1;
     fromstring := Run.parse;
     tostring := Run.write;
     shutil_rmtree := fun _ _ => Ok tt;
     time_sleep := fun _ _ => Ok tt |}.

(** A remote call that has failed. *)
Definition failed (e : Effect) : Prop :=
  match e with
  | Http _ (Err _) => True
  | _ => False
  end.

Definition clean (t : Trace) : Prop := Forall (fun e => ~ failed e) t.

(** A computation that makes no remote call after one that has failed,
    and raises what the failed call has raised. *)
Definition stops_at_failure {A} (m : M A) : Prop :=
  forall s, exists new,
    trace (snd (m s)) = trace s ++ new
    /\ match fst (m s) with
       | Ok _ => clean new
       | Err e =>
           exists before,
             clean before
             /\ (new = before
                 \/ exists req, new = before ++ [Http req (Err e)])
       end.

(** The resources of an ingest service that the upload calls;
    [/addDCCatalog] only where catalogs are uploaded. *)
Definition is_endpoint (catalogs : bool) (service_url u : str) : Prop :=
  u = service_url ++ py "/createMediaPackage"
  \/ (catalogs = true /\ u = service_url ++ py "/addDCCatalog")
  \/ u = service_url ++ py "/addTrack"
  \/ u = service_url ++ py "/ingest".

Definition to_service (catalogs : bool) (service_url : str) (e : Effect)
  : Prop :=
  match e with
  | Http req _ => is_endpoint catalogs service_url (url req)
  | Config _ _ => True
  | _ => False
  end.

(** The last attachment that carries agent properties. *)
Definition last_properties (atts : list Attachment) : option Attachment :=
  last (map Some (filter is_properties atts)) None.

(** [time.sleep(seconds)], called after the trace [t], raises [e]. *)
Definition sleep_raises (W : World) (t : Trace) (seconds : Z) (e : exn)
  : Prop :=
  (e = OverflowError /\ (seconds < - sleep_max \/ sleep_max < seconds)%Z)
  \/ (e = ValueError /\ (- sleep_max <= seconds < 0)%Z)
  \/ ((0 <= seconds <= sleep_max)%Z /\ time_sleep W t seconds = Err e).

(** The platform refuses none of the pauses of the control loop that
    [time.sleep] accepts: the second between two passes and the delays
    of the configuration. *)
Definition sleeps (W : World) : Prop :=
  forall t seconds,
    (seconds = 1 \/ delay_min W <= seconds <= delay_max W)%Z ->
    (0 <= seconds <= sleep_max)%Z ->
    time_sleep W t seconds = Ok tt.

(** What a pass of the control loop does before the pause that precedes
    an upload. *)
Definition pass_start (event : RecordedEvent) : Trace :=
  [Notify (py "WATCHDOG=1"); GetSession; Query (Some (uid event));
   Config (py "ingest") (py "delay_min");
   Config (py "ingest") (py "delay_max")].

(** A configuration with delays that [time.sleep] cannot take. *)
Definition patient : World :=
  {| service := fun _ _ _ => Ok [Run.base];
     http_request := fun t _ => Ok (Run.answer t);
     random := fun _ => 0%N;
     terminate := fun t => Nat.leb 1 (Run.beats t);
     upload_catalogs := true;
     delete_after_upload := true;
     delay_min := 10000000000;
     delay_max := 10000000000;
     fromstring := Run.parse;
     tostring := Run.write;
     shutil_rmtree := fun _ _ => Ok tt;
     time_sleep := fun _ _ => Ok tt |}.

(** An event whose agent properties have been attached twice, with two
    workflows. *)
Definition second_properties : Attachment :=
  {| x_apple_filename := Some prop;
     fmttype := Some (py "application/text");
     data := Some (py "org.opencastproject.workflow.definition=full"
                   ++ nl ++
                   py "org.opencastproject.workflow.config.trim=true") |}.

Definition rescheduled : RecordedEvent :=
  {| uid := py "ev2";
     status := FINISHED_RECORDING;
     attach := [Run.properties; Run.catalog; second_properties];
     tracks := [(py "presenter/source", py "/rec/video.mkv")];
     directory := py "/rec" |}.

(** * Properties *)

(** ** The string functions *)

Lemma split1_cut (c : char) (s : str) :
  (exists k v, Py.split1 c s = [k; v] /\ Spec.cut_at_first c s k v)
  \/ (Py.split1 c s = [s] /\ existsb (N.eqb c) s = false).
Proof.
  induction s as [|x s IH]; simpl.
  - right. split; reflexivity.
  - destruct (N.eqb_spec x c) as [->|Hxc].
    + left. exists [], s. repeat split; auto.
    + assert (Hcx : N.eqb c x = false)
        by (apply N.eqb_neq; congruence).
      rewrite Hcx. simpl.
      destruct IH as [(k & v & Hs & Hcut & Hin)|[Hs Hno]].
      * left. exists (x :: k), v. rewrite Hs. repeat split.
        -- simpl. now rewrite Hcut.
        -- simpl. intros [H|H]; [congruence|contradiction].
      * right. rewrite Hs. split; [reflexivity|assumption].
Qed.

Lemma split_segments (c : char) (s : str) :
  exists h t, Py.split c s = h :: t /\ ~ In c h
              /\ (t = [] -> s = h)
              /\ (t <> [] -> ~ In c (last t [])
                             /\ exists pre, s = pre ++ c :: last t []).
Proof.
  induction s as [|x s (h & t & Hs & Hh & Hnil & Hcons)]; simpl.
  - exists [], []. repeat split; auto. congruence.
  - rewrite Hs. destruct (N.eqb_spec x c) as [->|Hxc].
    + exists [], (h :: t). repeat split; auto. { discriminate. }
      * destruct t as [|t0 t']; [assumption|].
        simpl. apply Hcons. discriminate.
      * destruct t as [|t0 t'].
        -- exists []. simpl. now rewrite (Hnil eq_refl).
        -- destruct Hcons as [_ [pre Hpre]]; [discriminate|].
           exists (c :: pre). simpl. now rewrite Hpre.
    + exists (x :: h), t. repeat split.
      * simpl. intros [H|H]; [congruence|contradiction].
      * intros Ht. now rewrite (Hnil Ht).
      * now apply Hcons.
      * destruct (Hcons H) as [_ [pre Hpre]].
        exists (x :: pre). simpl. now rewrite Hpre.
Qed.

Lemma last_item_split (c : char) (s : str) :
  Spec.last_segment c s (Py.last_item (Py.split c s)).
Proof.
  destruct (split_segments c s) as (h & t & Hs & Hh & Hnil & Hcons).
  unfold Py.last_item. rewrite Hs. destruct t as [|t0 t'].
  - simpl. split; [assumption|]. left. now apply Hnil.
  - assert (Hne : t0 :: t' <> []) by discriminate.
    destruct (Hcons Hne) as [Hl [pre Hpre]].
    change (last (h :: t0 :: t') []) with (last (t0 :: t') []).
    split; [assumption|]. right. now exists pre.
Qed.

Lemma config_not_definition (line : str) :
  Spec.is_config line = true -> Spec.is_definition line = false.
Proof.
  unfold Spec.is_config, Spec.is_definition.
  unfold config_prefix, definition_prefix.
  cbn [py map list_ascii_of_string].
  cbn [N_of_ascii N_of_digits].
  repeat (destruct line as [|? line]; [discriminate|];
          cbn [Py.startswith];
          match goal with
          | |- (?a =? ?b)%N && _ = true -> _ =>
              destruct (N.eqb_spec a b) as [<-|];
              [cbn [andb N.eqb Pos.eqb]|discriminate]
          end).
  try discriminate; try reflexivity; auto.
Qed.

(** ** [get_config_params] *)

Lemma cut_has_sep (c : char) (line key val : str) :
  Spec.cut_at_first c line key val -> existsb (N.eqb c) line = true.
Proof.
  intros [-> _]. rewrite existsb_app. simpl.
  rewrite N.eqb_refl. now rewrite orb_true_r.
Qed.

(** What one pass of the loop does to the two locals, case by case. *)
Lemma config_line_cases (wdef : str) (param : list (str * str))
  (line : str) :
  match Spec.is_config line, Spec.is_definition line with
  | true, _ =>
      if Spec.has_equals line
      then exists kv, config_line (wdef, param) line
                      = Ok (wdef, param ++ [kv])
                      /\ Spec.config_pair line kv
      else config_line (wdef, param) line = Err ValueError
  | false, true =>
      exists v, config_line (wdef, param) line = Ok (v, param)
                /\ ((exists key, Spec.cut_at_first ch_equals line key v)
                    \/ (Spec.has_equals line = false /\ v = line))
  | false, false => config_line (wdef, param) line = Ok (wdef, param)
  end.
Proof.
  unfold config_line, Spec.is_config, Spec.is_definition, Spec.has_equals.
  destruct (Py.startswith line config_prefix).
  - destruct (split1_cut ch_equals line)
      as [(k & v & Hs & Hcut)|[Hs Hno]]; rewrite Hs.
    + rewrite (cut_has_sep _ _ _ _ Hcut).
      exists (Py.last_item (Py.split ch_dot k), v). split; [reflexivity|].
      exists k. split; [exact Hcut|apply last_item_split].
    + rewrite Hno. reflexivity.
  - destruct (Py.startswith line definition_prefix); [|reflexivity].
    destruct (split1_cut ch_equals line)
      as [(k & v & Hs & Hcut)|[Hs Hno]]; rewrite Hs.
    + exists v. split; [reflexivity|]. left. now exists k.
    + exists line. split; [reflexivity|]. right. now split.
Qed.

Lemma config_lines_well_formed (lines : list str) :
  forall wdef param,
    forallb Spec.well_formed lines = true ->
    exists wdef' added,
      config_lines (wdef, param) lines = Ok (wdef', param ++ added)
      /\ Forall2 Spec.config_pair (filter Spec.is_config lines) added
      /\ match Spec.last_definition lines with
         | None => wdef' = wdef
         | Some l =>
             (exists key, Spec.cut_at_first ch_equals l key wdef')
             \/ (Spec.has_equals l = false /\ wdef' = l)
         end.
Proof.
  induction lines as [|line rest IH]; intros wdef param Hwf.
  - exists wdef, []. simpl. rewrite app_nil_r. repeat split; constructor.
  - simpl in Hwf. apply andb_true_iff in Hwf as [Hline Hrest].
    pose proof (config_line_cases wdef param line) as Hcase.
    pose proof (config_not_definition line) as Hexcl.
    unfold Spec.well_formed in Hline.
    cbn [config_lines filter Spec.last_definition].
    destruct (Spec.is_config line) eqn:Hc.
    + rewrite (Hexcl eq_refl). simpl in Hline. rewrite Hline in Hcase.
      destruct Hcase as (kv & Hstep & Hpair). rewrite Hstep.
      destruct (IH wdef (param ++ [kv]) Hrest)
        as (w' & added & Hrun & Hpairs & Hdef).
      exists w', (kv :: added). rewrite Hrun, <- app_assoc.
      repeat split; [now constructor|].
      destruct (Spec.last_definition rest); assumption.
    + destruct (Spec.is_definition line) eqn:Hd.
      * destruct Hcase as (v & Hstep & Hv). rewrite Hstep.
        destruct (IH v param Hrest) as (w' & added & Hrun & Hpairs & Hdef).
        exists w', added. rewrite Hrun. repeat split; [assumption|].
        destruct (Spec.last_definition rest); [assumption|].
        now subst w'.
      * rewrite Hcase.
        destruct (IH wdef param Hrest)
          as (w' & added & Hrun & Hpairs & Hdef).
        exists w', added. rewrite Hrun. repeat split; [assumption|].
        destruct (Spec.last_definition rest); assumption.
Qed.

Lemma config_lines_malformed (lines : list str) :
  forall acc,
    forallb Spec.well_formed lines = false ->
    config_lines acc lines = Err ValueError.
Proof.
  induction lines as [|line rest IH]; intros [wdef param] Hwf.
  - discriminate.
  - simpl in Hwf. cbn [config_lines].
    pose proof (config_line_cases wdef param line) as Hcase.
    unfold Spec.well_formed in Hwf.
    destruct (Spec.is_config line).
    + destruct (Spec.has_equals line).
      * destruct Hcase as (kv & -> & _). now apply IH.
      * now rewrite Hcase.
    + simpl in Hwf. destruct (Spec.is_definition line).
      * destruct Hcase as (v & -> & _). now apply IH.
      * rewrite Hcase. now apply IH.
Qed.

(** C3 as the claim states it fails: a configuration line without [=]
    makes the tuple assignment raise [ValueError]. *)
Lemma get_config_params_raises :
  get_config_params (py "org.opencastproject.workflow.config.foo")
  = Err ValueError.
Proof. vm_compute. reflexivity. Qed.

(** C3, amended: [get_config_params] returns without raising exactly when
    every line that starts with the workflow-config prefix has a [=];
    otherwise it raises [ValueError]. A line that starts with the
    workflow-definition prefix and has no [=] raises nothing. *)
Theorem get_config_params_raises_iff_malformed (properties : str) :
  if forallb Spec.well_formed (Py.split ch_newline properties)
  then exists wdef param, get_config_params properties = Ok (wdef, param)
  else get_config_params properties = Err ValueError.
Proof.
  unfold get_config_params.
  destruct (forallb Spec.well_formed (Py.split ch_newline properties))
    eqn:Hwf.
  - destruct (config_lines_well_formed _ [] [] Hwf)
      as (w & added & Hrun & _).
    now exists w, ([] ++ added).
  - now apply config_lines_malformed.
Qed.

(** C5 as the claim states it fails: for this text, whose configuration
    line has no [=], the function returns no pair at all. *)
Lemma get_config_params_no_result :
  ~ exists wdef param,
      get_config_params
        (py "org.opencastproject.workflow.definition=fast" ++ nl ++
         py "org.opencastproject.workflow.config.foo")
      = Ok (wdef, param).
Proof.
  intros (wdef & param & H). vm_compute in H. discriminate.
Qed.

(** C5, amended: for every properties text whose workflow-config lines
    all have a [=], [get_config_params] returns [(wdef, params)] where
    [params] has one pair per workflow-config line, in the order of the
    lines, duplicates kept, each key cut down to its last dot-segment and
    each value what follows the first [=]; [wdef] is what follows the
    first [=] of the last workflow-definition line (the whole line when it
    has no [=], the empty string when there is no such line). The text of
    the example yields [("fast", [("foo", "bar")])]. *)
Theorem get_config_params_spec :
  (forall properties : str,
      let lines := Py.split ch_newline properties in
      forallb Spec.well_formed lines = true ->
      exists wdef params,
        get_config_params properties = Ok (wdef, params)
        /\ Forall2 Spec.config_pair (filter Spec.is_config lines) params
        /\ Spec.definition_id lines wdef)
  /\ get_config_params
       (py "org.opencastproject.workflow.definition=fast" ++ nl ++
        py "org.opencastproject.workflow.config.foo=bar")
     = Ok (py "fast", [(py "foo", py "bar")]).
Proof.
  split; [|vm_compute; reflexivity].
  intros properties lines Hwf. unfold get_config_params. fold lines.
  destruct (config_lines_well_formed lines [] [] Hwf)
    as (w & added & Hrun & Hpairs & Hdef).
  exists w, added. repeat split; assumption.
Qed.

Lemma get_config_params_spec_witness :
  exists wdef params,
    get_config_params
      (py "org.opencastproject.workflow.config.a.x=1" ++ nl ++
       py "org.opencastproject.workflow.definition=slow" ++ nl ++
       py "comment" ++ nl ++
       py "org.opencastproject.workflow.config.b.x=2=3" ++ nl ++
       py "org.opencastproject.workflow.definition=fast")
    = Ok (wdef, params)
    /\ wdef = py "fast"
    /\ params = [(py "x", py "1"); (py "x", py "2=3")].
Proof.
  destruct (proj1 get_config_params_spec
              (py "org.opencastproject.workflow.config.a.x=1" ++ nl ++
               py "org.opencastproject.workflow.definition=slow" ++ nl ++
               py "comment" ++ nl ++
               py "org.opencastproject.workflow.config.b.x=2=3" ++ nl ++
               py "org.opencastproject.workflow.definition=fast")
              eq_refl) as (wdef & params & Hrun & _).
  exists wdef, params. split; [exact Hrun|].
  vm_compute in Hrun. injection Hrun as <- <-. split; reflexivity.
Defined.

(** ** Traces *)

Lemma http_calls_app (t u : Trace) :
  http_calls (t ++ u) = http_calls t ++ http_calls u.
Proof.
  induction t as [|e t IH]; [reflexivity|].
  destruct e; simpl; now rewrite IH.
Qed.

Lemma last_cons {A} (x d : A) (l : list A) : last (x :: l) d = last l x.
Proof.
  revert x d. induction l as [|y l IH]; intros x d; [reflexivity|].
  change (last (x :: y :: l) d) with (last (y :: l) d).
  now rewrite !IH.
Qed.

Lemma last_append {A} (a b : list A) :
  forall d, last (a ++ b) d = last b (last a d).
Proof.
  induction a as [|x a IH]; intros d; [reflexivity|].
  rewrite <- app_comm_cons, !last_cons. apply IH.
Qed.

Lemma thread_app (qa qb : list (bytes -> Request)) :
  forall cur ra rb,
    List.length ra = List.length qa ->
    thread (qa ++ qb) cur (ra ++ rb)
    = thread qa cur ra ++ thread qb (last ra cur) rb.
Proof.
  induction qa as [|mk qa IH]; intros cur ra rb Hlen.
  - destruct ra; [reflexivity|discriminate].
  - destruct ra as [|r ra]; [discriminate|].
    rewrite last_cons. cbn [app thread].
    now rewrite IH by (simpl in Hlen; congruence).
Qed.


(** The calls of a thread have all been answered. *)
Lemma thread_answers (qs : list (bytes -> Request)) :
  forall cur rs,
    Forall (fun c : Call => exists r, snd c = Ok r) (thread qs cur rs).
Proof.
  induction qs as [|mk qs IH]; intros cur [|r rs]; try constructor.
  - now exists r.
  - apply IH.
Qed.

Lemma clean_app (a b : Trace) : clean a -> clean b -> clean (a ++ b).
Proof. intros Ha Hb. apply Forall_app. now split. Qed.

Lemma clean_of_calls (t : Trace) :
  Forall (fun c : Call => exists r, snd c = Ok r) (http_calls t) ->
  clean t.
Proof.
  induction t as [|e t IH]; intros H; [constructor|].
  destruct e; cbn [http_calls] in H;
    try (constructor; [intros []|now apply IH]).
  inversion H as [|? ? [r Hr] Hrest]; subst. cbn [snd] in Hr. subst.
  constructor; [intros []|now apply IH].
Qed.

Lemma clean_begin (event : RecordedEvent) : clean (begin_events event).
Proof. repeat constructor; intros []. Qed.

Lemma clean_finish (W : World) (event : RecordedEvent) :
  clean (finish_events W event).
Proof.
  unfold finish_events. destruct (delete_after_upload W);
    repeat constructor; intros [].
Qed.

Lemma clean_cleanup (event : RecordedEvent) : clean (cleanup_events event).
Proof. repeat constructor; intros []. Qed.

Lemma clean_no_rmtree_before (event : RecordedEvent) (mid : Trace)
  (d : str) :
  Forall is_remote mid ->
  ~ In (Rmtree d)
       (begin_events event ++ ServiceLookup (py "ingest") true :: mid).
Proof.
  intros Hmid Hin. apply in_app_or in Hin as [Hin|[Hin|Hin]].
  - cbn in Hin. repeat destruct Hin as [Hin|Hin];
      try discriminate; exact Hin.
  - discriminate.
  - rewrite Forall_forall in Hmid. exact (Hmid _ Hin).
Qed.

(** ** The monad *)

Section Appends.

Variable P : Effect -> Prop.

Lemma appends_ret {A} (a : A) : appends P (ret a).
Proof.
  intros s. exists []. simpl. rewrite app_nil_r. repeat split. constructor.
Qed.

Lemma appends_raise {A} (e : exn) : appends P (@raise A e).
Proof.
  intros s. exists []. simpl. rewrite app_nil_r. repeat split. constructor.
Qed.

Lemma appends_lift {A} (r : Exc A) : appends P (lift r).
Proof.
  intros s. exists []. simpl. rewrite app_nil_r. repeat split. constructor.
Qed.

Lemma appends_emit (e : Effect) : P e -> appends P (emit e).
Proof.
  intros He s. exists [e]. simpl. repeat split. now constructor.
Qed.

Lemma appends_bind {A B} (m : M A) (k : A -> M B) :
  appends P m -> (forall a, appends P (k a)) -> appends P (bind m k).
Proof.
  intros Hm Hk s. unfold bind.
  destruct (Hm s) as (new & Ht & Hp & Hd & Hi).
  destruct (m s) as [[a|e] s1]; simpl in *.
  - destruct (Hk a s1) as (new' & Ht' & Hp' & Hd' & Hi').
    exists (new ++ new'). rewrite Ht', Ht, app_assoc, Hd', Hi'.
    repeat split; try assumption. now apply Forall_app.
  - exists new. now repeat split.
Qed.

Lemma appends_for_each {A S} (body : S -> A -> M S) (l : list A) :
  (forall acc x, appends P (body acc x)) ->
  forall acc, appends P (for_each body l acc).
Proof.
  intros Hbody. induction l as [|x l IH]; intros acc; simpl.
  - apply appends_ret.
  - apply appends_bind; [apply Hbody|exact IH].
Qed.

End Appends.

Lemma appends_config {A} (key : string) (v : A) :
  appends is_remote (config key v).
Proof.
  unfold config. apply appends_bind; [|intros; apply appends_ret].
  now apply appends_emit.
Qed.

Lemma appends_call_http (W : World) (u : str)
  (fields : option (list field)) :
  appends is_remote (call_http W u fields).
Proof.
  intros s. eexists [_]. simpl. repeat split. now constructor.
Qed.

Lemma appends_attachment_step (W : World) (service_url : str)
  (acc : Locals) (a : Attachment) :
  appends is_remote (attachment_step W service_url acc a).
Proof.
  unfold attachment_step. destruct acc as [w mp].
  destruct (opt_str_eqb (x_apple_filename a) prop).
  - destruct (data a); [|apply appends_raise].
    apply appends_bind; [apply appends_lift|intros; apply appends_ret].
  - destruct (opt_str_eqb (fmttype a) (py "application/xml"));
      [|apply appends_ret].
    destruct (data a); [|apply appends_raise].
    destruct (Py.contains dcns s); [|apply appends_ret].
    apply appends_bind; [apply appends_config|].
    intros [|]; [|apply appends_ret].
    apply appends_bind; [apply appends_lift|intros].
    apply appends_bind; [apply appends_call_http|intros; apply appends_ret].
Qed.

Lemma appends_track_step (W : World) (service_url : str)
  (mp : bytes) (ft : str * str) :
  appends is_remote (track_step W service_url mp ft).
Proof.
  destruct ft. apply appends_call_http.
Qed.

Lemma appends_submit (W : World) (service_url : str)
  (event : RecordedEvent) (acc : Locals) :
  appends is_remote (submit W service_url event acc).
Proof.
  destruct acc as [[w|] mp]; [apply appends_call_http|apply appends_raise].
Qed.

Lemma appends_build (W : World) (service_url : str)
  (event : RecordedEvent) (force_uid : bool) :
  appends is_remote (build W service_url event force_uid).
Proof.
  unfold build.
  apply appends_bind; [apply appends_call_http|intros].
  apply appends_bind;
    [destruct force_uid; [apply appends_lift|apply appends_ret]|intros].
  apply appends_bind;
    [apply appends_for_each; intros; apply appends_attachment_step|intros].
  apply appends_bind;
    [apply appends_for_each; intros; apply appends_track_step|intros].
  apply appends_submit.
Qed.

(** ** The passes of [build] *)

Section Build.

Variable W : World.
Variable service_url : str.

Lemma attachment_step_ok (w w' : option params) (mp mp' : bytes)
  (a : Attachment) (s s' : State) :
  attachment_step W service_url (w, mp) a s = (Ok (w', mp'), s') ->
  http_calls (trace s')
  = http_calls (trace s)
    ++ (if is_catalog W a
        then [(catalog_request service_url a mp, Ok mp')] else [])
  /\ (is_catalog W a = false -> mp' = mp)
  /\ (if is_properties a
      then exists d p, data a = Some d /\ get_config_params d = Ok p
                       /\ w' = Some p
      else w' = w).
Proof.
  unfold attachment_step, is_catalog, is_properties, catalog_request,
    catalog_payload, catalog_name.
  destruct (opt_str_eqb (x_apple_filename a) prop); simpl.
  - destruct (data a) as [d|]; [|discriminate].
    unfold bind, lift, ret.
    destruct (get_config_params d) as [p|e] eqn:Hp; [|discriminate].
    intros H. injection H as <- <- <-. rewrite app_nil_r.
    repeat split. now exists d, p.
  - destruct (opt_str_eqb (fmttype a) (py "application/xml")); simpl.
    2:{ intros H. injection H as <- <- <-. rewrite app_nil_r. now repeat split. }
    destruct (data a) as [d|]; [|discriminate].
    destruct (Py.contains dcns d); simpl.
    2:{ intros H. injection H as <- <- <-. rewrite app_nil_r. now repeat split. }
    unfold bind, config, emit, lift, ret, call_http. simpl.
    destruct (upload_catalogs W); simpl.
    2:{ intros H. injection H as <- <- <-. simpl.
        rewrite http_calls_app, app_nil_r. simpl. rewrite app_nil_r.
        now repeat split. }
    destruct (Py.encode_utf8 d) as [payload|e]; [|discriminate].
    match goal with
    | |- context [http_request W ?t ?q] =>
        destruct (http_request W t q) as [r|e] eqn:Hr
    end; [|discriminate].
    intros H. injection H as <- <- <-. simpl.
    rewrite !http_calls_app. simpl. rewrite app_nil_r.
    repeat split. discriminate.
Qed.

Lemma properties_somewhere (atts : list Attachment) :
  forallb (fun a => negb (is_properties a)) atts = false ->
  existsb is_properties atts = true.
Proof.
  induction atts as [|a atts IH]; [discriminate|]. simpl.
  destruct (is_properties a); [reflexivity|exact IH].
Qed.

Lemma attachments_ok (atts : list Attachment) :
  forall w mp s w' mp' s',
    for_each (attachment_step W service_url) atts (w, mp) s
    = (Ok (w', mp'), s') ->
    exists responses,
      List.length responses = List.length (filter (is_catalog W) atts)
      /\ http_calls (trace s')
         = http_calls (trace s)
           ++ thread (map (catalog_request service_url)
                          (filter (is_catalog W) atts)) mp responses
      /\ mp' = last responses mp
      /\ (forallb (fun a => negb (is_properties a)) atts = true ->
          w' = w)
      /\ (existsb is_properties atts = true -> w' <> None).
Proof.
  induction atts as [|a atts IH]; intros w mp s w' mp' s' Hrun.
  - cbv [for_each ret] in Hrun. inversion Hrun; subst. exists [].
    simpl. rewrite app_nil_r. repeat split. discriminate.
  - cbn [for_each] in Hrun. unfold bind in Hrun.
    destruct (attachment_step W service_url (w, mp) a s)
      as [[[w1 mp1]|e] s1] eqn:Hstep; cbv beta iota in Hrun;
      [|discriminate].
    apply attachment_step_ok in Hstep as (Hcalls & Hmp & Hw).
    destruct (IH _ _ _ _ _ _ Hrun)
      as (rs & Hlen & Hcalls' & Hlast & Hnone & Hsome).
    cbn [filter forallb existsb].
    assert (Hlocals :
              (negb (is_properties a)
               && forallb (fun a0 => negb (is_properties a0)) atts = true ->
               w' = w)
              /\ (is_properties a || existsb is_properties atts = true ->
                  w' <> None)).
    { destruct (is_properties a); cbn [negb andb orb].
      - split; [discriminate|]. intros _.
        destruct Hw as (d & p & _ & _ & ->).
        destruct (forallb (fun a0 => negb (is_properties a0)) atts)
          eqn:Hall.
        + rewrite (Hnone eq_refl). discriminate.
        + apply Hsome. now apply properties_somewhere.
      - subst w1. split; assumption. }
    destruct Hlocals as [Hkeep Hbound].
    destruct (is_catalog W a) eqn:Hcat.
    + exists (mp1 :: rs). cbn [map thread List.length].
      rewrite Hcalls', Hcalls, <- app_assoc, last_cons.
      repeat split; try assumption; congruence.
    + exists rs. rewrite (Hmp eq_refl) in *.
      rewrite Hcalls', Hcalls, app_nil_r.
      repeat split; assumption.
Qed.

Lemma track_step_ok (mp mp' : bytes) (ft : str * str) (s s' : State) :
  track_step W service_url mp ft s = (Ok mp', s') ->
  http_calls (trace s')
  = http_calls (trace s) ++ [(track_request service_url ft mp, Ok mp')].
Proof.
  destruct ft as [flavor track]. unfold track_step, call_http.
  match goal with
  | |- context [http_request W ?t ?q] =>
      destruct (http_request W t q) as [r|e] eqn:Hr
  end; [|discriminate].
  intros H. injection H as <- <-. simpl. now rewrite http_calls_app.
Qed.

Lemma tracks_ok (fts : list (str * str)) :
  forall mp s mp' s',
    for_each (track_step W service_url) fts mp s = (Ok mp', s') ->
    exists responses,
      List.length responses = List.length fts
      /\ http_calls (trace s')
         = http_calls (trace s)
           ++ thread (map (track_request service_url) fts) mp responses
      /\ mp' = last responses mp.
Proof.
  induction fts as [|ft fts IH]; intros mp s mp' s' Hrun.
  - cbv [for_each ret] in Hrun. inversion Hrun; subst. exists [].
    simpl. rewrite app_nil_r. now repeat split.
  - cbn [for_each] in Hrun. unfold bind in Hrun.
    destruct (track_step W service_url mp ft s) as [[mp1|e] s1] eqn:Hstep;
      cbv beta iota in Hrun; [|discriminate].
    apply track_step_ok in Hstep.
    destruct (IH _ _ _ _ Hrun) as (rs & Hlen & Hcalls & Hlast).
    exists (mp1 :: rs). cbn [map thread List.length].
    rewrite Hcalls, Hstep, <- app_assoc, last_cons.
    repeat split; congruence.
Qed.

End Build.

(** ** The phases of [ingest] *)

Lemma appends_run (P : Effect -> Prop) {A} (m : M A) (s s' : State)
  (r : Exc A) :
  appends P m -> m s = (r, s') ->
  exists new, trace s' = trace s ++ new /\ Forall P new
              /\ db s' = db s /\ ingest_status s' = ingest_status s.
Proof.
  intros Hm Hrun. specialize (Hm s). now rewrite Hrun in Hm.
Qed.

Section Phases.

Variable W : World.

Lemma mark_uploading_run (event : RecordedEvent) (s : State) :
  mark_uploading event s
  = (Ok tt, {| trace := trace s ++ begin_events event;
               db := uploading_db event UPLOADING (db s);
               ingest_status := BUSY |}).
Proof.
  unfold mark_uploading, bind, set_service_status, notify,
    recording_state, emit, update_event_status, begin_events.
  simpl. now rewrite <- !app_assoc.
Qed.

Lemma select_service_run (s s' : State) (r : Exc str) :
  select_service W s = (r, s') ->
  s' = with_trace s (ServiceLookup (py "ingest") true)
  /\ match r with
     | Ok service_url =>
         exists urls, service W (trace s) (py "ingest") true = Ok urls
                      /\ In service_url urls
     | Err _ => True
     end.
Proof.
  unfold select_service, bind, call_service, randrange, item.
  destruct (service W (trace s) (py "ingest") true) as [urls|e];
    [|intros H; inversion H; now subst].
  destruct (0 <? Z.of_nat (List.length urls))%Z;
    [|intros H; inversion H; now subst].
  match goal with
  | |- context [nth_error urls ?i] =>
      destruct (nth_error urls i) as [u|] eqn:Hnth
  end; intros H; inversion H; subst; split; auto.
  exists urls. split; [reflexivity|]. eapply nth_error_In; eassumption.
Qed.

Lemma select_service_empty (s : State) :
  service W (trace s) (py "ingest") true = Ok [] ->
  select_service W s
  = (Err ValueError, with_trace s (ServiceLookup (py "ingest") true)).
Proof.
  intros H. unfold select_service, bind, call_service, randrange.
  now rewrite H.
Qed.

Lemma finish_run (event : RecordedEvent) (s : State) :
  finish W event s
  = match cleanup_result W event (trace s) with
    | Ok _ =>
        (Ok tt, {| trace := trace s ++ finish_events W event;
                   db := uploading_db event FINISHED_UPLOADING (db s);
                   ingest_status := IDLE |})
    | Err e =>
        (Err e, {| trace := trace s ++ cleanup_events event;
                   db := uploading_db event FINISHED_UPLOADING (db s);
                   ingest_status := ingest_status s |})
    end.
Proof.
  unfold finish, bind, recording_state, update_event_status, config,
    emit, ret, rmtree, notify, set_service_status_immediate,
    finish_events, cleanup_result, cleanup_events, with_trace.
  destruct (delete_after_upload W); simpl.
  - rewrite <- !app_assoc. simpl.
    destruct (shutil_rmtree W _ (directory event)) as [[]|e];
      simpl; rewrite <- ?app_assoc; reflexivity.
  - now rewrite <- !app_assoc.
Qed.

(** A removal that raises needs [delete_after_upload]. *)
Lemma cleanup_result_err (event : RecordedEvent) (t : Trace) (e : exn) :
  cleanup_result W event t = Err e -> delete_after_upload W = true.
Proof.
  unfold cleanup_result. now destruct (delete_after_upload W).
Qed.

Lemma build_ok (service_url : str) (event : RecordedEvent)
  (force_uid : bool) (s s' : State) (r : bytes) :
  build W service_url event force_uid s = (Ok r, s') ->
  exists mid r0 mp0 responses w,
    trace s'
    = trace s ++ mid
      ++ [Http (ingest_request service_url event w (last responses mp0))
               (Ok r)]
    /\ Forall is_remote mid
    /\ http_calls mid
       = (create_request service_url, Ok r0)
         :: thread (map (catalog_request service_url)
                        (filter (is_catalog W) (attach event))
                    ++ map (track_request service_url) (tracks event))
                   mp0 responses
    /\ List.length responses
       = (List.length (filter (is_catalog W) (attach event))
          + List.length (tracks event))%nat
    /\ (if force_uid then force_identity W event r0 = Ok mp0
        else mp0 = r0)
    /\ existsb is_properties (attach event) = true
    /\ db s' = db s /\ ingest_status s' = ingest_status s.
Proof.
  unfold build, bind. intros Hrun.
  destruct (call_http W (service_url ++ py "/createMediaPackage") None s)
    as [[r0|e] s0] eqn:Hcreate; [|discriminate].
  assert (Hs0 : s0 = with_trace s (Http (create_request service_url)
                                        (Ok r0))).
  { unfold call_http in Hcreate. unfold create_request.
    inversion Hcreate as [[Hr Hs]]. now rewrite Hr. }
  clear Hcreate.
  destruct ((if force_uid then lift (force_identity W event r0)
             else ret r0) s0) as [[mp0|e] s1] eqn:Hforce; [|discriminate].
  assert (Hs1 : s1 = s0 /\ if force_uid
                           then force_identity W event r0 = Ok mp0
                           else mp0 = r0).
  { destruct force_uid; unfold lift, ret in Hforce;
      inversion Hforce; subst; auto. }
  destruct Hs1 as [-> Hmp0]. clear Hforce.
  destruct (for_each (attachment_step W service_url) (attach event)
                     (None, mp0) s0) as [[[w mp1]|e] s2] eqn:Hatt;
    [|discriminate].
  simpl in Hrun.
  destruct (for_each (track_step W service_url) (tracks event) mp1 s2)
    as [[mp2|e] s3] eqn:Htr; [|discriminate].
  assert (Ha : appends is_remote
                 (for_each (attachment_step W service_url) (attach event)
                           (None, mp0)))
    by (apply appends_for_each; intros; apply appends_attachment_step).
  assert (Ht : appends is_remote
                 (for_each (track_step W service_url) (tracks event) mp1))
    by (apply appends_for_each; intros; apply appends_track_step).
  destruct (appends_run _ _ _ _ _ Ha Hatt)
    as (newa & Hta & Hpa & Hda & Hia).
  destruct (appends_run _ _ _ _ _ Ht Htr)
    as (newt & Htt & Hpt & Hdt & Hit).
  clear Ha Ht.
  destruct (attachments_ok _ _ _ _ _ _ _ _ _ Hatt)
    as (ra & Hla & Hca & Hlasta & Hnone & Hsome).
  destruct (tracks_ok _ _ _ _ _ _ _ Htr) as (rt & Hlt & Hct & Hlastt).
  unfold submit in Hrun.
  destruct w as [w|]; [|discriminate].
  unfold call_http in Hrun.
  match type of Hrun with
  | (?resp, _) = _ => destruct resp as [rf|e] eqn:Hresp
  end; inversion Hrun; subst r s'; clear Hrun.
  exists (Http (create_request service_url) (Ok r0) :: newa ++ newt),
    r0, mp0, (ra ++ rt), w.
  assert (Hlast : last (ra ++ rt) mp0 = mp2).
  { subst mp2 mp1. apply last_append. }
  rewrite Hlast.
  repeat split.
  - cbn [with_trace trace]. rewrite Htt, Hta, Hs0.
    cbn [with_trace trace]. unfold ingest_request.
    rewrite <- !app_assoc. cbn [app]. now rewrite <- !app_assoc.
  - constructor; [exact I|]. now apply Forall_app.
  - rewrite Hta, http_calls_app in Hca. apply app_inv_head in Hca.
    rewrite Htt, http_calls_app in Hct. apply app_inv_head in Hct.
    cbn [http_calls]. rewrite http_calls_app, Hca, Hct.
    rewrite thread_app by (now rewrite length_map).
    now rewrite <- Hlasta.
  - now rewrite length_app, Hla, Hlt.
  - exact Hmp0.
  - destruct (forallb (fun a => negb (is_properties a))
                      (attach event)) eqn:Hall.
    + specialize (Hnone eq_refl). discriminate.
    + now apply properties_somewhere.
  - cbn [with_trace db]. rewrite Hdt, Hda, Hs0. reflexivity.
  - cbn [with_trace ingest_status]. rewrite Hit, Hia, Hs0. reflexivity.
Qed.

End Phases.

(** ** The runs of [ingest] *)

Section Runs.

Variable W : World.

(** A run that raises has announced the upload and looked the services
    up. Either it has stopped there or at a remote call, and has done
    nothing else; or all its calls have succeeded and the removal of the
    directory has raised. *)
Lemma ingest_err (event : RecordedEvent) (force_uid : bool)
  (s s' : State) (e : exn) :
  ingest W event force_uid s = (Err e, s') ->
  ingest_status s' = BUSY
  /\ exists mid,
      Forall is_remote mid
      /\ ((trace s' = trace s ++ begin_events event
                      ++ ServiceLookup (py "ingest") true :: mid
           /\ db s' = uploading_db event UPLOADING (db s))
          \/ (trace s' = trace s ++ begin_events event
                         ++ ServiceLookup (py "ingest") true :: mid
                         ++ cleanup_events event
              /\ db s' = uploading_db event FINISHED_UPLOADING
                                      (uploading_db event UPLOADING (db s))
              /\ delete_after_upload W = true
              /\ clean mid
              /\ (exists before service_url w current answer,
                    mid = before
                          ++ [Http (ingest_request service_url event w
                                                   current) (Ok answer)]
                    /\ Forall is_remote before)
              /\ cleanup_result W event
                   (trace s ++ begin_events event
                    ++ ServiceLookup (py "ingest") true :: mid)
                 = Err e)).
Proof.
  unfold ingest, bind. rewrite mark_uploading_run.
  destruct (select_service W _) as [[service_url|e1] s1] eqn:Hsel.
  - apply select_service_run in Hsel as [-> _].
    destruct (build W service_url event force_uid _)
      as [[r|e2] s2] eqn:Hbuild.
    + rewrite finish_run.
      destruct (cleanup_result W event (trace s2)) as [[]|e3] eqn:Hclean;
        [discriminate|].
      intros H. inversion H; subst e3 s'; clear H.
      apply build_ok in Hbuild
        as (mid & r0 & mp0 & rs & w & Ht & Hp & Hc & _ & _ & _ & Hd & Hi).
      cbn [trace db ingest_status with_trace] in *.
      split; [exact Hi|].
      eexists (mid ++ [Http _ (Ok r)]).
      split; [apply Forall_app; split; [exact Hp|now repeat constructor]|].
      right. rewrite Ht, Hd in *.
      split; [now rewrite <- !app_assoc|]. split; [reflexivity|].
      split; [eapply cleanup_result_err; exact Hclean|].
      split; [|split].
      * apply clean_app; [|repeat constructor; intros []].
        apply clean_of_calls. rewrite Hc.
        constructor; [now exists r0|apply thread_answers].
      * eexists mid, service_url, w, _, r. split; [reflexivity|exact Hp].
      * rewrite <- Hclean. f_equal. now rewrite <- !app_assoc.
    + intros H. inversion H; subst e2 s2; clear H.
      destruct (appends_run _ _ _ _ _
                  (appends_build W service_url event force_uid) Hbuild)
        as (mid & Ht & Hp & Hd & Hi).
      rewrite Ht, Hd, Hi. cbn [with_trace trace db ingest_status].
      split; [reflexivity|]. exists mid. split; [exact Hp|]. left.
      split; [now rewrite <- !app_assoc|reflexivity].
  - apply select_service_run in Hsel as [-> _].
    intros H. inversion H; subst e1 s'; clear H.
    cbn [with_trace trace db ingest_status].
    split; [reflexivity|]. exists []. split; [constructor|]. left.
    split; [now rewrite <- !app_assoc|reflexivity].
Qed.

(** A run that returns has made the whole sequence of calls. *)
Lemma ingest_ok (event : RecordedEvent) (force_uid : bool)
  (s s' : State) :
  ingest W event force_uid s = (Ok tt, s') ->
  exists service_url mid r0 mp0 responses w rf,
    (exists urls,
        service W (trace s ++ begin_events event) (py "ingest") true
        = Ok urls /\ In service_url urls)
    /\ trace s'
       = trace s ++ begin_events event
         ++ ServiceLookup (py "ingest") true :: mid
         ++ Http (ingest_request service_url event w
                                 (last responses mp0)) (Ok rf)
            :: finish_events W event
    /\ Forall is_remote mid
    /\ http_calls mid
       = (create_request service_url, Ok r0)
         :: thread (map (catalog_request service_url)
                        (filter (is_catalog W) (attach event))
                    ++ map (track_request service_url) (tracks event))
                   mp0 responses
    /\ List.length responses
       = (List.length (filter (is_catalog W) (attach event))
          + List.length (tracks event))%nat
    /\ (if force_uid then force_identity W event r0 = Ok mp0
        else mp0 = r0)
    /\ existsb is_properties (attach event) = true
    /\ db s' = uploading_db event FINISHED_UPLOADING
                            (uploading_db event UPLOADING (db s))
    /\ ingest_status s' = IDLE.
Proof.
  unfold ingest, bind. rewrite mark_uploading_run.
  destruct (select_service W _) as [[service_url|e1] s1] eqn:Hsel;
    [|discriminate].
  apply select_service_run in Hsel as [-> Hurl]. cbn [trace] in Hurl.
  destruct (build W service_url event force_uid _)
    as [[r|e2] s2] eqn:Hbuild; [|discriminate].
  rewrite finish_run.
  destruct (cleanup_result W event (trace s2)) as [[]|e3]; [|discriminate].
  intros H. inversion H; subst s'; clear H.
  apply build_ok in Hbuild
    as (mid & r0 & mp0 & rs & w & Ht & Hp & Hc & Hl & Hf & Hex & Hd & Hi).
  exists service_url, mid, r0, mp0, rs, w, r.
  cbn [trace db ingest_status with_trace] in *.
  rewrite Ht, Hd. repeat split; try assumption.
  rewrite <- !app_assoc. reflexivity.
Qed.

End Runs.

(** ** The database *)

Lemma str_eqb_eq (a b : str) : Py.str_eqb a b = true <-> a = b.
Proof.
  unfold Py.str_eqb. destruct (list_eq_dec N.eq_dec a b); split;
    congruence.
Qed.

Lemma uploading_db_status (event : RecordedEvent) (st : Status)
  (events : list RecordedEvent) :
  Forall (fun e => uid e = uid event -> status e = st)
         (uploading_db event st events).
Proof.
  unfold uploading_db. apply Forall_forall. intros e He.
  apply in_map_iff in He as (e0 & <- & _).
  destruct (Py.str_eqb (uid e0) (uid event)) eqn:Heq; simpl.
  - reflexivity.
  - intros H. apply str_eqb_eq in H. congruence.
Qed.

(** ** C2: [safe_start_ingest] *)

(** C2: [safe_start_ingest] returns normally whatever happens during the
    upload. When [ingest] raised, whatever the exception and wherever it
    was raised, the state signal [upload_error] is sent, the event is
    stored as [FAILED_UPLOADING] and the ingest service is set to [IDLE]
    at once, in this order, after everything [ingest] had done. *)
Theorem safe_start_ingest_absorbs_failures (W : World)
  (event : RecordedEvent) (s : State) :
  exists s',
    safe_start_ingest W event s = (Ok tt, s')
    /\ forall e s1,
        ingest W event false s = (Err e, s1) ->
        trace s' = trace s1 ++ failure_events event
        /\ In (RecordingState (uid event) (py "upload_error")) (trace s')
        /\ db s' = uploading_db event FAILED_UPLOADING (db s1)
        /\ Forall (fun ev => uid ev = uid event ->
                             status ev = FAILED_UPLOADING) (db s')
        /\ ingest_status s' = IDLE.
Proof.
  unfold safe_start_ingest, try_except.
  destruct (ingest W event false s) as [[[]|e] s1] eqn:Hrun.
  - exists s1. split; [reflexivity|]. discriminate.
  - eexists. split; [reflexivity|].
    intros e' s1' H. inversion H; subst e' s1'; clear H.
    unfold bind, recording_state, update_event_status,
      set_service_status_immediate, emit. cbn.
    rewrite <- !app_assoc. repeat split.
    + apply in_or_app. right. now left.
    + apply uploading_db_status.
Qed.

Lemma safe_start_ingest_absorbs_failures_witness :
  exists s',
    safe_start_ingest Run.failing Run.lecture (Run.start [Run.lecture])
    = (Ok tt, s')
    /\ db s' = [set_status Run.lecture FAILED_UPLOADING]
    /\ ingest_status s' = IDLE.
Proof.
  destruct (safe_start_ingest_absorbs_failures
              Run.failing Run.lecture (Run.start [Run.lecture]))
    as (s' & Hrun & Hfail).
  exists s'. split; [exact Hrun|].
  destruct (Hfail (Raised "pycurl.error")
              (snd (ingest Run.failing Run.lecture false
                           (Run.start [Run.lecture]))))
    as (_ & _ & Hdb & _ & Hst).
  { vm_compute. reflexivity. }
  split; [|exact Hst]. rewrite Hdb. vm_compute. reflexivity.
Defined.

(** ** C7: no known ingest service *)

(** C7 as the claim states it fails: with an empty list of services the
    selection raises the [ValueError] of [random.randrange(0, 0)]; no
    exception named [NoServiceAvailable] exists in the service. *)
Lemma select_service_empty_is_value_error :
  fst (select_service Run.no_service (Run.start [])) = Err ValueError
  /\ fst (select_service Run.no_service (Run.start []))
     <> Err (Raised "NoServiceAvailable").
Proof.
  split; [vm_compute; reflexivity|]. vm_compute. discriminate.
Qed.

(** C7, amended: when the list of known ingest services is empty, the
    selection of a service fails: [random.randrange(0, 0)] raises
    [ValueError]. [ingest] stops there, after it has announced the upload
    and before any remote call. *)
Theorem ingest_without_service (W : World) (event : RecordedEvent)
  (force_uid : bool) (s : State) :
  service W (trace s ++ begin_events event) (py "ingest") true = Ok [] ->
  fst (select_service W (snd (mark_uploading event s))) = Err ValueError
  /\ ingest W event force_uid s
     = (Err ValueError,
        {| trace := trace s ++ begin_events event
                    ++ [ServiceLookup (py "ingest") true];
           db := uploading_db event UPLOADING (db s);
           ingest_status := BUSY |})
  /\ http_calls (begin_events event ++ [ServiceLookup (py "ingest") true])
     = [].
Proof.
  intros Hnone. unfold ingest, bind. rewrite mark_uploading_run.
  cbn [snd]. rewrite select_service_empty by exact Hnone.
  unfold with_trace. cbn [fst trace db ingest_status].
  rewrite <- app_assoc. repeat split.
Qed.

Lemma ingest_without_service_witness :
  ingest Run.no_service Run.lecture false (Run.start [Run.lecture])
  = (Err ValueError,
     {| trace := begin_events Run.lecture
                 ++ [ServiceLookup (py "ingest") true];
        db := [set_status Run.lecture UPLOADING];
        ingest_status := BUSY |}).
Proof.
  destruct (ingest_without_service Run.no_service Run.lecture false
              (Run.start [Run.lecture]) eq_refl) as (_ & Hrun & _).
  rewrite Hrun. vm_compute. reflexivity.
Defined.

(** ** C1: an event without the agent properties *)

(** Without the properties attachment [ingest] never returns normally,
    whatever the collaborators do: [workflow_def] has no value when the
    last call is prepared. *)
Lemma ingest_needs_properties (W : World) (event : RecordedEvent)
  (force_uid : bool) (s : State) :
  existsb is_properties (attach event) = false ->
  exists e, fst (ingest W event force_uid s) = Err e.
Proof.
  intros Hnone.
  destruct (ingest W event force_uid s) as [[[]|e] s'] eqn:Hrun.
  - apply ingest_ok in Hrun
      as (? & ? & ? & ? & ? & ? & ? & _ & _ & _ & _ & _ & _ & Hex & _).
    congruence.
  - now exists e.
Qed.

(** C1, the code at the failing input: the event has a catalog and a
    track and no properties attachment, every collaborator answers. The
    mediapackage is created, the catalog and the track are added, and
    then [UnboundLocalError] is raised: the call of [/ingest] is not made
    and [safe_start_ingest] stores the event as [FAILED_UPLOADING]. *)
Theorem ingest_without_properties_raises :
  fst (ingest (Run.calm 1) Run.bare false (Run.start [Run.bare]))
  = Err UnboundLocalError
  /\ map (fun c => url (fst c))
         (http_calls
            (trace (snd (ingest (Run.calm 1) Run.bare false
                                (Run.start [Run.bare])))))
     = [Run.base ++ py "/createMediaPackage";
        Run.base ++ py "/addDCCatalog";
        Run.base ++ py "/addTrack"]
  /\ db (snd (safe_start_ingest (Run.calm 1) Run.bare
                                (Run.start [Run.bare])))
     = [set_status Run.bare FAILED_UPLOADING].
Proof.
  repeat split; vm_compute; reflexivity.
Qed.

(** ** C6: the recording directory *)

Lemma remote_not_rmtree (l : Trace) (d : str) :
  Forall is_remote l -> ~ In (Rmtree d) l.
Proof.
  intros Hall Hin. rewrite Forall_forall in Hall. exact (Hall _ Hin).
Qed.

Lemma begin_not_rmtree (event : RecordedEvent) (d : str) :
  ~ In (Rmtree d) (begin_events event
                   ++ [ServiceLookup (py "ingest") true]).
Proof.
  simpl. intros H. repeat destruct H as [H|H]; try discriminate; exact H.
Qed.

Lemma rmtree_in_finish (W : World) (event : RecordedEvent) (d : str) :
  In (Rmtree d) (finish_events W event) ->
  delete_after_upload W = true /\ d = directory event.
Proof.
  unfold finish_events. destruct (delete_after_upload W); simpl; intros H;
    repeat destruct H as [H|H]; try discriminate; try contradiction.
  inversion H. now split.
Qed.

Lemma finish_no_calls (W : World) (event : RecordedEvent) :
  http_calls (finish_events W event) = [].
Proof.
  unfold finish_events. now destruct (delete_after_upload W).
Qed.

(** C6, the claim at a directory that cannot be removed: every call of
    the upload succeeds, [shutil.rmtree] is called and raises, and
    [safe_start_ingest] takes the failure path: the removal has been
    started, and the event is stored as [FAILED_UPLOADING]. *)
Lemma rmtree_on_the_failure_path :
  fst (ingest Run.locked Run.lecture false (Run.start [Run.lecture]))
  = Err (Raised "PermissionError")
  /\ (exists before,
        trace (snd (safe_start_ingest Run.locked Run.lecture
                                      (Run.start [Run.lecture])))
        = before ++ Rmtree (py "/rec") :: failure_events Run.lecture)
  /\ db (snd (safe_start_ingest Run.locked Run.lecture
                                (Run.start [Run.lecture])))
     = [set_status Run.lecture FAILED_UPLOADING].
Proof.
  split; [vm_compute; reflexivity|]. split; [|vm_compute; reflexivity].
  exists (removelast
            (trace (snd (ingest Run.locked Run.lecture false
                                (Run.start [Run.lecture]))))).
  vm_compute. reflexivity.
Qed.

(** C6, amended: the directory of the event is removed only when
    [delete_after_upload] is set and only after the call of [/ingest] has
    returned: nothing is removed before that call, no remote call of the
    run has failed, and the removal follows the call of [/ingest] with
    no other remote call in between. A run of [ingest] that raises has
    removed nothing, unless it is the removal itself that has raised, as
    the last thing the run has done; the same holds of
    [safe_start_ingest] when it takes the failure path, which it then
    takes after the removal has been started. *)
Theorem rmtree_only_after_submit (W : World) (event : RecordedEvent)
  (force_uid : bool) (s : State) :
  exists new,
    trace (snd (ingest W event force_uid s)) = trace s ++ new
    /\ (forall d,
          In (Rmtree d) new ->
          delete_after_upload W = true
          /\ d = directory event
          /\ clean new
          /\ exists pre service_url w mp rf post,
              new = pre
                    ++ Http (ingest_request service_url event w mp) (Ok rf)
                    :: post
              /\ (forall d', ~ In (Rmtree d') pre)
              /\ In (Rmtree d) post
              /\ http_calls post = [])
    /\ (forall e,
          fst (ingest W event force_uid s) = Err e ->
          (forall d, ~ In (Rmtree d) new)
          \/ exists pre,
              new = pre ++ cleanup_events event
              /\ cleanup_result W event (trace s ++ pre) = Err e)
    /\ (forall e,
          fst (ingest W event false s) = Err e ->
          exists new',
            trace (snd (safe_start_ingest W event s)) = trace s ++ new'
            /\ ((forall d, ~ In (Rmtree d) new')
                \/ exists pre,
                    new' = pre ++ cleanup_events event
                               ++ failure_events event
                    /\ cleanup_result W event (trace s ++ pre) = Err e)).
Proof.
  assert (Hfail : forall d, ~ In (Rmtree d) (failure_events event)).
  { intros d Hin. cbn in Hin. repeat destruct Hin as [Hin|Hin];
      try discriminate; exact Hin. }
  assert (Hclean : forall d,
             In (Rmtree d) (cleanup_events event) -> d = directory event).
  { intros d Hin. cbn in Hin. repeat destruct Hin as [Hin|Hin];
      try discriminate; try contradiction. now inversion Hin. }
  assert (Herr : forall f e s',
             ingest W event f s = (Err e, s') ->
             exists new,
               trace s' = trace s ++ new
               /\ ((forall d, ~ In (Rmtree d) new)
                   \/ exists mid before service_url w current answer,
                       new = (begin_events event
                              ++ ServiceLookup (py "ingest") true :: mid)
                             ++ cleanup_events event
                       /\ Forall is_remote before
                       /\ clean mid
                       /\ mid = before
                                ++ [Http (ingest_request service_url event
                                                         w current)
                                         (Ok answer)]
                       /\ delete_after_upload W = true
                       /\ cleanup_result W event
                            (trace s
                             ++ begin_events event
                             ++ ServiceLookup (py "ingest") true :: mid)
                          = Err e)).
  { intros f e s' Hrun.
    apply ingest_err in Hrun
      as (_ & mid & Hmid
          & [[Ht _]|(Ht & _ & Hdel & Hc
                     & (before & u & w & cur & ans & Hm & Hb) & Hres)]).
    - eexists. split; [exact Ht|]. left. intros d.
      now apply clean_no_rmtree_before.
    - exists ((begin_events event
               ++ ServiceLookup (py "ingest") true :: mid)
              ++ cleanup_events event).
      split; [rewrite Ht, <- app_assoc; reflexivity|]. right.
      exists mid, before, u, w, cur, ans. repeat split; assumption. }
  assert (Hsafe : forall e,
             fst (ingest W event false s) = Err e ->
             exists new',
               trace (snd (safe_start_ingest W event s)) = trace s ++ new'
               /\ ((forall d, ~ In (Rmtree d) new')
                   \/ exists pre,
                       new' = pre ++ cleanup_events event
                                  ++ failure_events event
                       /\ cleanup_result W event (trace s ++ pre) = Err e)).
  { intros e He. unfold safe_start_ingest, try_except.
    destruct (ingest W event false s) as [[[]|e'] s1] eqn:Hrun;
      [discriminate|].
    cbn [fst] in He. inversion He; subst e'; clear He.
    destruct (Herr _ _ _ Hrun) as (new & Ht & Hcases).
    exists (new ++ failure_events event). split.
    - unfold bind, recording_state, update_event_status,
        set_service_status_immediate, emit. cbn.
      rewrite Ht, <- !app_assoc. reflexivity.
    - destruct Hcases
        as [Hno|(mid & before & u & w & cur & ans & -> & _ & _ & _ & _
                 & Hres)].
      + left. intros d Hin. apply in_app_or in Hin as [Hin|Hin].
        * exact (Hno _ Hin).
        * exact (Hfail _ Hin).
      + right. eexists. split; [now rewrite <- app_assoc|exact Hres]. }
  destruct (ingest W event force_uid s) as [[[]|e] s'] eqn:Hrun.
  - apply ingest_ok in Hrun
      as (u & mid & r0 & mp0 & rs & w & rf & _ & Ht & Hmid & Hc & _).
    eexists. split; [exact Ht|]. cbn [fst].
    split; [|split; [discriminate|exact Hsafe]].
    intros d Hin.
    assert (Hfin : In (Rmtree d) (finish_events W event)).
    { change (ServiceLookup (py "ingest") true :: mid ++ ?x)
        with ((ServiceLookup (py "ingest") true :: mid) ++ x) in Hin.
      rewrite app_assoc in Hin. apply in_app_or in Hin as [Hin|Hin].
      - exfalso. exact (clean_no_rmtree_before _ _ _ Hmid Hin).
      - destruct Hin as [Hin|Hin]; [discriminate|exact Hin]. }
    destruct (rmtree_in_finish _ _ _ Hfin) as [Hdel ->].
    split; [exact Hdel|]. split; [reflexivity|]. split.
    { apply clean_app; [apply clean_begin|].
      constructor; [intros []|]. apply clean_app.
      - apply clean_of_calls. rewrite Hc.
        constructor; [now exists r0|apply thread_answers].
      - constructor; [intros []|apply clean_finish]. }
    exists (begin_events event ++ ServiceLookup (py "ingest") true :: mid),
      u, w, (last rs mp0), rf, (finish_events W event).
    split; [now rewrite <- app_assoc|].
    split; [intros d'; now apply clean_no_rmtree_before|].
    split; [exact Hfin|apply finish_no_calls].
  - destruct (Herr _ _ _ Hrun) as (new & Ht & Hcases).
    exists new. split; [exact Ht|]. cbn [fst].
    split; [|split; [|exact Hsafe]].
    + intros d Hin.
      destruct Hcases
        as [Hno|(mid & before & u & w & cur & ans & -> & Hb & Hc & -> & Hdel
                 & _)]; [exfalso; exact (Hno _ Hin)|].
      apply in_app_or in Hin as [Hin|Hin].
      { exfalso. revert Hin. apply clean_no_rmtree_before.
        apply Forall_app. split; [exact Hb|now repeat constructor]. }
      split; [exact Hdel|]. split; [now apply Hclean|]. split.
      { apply clean_app; [|apply clean_cleanup].
        apply clean_app; [apply clean_begin|].
        constructor; [intros []|exact Hc]. }
      exists (begin_events event
              ++ ServiceLookup (py "ingest") true :: before),
        u, w, cur, ans, (cleanup_events event).
      split; [repeat (rewrite <- app_assoc; cbn [app]); reflexivity|].
      split; [intros d'; now apply clean_no_rmtree_before|].
      split; [exact Hin|reflexivity].
    + intros e' He. inversion He; subst e'; clear He.
      destruct Hcases
        as [Hno|(mid & before & u & w & cur & ans & -> & _ & _ & _ & _
                 & Hres)]; [now left|].
      right. eexists. split; [reflexivity|exact Hres].
Qed.

Lemma rmtree_only_after_submit_witness :
  exists new,
    trace (snd (ingest (Run.calm 1) Run.lecture false
                       (Run.start [Run.lecture]))) = new
    /\ In (Rmtree (py "/rec")) new
    /\ delete_after_upload (Run.calm 1) = true
    /\ clean new.
Proof.
  destruct (rmtree_only_after_submit (Run.calm 1) Run.lecture false
              (Run.start [Run.lecture])) as (new & Ht & Honly & _).
  exists new. cbn [Run.start trace app] in Ht. split; [exact Ht|].
  assert (Hin : In (Rmtree (py "/rec")) new).
  { rewrite <- Ht. vm_compute. do 13 right. left. reflexivity. }
  destruct (Honly _ Hin) as (Hdel & _ & Hok & _).
  repeat split; assumption.
Defined.

(** ** C8: the control loop *)

Section Loop.

Variable W : World.

(** What [time.sleep] does with a delay. *)
Lemma sleep_run (seconds : Z) (s : State) :
  match sleep W seconds s with
  | (Ok _, s') =>
      s' = with_trace s (Sleep seconds)
      /\ (0 <= seconds <= sleep_max)%Z
      /\ time_sleep W (trace s) seconds = Ok tt
  | (Err e, s') =>
      s' = s
      /\ ((e = OverflowError
           /\ (seconds < - sleep_max \/ sleep_max < seconds)%Z)
          \/ (e = ValueError /\ (- sleep_max <= seconds < 0)%Z)
          \/ ((0 <= seconds <= sleep_max)%Z
              /\ time_sleep W (trace s) seconds = Err e))
  end.
Proof.
  pose proof (eq_refl : sleep_max = 9223372036%Z) as Hmax.
  unfold sleep.
  destruct (Z.ltb_spec seconds (- sleep_max)) as [Hlow|Hlow];
    [cbn; split; [reflexivity|left; split; [reflexivity|lia]]|].
  destruct (Z.ltb_spec sleep_max seconds) as [Hhigh|Hhigh];
    [cbn; split; [reflexivity|left; split; [reflexivity|lia]]|].
  cbn [orb].
  destruct (Z.ltb_spec seconds 0) as [Hneg|Hpos];
    [cbn; split; [reflexivity|right; left; split; [reflexivity|lia]]|].
  destruct (time_sleep W (trace s) seconds) as [[]|e] eqn:Hsleep.
  - cbn. split; [reflexivity|]. split; [lia|reflexivity].
  - split; [reflexivity|]. right. right. split; [lia|reflexivity].
Qed.

Lemma sleep_one (s : State) :
  sleep W 1 s
  = match time_sleep W (trace s) 1 with
    | Ok _ => (Ok tt, with_trace s (Sleep 1))
    | Err e => (Err e, s)
    end.
Proof.
  unfold sleep. cbn [Z.ltb Z.compare orb sleep_max Z.opp Pos.compare
                     Pos.compare_cont].
  now destruct (time_sleep W (trace s) 1).
Qed.

Lemma manual_pass (s : State) :
  loop_body W false s
  = match time_sleep W (trace s ++ [Notify (py "WATCHDOG=1")]) 1 with
    | Ok _ =>
        (Ok tt, {| trace := trace s ++ heartbeat; db := db s;
                   ingest_status := ingest_status s |})
    | Err e =>
        (Err e, {| trace := trace s ++ [Notify (py "WATCHDOG=1")];
                   db := db s; ingest_status := ingest_status s |})
    end.
Proof.
  unfold loop_body, bind at 1, notify, emit.
  unfold bind, ret. rewrite sleep_one. cbn [trace db ingest_status].
  destruct (time_sleep W _ 1); [|reflexivity].
  unfold with_trace, heartbeat. cbn [trace db ingest_status].
  now rewrite <- app_assoc.
Qed.

(** The loop without automatic ingest: as long as [terminate()] is
    false, passes of [heartbeat] only. *)
Lemma manual_loop (fuel : nat) :
  forall s, exists n,
    (n <= fuel)%nat
    /\ (forall k, (k < n)%nat ->
          terminate W (trace s ++ List.concat (repeat heartbeat k)) = false
          /\ time_sleep W
               (trace s ++ List.concat (repeat heartbeat k)
                ++ [Notify (py "WATCHDOG=1")]) 1 = Ok tt)
    /\ ((terminate W (trace s ++ List.concat (repeat heartbeat n)) = true
         /\ (n < fuel)%nat
         /\ while_not_terminate W fuel (loop_body W false) s
            = (Ok true,
               {| trace := trace s ++ List.concat (repeat heartbeat n);
                  db := db s; ingest_status := ingest_status s |}))
        \/ (n = fuel
            /\ while_not_terminate W fuel (loop_body W false) s
               = (Ok false,
                  {| trace := trace s ++ List.concat (repeat heartbeat n);
                     db := db s; ingest_status := ingest_status s |}))
        \/ (exists e,
              terminate W (trace s ++ List.concat (repeat heartbeat n))
              = false
              /\ (n < fuel)%nat
              /\ time_sleep W
                   (trace s ++ List.concat (repeat heartbeat n)
                    ++ [Notify (py "WATCHDOG=1")]) 1 = Err e
              /\ while_not_terminate W fuel (loop_body W false) s
                 = (Err e,
                    {| trace := trace s
                                ++ List.concat (repeat heartbeat n)
                                ++ [Notify (py "WATCHDOG=1")];
                       db := db s;
                       ingest_status := ingest_status s |}))).
Proof.
  induction fuel as [|fuel IH]; intros s.
  - exists 0%nat. split; [lia|]. split; [intros k Hk; lia|].
    right. left. split; [reflexivity|].
    cbn. rewrite app_nil_r. now destruct s.
  - cbn [while_not_terminate].
    destruct (terminate W (trace s)) eqn:Hterm.
    + exists 0%nat. split; [lia|]. split; [intros k Hk; lia|].
      left. cbn [repeat List.concat]. rewrite app_nil_r.
      split; [exact Hterm|]. split; [lia|]. now destruct s.
    + unfold bind. rewrite manual_pass.
      destruct (time_sleep W (trace s ++ [Notify (py "WATCHDOG=1")]) 1)
        as [[]|e] eqn:Hsleep.
      * match goal with
        | |- context [while_not_terminate W fuel _ ?s1] =>
            destruct (IH s1) as (n & Hle & Hbefore & Hcases)
        end.
        cbn [trace db ingest_status] in *.
        exists (S n). split; [lia|].
        cbn [repeat List.concat]. split.
        { intros [|k] Hk.
          - cbn [repeat List.concat app]. rewrite app_nil_r.
            now split.
          - cbn [repeat List.concat].
            destruct (Hbefore k) as [H1 H2]; [lia|].
            rewrite <- !app_assoc in H1, H2. now split. }
        rewrite <- !app_assoc in Hcases.
        destruct Hcases as [(H1 & H2 & ->)|[(-> & ->)|(e & H1 & H2 & H3 & ->)]].
        -- left. repeat split; [exact H1|lia].
        -- right. left. now split.
        -- right. right. exists e. repeat split; [exact H1|lia|exact H3].
      * exists 0%nat. split; [lia|]. split; [intros k Hk; lia|].
        right. right. exists e. cbn [repeat List.concat app].
        rewrite !app_nil_r. repeat split; [exact Hterm|lia|exact Hsleep].
Qed.

Lemma safe_start_ingest_grows (event : RecordedEvent) (s : State) :
  exists new s',
    safe_start_ingest W event s = (Ok tt, s')
    /\ trace s' = trace s ++ new.
Proof.
  unfold safe_start_ingest, try_except.
  destruct (ingest W event false s) as [[[]|e] s1] eqn:Hrun.
  - apply ingest_ok in Hrun
      as (? & ? & ? & ? & ? & ? & ? & _ & Ht & _).
    eexists _, s1. split; [reflexivity|exact Ht].
  - apply ingest_err in Hrun as (_ & mid & _ & [[Ht _]|[Ht _]]);
      eexists _, _; (split; [reflexivity|]);
      unfold bind, recording_state, update_event_status,
        set_service_status_immediate, emit; cbn;
      rewrite Ht, <- !app_assoc; reflexivity.
Qed.

(** A pass of the loop with automatic ingest opens a session and asks
    the database for a finished recording. *)
Lemma auto_pass_queries (s : State) :
  exists rest,
    trace (snd (loop_body W true s))
    = trace s
      ++ Notify (py "WATCHDOG=1") :: GetSession
         :: Query (option_map uid
                     (find (fun e => Status_eqb (status e)
                                                FINISHED_RECORDING)
                           (db s)))
         :: rest.
Proof.
  unfold loop_body, bind at 1 2 3 4, notify, emit, query_first.
  cbn [with_trace trace db ingest_status].
  destruct (find _ (db s)) as [event|].
  - unfold bind at 1 2 3, config, ret, emit, bind at 1 2.
    cbn [with_trace trace db ingest_status].
    unfold bind at 1.
    match goal with
    | |- context [randint W ?a ?b ?s0] =>
        destruct (randint W a b s0) as [[delay|e] s1] eqn:Hrand
    end.
    + assert (Hs1 : trace s1 = trace s ++ Notify (py "WATCHDOG=1")
                               :: GetSession
                               :: Query (Some (uid event))
                               :: [Config (py "ingest") (py "delay_min");
                                   Config (py "ingest") (py "delay_max")]).
      { unfold randint, randrange in Hrand.
        destruct (_ <? _)%Z in Hrand; inversion Hrand; subst;
          cbn [trace]; rewrite <- !app_assoc; reflexivity. }
      unfold bind at 1.
      pose proof (sleep_run delay s1) as Hsleep.
      destruct (sleep W delay s1) as [[[]|e] s2].
      * destruct Hsleep as (-> & _).
        match goal with
        | |- context [safe_start_ingest W event ?s2] =>
            destruct (safe_start_ingest_grows event s2)
              as (new & s3 & Hsafe & Ht)
        end.
        unfold bind. rewrite Hsafe.
        rewrite sleep_one. cbn [trace db ingest_status option_map].
        match goal with
        | |- context [time_sleep W ?t 1] => destruct (time_sleep W t 1)
        end; eexists; cbn [snd trace with_trace]; rewrite Ht;
          cbn [trace with_trace]; rewrite Hs1;
          rewrite <- !app_assoc; cbn [app]; reflexivity.
      * destruct Hsleep as (-> & _).
        eexists. cbn [snd]. rewrite Hs1. reflexivity.
    + assert (Hs1 : trace s1 = trace s ++ Notify (py "WATCHDOG=1")
                               :: GetSession
                               :: Query (Some (uid event))
                               :: [Config (py "ingest") (py "delay_min");
                                   Config (py "ingest") (py "delay_max")]).
      { unfold randint, randrange in Hrand.
        destruct (_ <? _)%Z in Hrand; inversion Hrand; subst;
          cbn [trace]; rewrite <- !app_assoc; reflexivity. }
      eexists. cbn [snd]. rewrite Hs1. reflexivity.
  - unfold bind, ret, emit. cbn [option_map trace db ingest_status].
    rewrite sleep_one.
    match goal with
    | |- context [time_sleep W ?t 1] => destruct (time_sleep W t 1)
    end; eexists; cbn [snd trace with_trace];
      rewrite <- !app_assoc; reflexivity.
Qed.

End Loop.

Lemma control_loop_startup (W : World) (fuel : nat) (s : State) :
  control_loop W fuel s
  = (exited <- while_not_terminate W fuel
                 (loop_body W (delay_max W >=? delay_min W)%Z) ;;
     if exited : bool then set_service_status INGEST STOPPED ;; ret true
     else ret false)
      {| trace := trace s ++ startup_events; db := db s;
         ingest_status := IDLE |}.
Proof.
  unfold control_loop, startup_events.
  unfold bind at 1 2 3 4 5.
  unfold set_service_status_immediate, notify, config, ret, bind, emit.
  cbn [trace db ingest_status]. now rewrite <- !app_assoc.
Qed.

(** C8: the flag is computed once, from the two readings of the
    configuration that precede the loop, as [delay_max >= delay_min].
    When it is false, however many finished recordings the database
    holds, the control loop tests [terminate()] and, each time the test
    is false, sends the watchdog signal and sleeps one second, and does
    nothing else: no session is opened, no query made, no upload
    started, and the database is left as it was. It stops when
    [terminate()] is true, and sets the service to [STOPPED], or when the
    platform refuses the pause of one second. When the flag is true, the
    first pass opens a session and asks for a finished recording. *)
Theorem manual_mode_only_beats (W : World) (fuel : nat) (s : State) :
  ((delay_max W <? delay_min W)%Z = true ->
   exists n,
     (n <= fuel)%nat
     /\ (forall k, (k < n)%nat ->
           terminate W (beats_after s k) = false
           /\ time_sleep W (beats_after s k ++ [Notify (py "WATCHDOG=1")])
                         1 = Ok tt)
     /\ ((terminate W (beats_after s n) = true
          /\ (n < fuel)%nat
          /\ control_loop W fuel s
             = (Ok true,
                {| trace := beats_after s n
                            ++ [SetServiceStatus INGEST STOPPED];
                   db := db s;
                   ingest_status := STOPPED |}))
         \/ (n = fuel
             /\ control_loop W fuel s
                = (Ok false,
                   {| trace := beats_after s n; db := db s;
                      ingest_status := IDLE |}))
         \/ (exists e,
               terminate W (beats_after s n) = false
               /\ (n < fuel)%nat
               /\ time_sleep W
                    (beats_after s n ++ [Notify (py "WATCHDOG=1")]) 1
                  = Err e
               /\ control_loop W fuel s
                  = (Err e,
                     {| trace := beats_after s n
                                 ++ [Notify (py "WATCHDOG=1")];
                        db := db s;
                        ingest_status := IDLE |}))))
  /\ ((delay_max W >=? delay_min W)%Z = true ->
      terminate W (trace s ++ startup_events) = false ->
      exists rest,
        trace (snd (control_loop W 1 s))
        = trace s ++ startup_events
          ++ Notify (py "WATCHDOG=1") :: GetSession
             :: Query (option_map uid
                         (find (fun e => Status_eqb (status e)
                                                    FINISHED_RECORDING)
                               (db s)))
             :: rest).
Proof.
  rewrite !control_loop_startup. unfold bind. split.
  - intros Hlt.
    assert (Hflag : (delay_max W >=? delay_min W)%Z = false) by lia.
    rewrite Hflag. unfold beats_after.
    match goal with
    | |- context [while_not_terminate W fuel _ ?s1] =>
        destruct (manual_loop W fuel s1) as (n & Hle & Hbefore & Hcases)
    end.
    cbn [trace db ingest_status] in *.
    exists n. split; [exact Hle|]. split.
    { intros k Hk. destruct (Hbefore k Hk) as [H1 H2].
      rewrite <- !app_assoc in H1, H2. rewrite <- !app_assoc.
      now split. }
    rewrite <- !app_assoc in Hcases. rewrite <- !app_assoc.
    destruct Hcases as [(H1 & H2 & ->)|[(-> & ->)|(e & H1 & H2 & H3 & ->)]].
    + left. split; [exact H1|]. split; [exact H2|].
      unfold set_service_status, ret. cbn [trace db ingest_status].
      now rewrite <- !app_assoc.
    + right. left. split; reflexivity.
    + right. right. exists e. repeat split; assumption.
  - intros Hge Hgo. rewrite Hge.
    cbn [while_not_terminate]. cbn [trace]. rewrite Hgo. unfold bind.
    match goal with
    | |- context [loop_body W true ?s1] =>
        destruct (auto_pass_queries W s1) as (rest & Hq);
        destruct (loop_body W true s1) as [[[]|e] s2]
    end; cbn [snd trace db ret] in *; exists rest; rewrite Hq;
      now rewrite <- !app_assoc.
Qed.

Lemma manual_mode_only_beats_witness :
  control_loop (Run.manual 2) 5 (Run.start [Run.lecture])
  = (Ok true,
     {| trace := beats_after (Run.start [Run.lecture]) 2
                 ++ [SetServiceStatus INGEST STOPPED];
        db := [Run.lecture];
        ingest_status := STOPPED |})
  /\ exists rest,
      trace (snd (control_loop (Run.calm 1) 1 (Run.start [Run.lecture])))
      = startup_events
        ++ Notify (py "WATCHDOG=1") :: GetSession
           :: Query (Some (py "ev1")) :: rest.
Proof.
  split.
  - destruct (proj1 (manual_mode_only_beats (Run.manual 2) 5
                       (Run.start [Run.lecture])) eq_refl)
      as (n & Hle & Hbefore & Hcases).
    assert (Hn : n = 2%nat).
    { destruct n as [|[|[|n]]].
      - destruct Hcases as [(H & _)|[(H & _)|(e & _ & _ & H & _)]];
          vm_compute in H; discriminate.
      - destruct Hcases as [(H & _)|[(H & _)|(e & _ & _ & H & _)]];
          vm_compute in H; discriminate.
      - reflexivity.
      - destruct (Hbefore 2%nat) as [H _]; [lia|].
        vm_compute in H. discriminate. }
    subst n.
    destruct Hcases as [(_ & _ & H)|[(H & _)|(e & _ & _ & H & _)]];
      [exact H|discriminate|vm_compute in H; discriminate].
  - exact (proj2 (manual_mode_only_beats (Run.calm 1) 1
                    (Run.start [Run.lecture])) eq_refl eq_refl).
Defined.

(** With [delay_min = 10] and [delay_max = 5], and a finished recording
    in the database, two passes and the stop signal. *)
Example manual_run :
  control_loop (Run.manual 2) 5 (Run.start [Run.lecture])
  = (Ok true,
     {| trace := startup_events ++ heartbeat ++ heartbeat
                 ++ [SetServiceStatus INGEST STOPPED];
        db := [Run.lecture];
        ingest_status := STOPPED |}).
Proof. vm_compute. reflexivity. Qed.

(** ** Sequences of calls *)

Lemma thread_one (mk : bytes -> Request) (cur r : bytes) :
  thread [mk] cur [r] = [(mk cur, Ok r)].
Proof. reflexivity. Qed.

Lemma thread_Forall2 {X} (mk : X -> bytes -> Request) (xs : list X) :
  forall cur rs,
    List.length rs = List.length xs ->
    Forall2 (fun x c => exists current, fst c = mk x current)
            xs (thread (map mk xs) cur rs).
Proof.
  induction xs as [|x xs IH]; intros cur [|r rs] Hlen; try discriminate.
  - constructor.
  - cbn [map thread]. constructor.
    + now exists cur.
    + apply IH. simpl in Hlen. congruence.
Qed.

Lemma thread_head (qs : list (bytes -> Request)) (cur : bytes)
  (rs : list bytes) :
  Forall carries qs ->
  match thread qs cur rs with
  | c :: _ => media_package_of (fst c) = Some (VBytes cur)
  | [] => True
  end.
Proof.
  intros Hall. destruct qs as [|mk qs]; [exact I|].
  destruct rs as [|r rs]; [exact I|]. cbn [thread fst].
  inversion Hall; subst. auto.
Qed.

Lemma thread_threaded (qs : list (bytes -> Request)) :
  Forall carries qs ->
  forall cur rs, threaded (thread qs cur rs).
Proof.
  induction qs as [|mk qs IH]; intros Hall cur rs; [exact I|].
  destruct rs as [|r rs]; [exact I|]. cbn [thread].
  inversion Hall as [|? ? Hmk Hqs]; subst.
  pose proof (thread_head qs r rs Hqs) as Hhead.
  pose proof (IH Hqs r rs) as Hrest.
  destruct (thread qs r rs) as [|c2 rest] eqn:Hth; [exact I|].
  cbn [threaded]. split; [|exact Hrest].
  exists r. split; [reflexivity|exact Hhead].
Qed.

Lemma carries_catalog (service_url : str) (a : Attachment) :
  carries (catalog_request service_url a).
Proof. intros cur. reflexivity. Qed.

Lemma carries_track (service_url : str) (ft : str * str) :
  carries (track_request service_url ft).
Proof. intros cur. reflexivity. Qed.

Lemma carries_ingest (service_url : str) (event : RecordedEvent)
  (w : params) :
  carries (ingest_request service_url event w).
Proof.
  intros cur. unfold media_package_of, ingest_request, ingest_fields.
  destruct w as [wdef wconf]. cbn [post_data].
  destruct (Py.truthy wdef), (Py.truthy (uid event)); reflexivity.
Qed.

Lemma carries_all (service_url : str) (event : RecordedEvent)
  (w : params) (catalogs : list Attachment) :
  Forall carries
         (map (catalog_request service_url) catalogs
          ++ map (track_request service_url) (tracks event)
          ++ [ingest_request service_url event w]).
Proof.
  apply Forall_app. split; [|apply Forall_app; split].
  - apply Forall_forall. intros q Hq.
    apply in_map_iff in Hq as (a & <- & _). apply carries_catalog.
  - apply Forall_forall. intros q Hq.
    apply in_map_iff in Hq as (a & <- & _). apply carries_track.
  - constructor; [apply carries_ingest|constructor].
Qed.

Lemma begin_no_calls (event : RecordedEvent) :
  http_calls (begin_events event) = [].
Proof. reflexivity. Qed.

(** The remote calls of a run that returns. *)
Lemma ingest_ok_calls (W : World) (event : RecordedEvent)
  (force_uid : bool) (s s' : State) :
  ingest W event force_uid s = (Ok tt, s') ->
  exists new service_url r0 mp0 ra rt w rf,
    trace s' = trace s ++ new
    /\ http_calls new
       = (create_request service_url, Ok r0)
         :: thread (map (catalog_request service_url)
                        (filter (is_catalog W) (attach event))) mp0 ra
         ++ thread (map (track_request service_url) (tracks event))
                   (last ra mp0) rt
         ++ [(ingest_request service_url event w (last rt (last ra mp0)),
              Ok rf)]
    /\ List.length ra
       = List.length (filter (is_catalog W) (attach event))
    /\ List.length rt = List.length (tracks event)
    /\ (if force_uid then force_identity W event r0 = Ok mp0
        else mp0 = r0).
Proof.
  intros Hrun.
  apply ingest_ok in Hrun
    as (u & mid & r0 & mp0 & rs & w & rf & _ & Ht & _ & Hc & Hl & Hf & _).
  set (m := List.length (filter (is_catalog W) (attach event))) in *.
  exists (begin_events event ++ ServiceLookup (py "ingest") true :: mid
          ++ Http (ingest_request u event w (last rs mp0)) (Ok rf)
             :: finish_events W event),
    u, r0, mp0, (firstn m rs), (skipn m rs), w, rf.
  assert (Hra : List.length (firstn m rs) = m)
    by (rewrite length_firstn; lia).
  split; [exact Ht|]. split; [|split; [exact Hra|split; [|exact Hf]]].
  - rewrite http_calls_app, begin_no_calls. cbn [app http_calls].
    rewrite http_calls_app. cbn [http_calls].
    rewrite finish_no_calls, Hc.
    rewrite <- (firstn_skipn m rs) at 1 2.
    rewrite thread_app by (now rewrite length_map).
    rewrite last_append. cbn [app]. now rewrite <- app_assoc.
  - rewrite length_skipn. lia.
Qed.

Lemma thread_urls {X} (mk : X -> bytes -> Request) (u : str)
  (xs : list X) :
  (forall x cur, url (mk x cur) = u) ->
  forall cur rs,
    List.length rs = List.length xs ->
    map (fun c => url (fst c)) (thread (map mk xs) cur rs)
    = repeat u (List.length xs).
Proof.
  intros Hu. induction xs as [|x xs IH]; intros cur [|r rs] Hlen;
    try discriminate; [reflexivity|].
  cbn [map thread List.length repeat fst]. rewrite Hu. f_equal.
  apply IH. simpl in Hlen. congruence.
Qed.

(** ** C4: the order of the calls *)

(** C4 as the claim states it fails: in this run with [force_uid] the
    call that follows [createMediaPackage] does not send the answer to
    that call but the document rewritten from it. *)
Lemma forced_run_is_not_threaded :
  fst (ingest Run.documents Run.lecture true (Run.start [Run.lecture]))
  = Ok tt
  /\ ~ threaded
         (http_calls
            (trace (snd (ingest Run.documents Run.lecture true
                                (Run.start [Run.lecture]))))).
Proof.
  split; [vm_compute; reflexivity|].
  vm_compute. intros [(r & Hr & Hsent) _].
  injection Hr as <-. discriminate Hsent.
Qed.

(** C4, amended: a run of [ingest] that returns, for an event with [M]
    qualifying catalogs and [T] tracks, makes exactly one call of
    [createMediaPackage], then [M] calls of [addDCCatalog] for the
    catalogs in the order of the attachments, then [T] calls of
    [addTrack] in the order of the tracks, then one call of [ingest].
    Each call after [createMediaPackage] sends in [mediaPackage] the
    answer to the call before it, except that with [force_uid] the call
    that follows [createMediaPackage] sends the document rewritten from
    its answer. *)
Theorem ingest_call_sequence (W : World) (event : RecordedEvent)
  (force_uid : bool) (s s' : State) :
  ingest W event force_uid s = (Ok tt, s') ->
  let catalogs := filter (is_catalog W) (attach event) in
  exists new service_url r0 mp0 catalog_calls track_calls submit_call,
    trace s' = trace s ++ new
    /\ http_calls new
       = (create_request service_url, Ok r0)
         :: catalog_calls ++ track_calls ++ [submit_call]
    /\ map (fun c => url (fst c)) (http_calls new)
       = [service_url ++ py "/createMediaPackage"]
         ++ repeat (service_url ++ py "/addDCCatalog")
                   (List.length catalogs)
         ++ repeat (service_url ++ py "/addTrack")
                   (List.length (tracks event))
         ++ [service_url ++ py "/ingest"]
    /\ Forall2 (fun a c => exists current,
                    fst c = catalog_request service_url a current)
               catalogs catalog_calls
    /\ Forall2 (fun ft c => exists current,
                    fst c = track_request service_url ft current)
               (tracks event) track_calls
    /\ (if force_uid then force_identity W event r0 = Ok mp0
        else mp0 = r0)
    /\ threaded ((create_request service_url, Ok mp0)
                 :: catalog_calls ++ track_calls ++ [submit_call]).
Proof.
  intros Hrun catalogs.
  apply ingest_ok_calls in Hrun
    as (new & u & r0 & mp0 & ra & rt & w & rf & Ht & Hc & Hla & Hlt & Hf).
  fold catalogs in Hc, Hla.
  exists new, u, r0, mp0,
    (thread (map (catalog_request u) catalogs) mp0 ra),
    (thread (map (track_request u) (tracks event)) (last ra mp0) rt),
    (ingest_request u event w (last rt (last ra mp0)), Ok rf).
  split; [exact Ht|]. split; [exact Hc|]. split; [|split; [|split]].
  - rewrite Hc. cbn [map app fst]. rewrite !map_app.
    rewrite (thread_urls (catalog_request u) (u ++ py "/addDCCatalog"))
      by (reflexivity || assumption).
    rewrite (thread_urls (track_request u) (u ++ py "/addTrack"))
      by (reflexivity || assumption).
    reflexivity.
  - now apply thread_Forall2.
  - now apply thread_Forall2.
  - split; [exact Hf|].
    rewrite <- (thread_one (ingest_request u event w) _ rf).
    rewrite <- thread_app by (now rewrite length_map).
    rewrite <- thread_app by (now rewrite length_map).
    pose proof (carries_all u event w catalogs) as Hall.
    pose proof (thread_head _ mp0 (ra ++ rt ++ [rf]) Hall) as Hhead.
    pose proof (thread_threaded _ Hall mp0 (ra ++ rt ++ [rf])) as Hrest.
    destruct (thread _ mp0 (ra ++ rt ++ [rf])) as [|c rest]; [exact I|].
    cbn [threaded]. split; [|exact Hrest].
    exists mp0. split; [reflexivity|exact Hhead].
Qed.

Lemma ingest_call_sequence_witness :
  exists new,
    trace (snd (ingest (Run.calm 1) Run.lecture false
                       (Run.start [Run.lecture]))) = new
    /\ map (fun c => url (fst c)) (http_calls new)
       = [Run.base ++ py "/createMediaPackage";
          Run.base ++ py "/addDCCatalog";
          Run.base ++ py "/addTrack";
          Run.base ++ py "/ingest"]
    /\ threaded (http_calls new).
Proof.
  destruct (ingest_call_sequence (Run.calm 1) Run.lecture false
              (Run.start [Run.lecture])
              (snd (ingest (Run.calm 1) Run.lecture false
                           (Run.start [Run.lecture]))))
    as (new & u & r0 & mp0 & cs & ts & fin & Ht & Hc & Hu & _ & _ & Hf
        & Hth).
  { vm_compute. reflexivity. }
  exists new. cbn [Run.start trace app] in Ht. split; [exact Ht|].
  subst mp0. rewrite <- Hc in Hth. split; [|exact Hth].
  rewrite <- Ht. vm_compute. reflexivity.
Defined.

(** ** C10: paths and identifiers in ASCII *)

Lemma encode_ascii_ignore_filter (s : str) :
  map Byte.to_N (Py.encode_ascii_ignore s)
  = filter (fun c => N.ltb c 128) s.
Proof.
  unfold Py.encode_ascii_ignore.
  induction s as [|c s IH]; [reflexivity|].
  cbn [flat_map filter]. destruct (N.ltb_spec c 128) as [Hlt|Hge].
  - destruct (Byte.of_N c) as [b|] eqn:Hb.
    + cbn [app map]. rewrite IH. f_equal.
      now apply Byte.to_of_N.
    + apply Byte.of_N_None_iff in Hb. lia.
  - exact IH.
Qed.

Lemma track_calls_paths (service_url : str) (fts : list (str * str)) :
  forall cur rs,
    List.length rs = List.length fts ->
    Forall2 (fun ft c =>
               exists fields,
                 post_data (fst c) = Some fields
                 /\ field_value (py "BODY1") fields
                    = Some (VFormFile (Py.encode_ascii_ignore (snd ft))))
            fts (thread (map (track_request service_url) fts) cur rs).
Proof.
  induction fts as [|ft fts IH]; intros cur [|r rs] Hlen; try discriminate.
  - constructor.
  - cbn [map thread]. constructor.
    + eexists. split; reflexivity.
    + apply IH. simpl in Hlen. congruence.
Qed.

Lemma ingest_fields_instance (event : RecordedEvent) (w : params)
  (cur : bytes) :
  Py.truthy (uid event) = true ->
  field_value (py "workflowInstanceId") (ingest_fields event w cur)
  = Some (VBytes (Py.encode_ascii_ignore (uid event))).
Proof.
  intros Huid. unfold ingest_fields. destruct w as [wdef wconf].
  rewrite Huid. destruct (Py.truthy wdef); reflexivity.
Qed.

(** C10: [str.encode('ascii', 'ignore')] keeps the characters below 128
    and drops the others without raising. In a run that returns, the file
    of each [addTrack] call is the path of the track encoded this way and
    the field [workflowInstanceId] of the [ingest] call is [event.uid]
    encoded this way, so that both can differ from the values the event
    holds: the path [/rec/vid], U+00E9, [o.mkv] is sent as
    [/rec/vido.mkv]. *)
Theorem ascii_ignore_in_remote_calls :
  (forall s : str,
      map Byte.to_N (Py.encode_ascii_ignore s)
      = filter (fun c => N.ltb c 128) s)
  /\ (forall (W : World) (event : RecordedEvent) (force_uid : bool)
             (s s' : State),
         ingest W event force_uid s = (Ok tt, s') ->
         exists new before track_calls submit_call,
           trace s' = trace s ++ new
           /\ http_calls new = before ++ track_calls ++ [submit_call]
           /\ Forall2
                (fun ft c =>
                   exists fields,
                     post_data (fst c) = Some fields
                     /\ field_value (py "BODY1") fields
                        = Some (VFormFile
                                  (Py.encode_ascii_ignore (snd ft))))
                (tracks event) track_calls
           /\ (Py.truthy (uid event) = true ->
               exists fields,
                 post_data (fst submit_call) = Some fields
                 /\ field_value (py "workflowInstanceId") fields
                    = Some (VBytes (Py.encode_ascii_ignore (uid event)))))
  /\ Py.encode_ascii_ignore (py "/rec/vid" ++ [233%N] ++ py "o.mkv")
     = bytes_of "/rec/vido.mkv".
Proof.
  split; [exact encode_ascii_ignore_filter|].
  split; [|vm_compute; reflexivity].
  intros W event force_uid s s' Hrun.
  apply ingest_ok_calls in Hrun
    as (new & u & r0 & mp0 & ra & rt & w & rf & Ht & Hc & Hla & Hlt & Hf).
  exists new,
    ((create_request u, Ok r0)
     :: thread (map (catalog_request u)
                    (filter (is_catalog W) (attach event))) mp0 ra),
    (thread (map (track_request u) (tracks event)) (last ra mp0) rt),
    (ingest_request u event w (last rt (last ra mp0)), Ok rf).
  split; [exact Ht|]. split; [exact Hc|]. split.
  - now apply track_calls_paths.
  - intros Huid. eexists. split; [reflexivity|].
    now apply ingest_fields_instance.
Qed.

Lemma ascii_ignore_in_remote_calls_witness :
  exists new track_call submit_call,
    trace (snd (ingest (Run.calm 1) Run.lecture false
                       (Run.start [Run.lecture]))) = new
    /\ In track_call (http_calls new)
    /\ In submit_call (http_calls new)
    /\ (exists fields,
           post_data (fst track_call) = Some fields
           /\ field_value (py "BODY1") fields
              = Some (VFormFile (bytes_of "/rec/vido.mkv")))
    /\ (exists fields,
           post_data (fst submit_call) = Some fields
           /\ field_value (py "workflowInstanceId") fields
              = Some (VBytes (bytes_of "ev1"))).
Proof.
  destruct (proj1 (proj2 ascii_ignore_in_remote_calls)
              (Run.calm 1) Run.lecture false (Run.start [Run.lecture])
              (snd (ingest (Run.calm 1) Run.lecture false
                           (Run.start [Run.lecture]))))
    as (new & before & ts & fin & Ht & Hc & Hts & Hfin).
  { vm_compute. reflexivity. }
  inversion Hts as [|ft c fts cs Hc1 Hcs Hft Hcalls]; subst.
  inversion Hcs; subst.
  exists new, c, fin. cbn [Run.start trace app] in Ht.
  split; [exact Ht|]. rewrite Hc.
  split; [apply in_or_app; right; now left|].
  split; [apply in_or_app; right; right; now left|].
  split; [exact Hc1|]. exact (Hfin eq_refl).
Defined.

(** ** C9: the identifier forced into the mediapackage *)











(** * Further properties *)

(** ** Lines of a text *)

Lemma split_not_nil (c : char) (s : str) : Py.split c s <> [].
Proof.
  destruct (split_segments c s) as (h & t & Hs & _). rewrite Hs.
  discriminate.
Qed.

Lemma split_app_sep (c : char) (a b : str) :
  Py.split c (a ++ c :: b) = Py.split c a ++ Py.split c b.
Proof.
  induction a as [|x a IH]; cbn [app Py.split].
  - now rewrite N.eqb_refl.
  - rewrite IH. destruct (N.eqb x c); [reflexivity|].
    destruct (Py.split c a) as [|h t] eqn:Ha; [|reflexivity].
    now destruct (split_not_nil c a).
Qed.

Lemma split_no_sep (c : char) (s : str) :
  ~ In c s -> Py.split c s = [s].
Proof.
  induction s as [|x s IH]; intros Hno; [reflexivity|].
  cbn [Py.split]. destruct (N.eqb_spec x c) as [->|Hne].
  - exfalso. apply Hno. now left.
  - rewrite IH; [reflexivity|]. intros H. apply Hno. now right.
Qed.

Lemma join_cons (c : char) (x : str) (l : list str) :
  l <> [] -> join c (x :: l) = x ++ c :: join c l.
Proof. destruct l; [congruence|reflexivity]. Qed.

(** X4: [sep.join(s.split(sep))] is [s], no part of the split holds the
    separator, and a list of parts without the separator is what the
    split of their join gives back. *)
Theorem split_join_round_trip (c : char) :
  (forall s : str,
      join c (Py.split c s) = s
      /\ Forall (fun part => ~ In c part) (Py.split c s))
  /\ (forall parts : list str,
         parts <> [] ->
         Forall (fun part => ~ In c part) parts ->
         Py.split c (join c parts) = parts).
Proof.
  split.
  - induction s as [|x s [IHj IHf]]; cbn [Py.split].
    + split; [reflexivity|]. constructor; [tauto|constructor].
    + destruct (N.eqb_spec x c) as [->|Hne].
      * rewrite join_cons by apply split_not_nil. rewrite IHj.
        split; [reflexivity|]. constructor; [tauto|exact IHf].
      * destruct (Py.split c s) as [|h t] eqn:Hs.
        { now destruct (split_not_nil c s). }
        inversion IHf as [|? ? Hh Ht]; subst.
        split.
        -- now destruct t.
        -- constructor; [|exact Ht].
           intros [H|H]; [congruence|contradiction].
  - induction parts as [|x parts IH]; intros Hne Hall; [congruence|].
    inversion Hall as [|? ? Hx Hparts]; subst.
    destruct parts as [|y parts'].
    + cbn [join]. now apply split_no_sep.
    + rewrite join_cons by discriminate. rewrite split_app_sep.
      rewrite IH by (discriminate || assumption).
      now rewrite split_no_sep.
Qed.

Lemma split_join_round_trip_witness :
  Py.split ch_dot (join ch_dot [py "org"; []; py "config"])
  = [py "org"; []; py "config"].
Proof.
  apply (proj2 (split_join_round_trip ch_dot)); [discriminate|].
  repeat constructor; vm_compute; intuition discriminate.
Defined.

(** ** More on [get_config_params] *)

Lemma config_lines_app (l1 l2 : list str) :
  forall acc,
    config_lines acc (l1 ++ l2)
    = match config_lines acc l1 with
      | Ok acc' => config_lines acc' l2
      | Err e => Err e
      end.
Proof.
  induction l1 as [|line l1 IH]; intros acc; [reflexivity|].
  cbn [app config_lines]. destruct (config_line acc line); [apply IH|].
  reflexivity.
Qed.

Lemma config_line_other (acc : params) (line : str) :
  is_other line = true -> config_line acc line = Ok acc.
Proof.
  unfold is_other, Spec.is_config, Spec.is_definition, config_line.
  destruct acc as [wdef param].
  destruct (Py.startswith line config_prefix); [discriminate|].
  destruct (Py.startswith line definition_prefix); [discriminate|].
  reflexivity.
Qed.

Lemma config_line_from (line wdef : str) (param : list (str * str)) :
  config_line (wdef, param) line
  = match config_line ([], []) line with
    | Err e => Err e
    | Ok (wdef', added) =>
        Ok (if Spec.is_definition line then wdef' else wdef,
            param ++ added)
    end.
Proof.
  pose proof (config_not_definition line) as Hexcl.
  unfold config_line, Spec.is_config, Spec.is_definition in *.
  destruct (Py.startswith line config_prefix).
  - rewrite (Hexcl eq_refl).
    destruct (Py.split1 ch_equals line) as [|k [|v [|? ?]]]; reflexivity.
  - destruct (Py.startswith line definition_prefix);
      now rewrite app_nil_r.
Qed.

(** The result of the loop from any values of the two locals, read off
    its result from the initial ones. *)
Lemma config_lines_from (lines : list str) :
  forall wdef param,
    config_lines (wdef, param) lines
    = match config_lines ([], []) lines with
      | Err e => Err e
      | Ok (wdef', added) =>
          Ok (if existsb Spec.is_definition lines then wdef' else wdef,
              param ++ added)
      end.
Proof.
  induction lines as [|line rest IH]; intros wdef param.
  - cbn. now rewrite app_nil_r.
  - cbn [config_lines existsb]. rewrite (config_line_from line wdef param).
    destruct (config_line ([], []) line) as [[w1 a1]|e]; [|reflexivity].
    rewrite IH. rewrite (IH w1 a1).
    destruct (config_lines ([], []) rest) as [[w' added]|e];
      [|reflexivity].
    rewrite <- app_assoc.
    destruct (Spec.is_definition line), (existsb Spec.is_definition rest);
      reflexivity.
Qed.

Lemma config_lines_skip (other : str) (l1 l2 : list str) :
  is_other other = true ->
  forall acc,
    config_lines acc (l1 ++ other :: l2) = config_lines acc (l1 ++ l2).
Proof.
  intros Hother. induction l1 as [|line l1 IH]; intros acc.
  - cbn [app config_lines]. now rewrite (config_line_other _ _ Hother).
  - cbn [app config_lines]. destruct (config_line acc line); [apply IH|].
    reflexivity.
Qed.

(** X1: a line that starts with neither prefix changes nothing, wherever
    it stands in the text. *)
Theorem get_config_params_skips_other_lines (a b other : str) :
  ~ In ch_newline other ->
  is_other other = true ->
  get_config_params (a ++ nl ++ other ++ nl ++ b)
  = get_config_params (a ++ nl ++ b)
  /\ get_config_params (other ++ nl ++ b) = get_config_params b
  /\ get_config_params (a ++ nl ++ other) = get_config_params a.
Proof.
  intros Hline Hother. unfold get_config_params, nl. cbn [app].
  rewrite !split_app_sep, (split_no_sep _ _ Hline).
  split; [|split].
  - apply (config_lines_skip other _ _ Hother).
  - apply (config_lines_skip other [] _ Hother).
  - rewrite (config_lines_skip other _ [] Hother). now rewrite app_nil_r.
Qed.

Lemma get_config_params_skips_other_lines_witness :
  get_config_params
    (py "org.opencastproject.workflow.definition=fast" ++ nl ++
     py "capture.device.names=camera" ++ nl ++
     py "org.opencastproject.workflow.config.foo=bar")
  = get_config_params
      (py "org.opencastproject.workflow.definition=fast" ++ nl ++
       py "org.opencastproject.workflow.config.foo=bar").
Proof.
  apply (get_config_params_skips_other_lines
           (py "org.opencastproject.workflow.definition=fast")
           (py "org.opencastproject.workflow.config.foo=bar")
           (py "capture.device.names=camera")).
  - vm_compute. intuition discriminate.
  - reflexivity.
Defined.

(** X2: the properties of two texts read one after the other: an error
    in the first hides the second, the pairs of the second follow the
    pairs of the first, and the definition id is that of the second text
    when it has a definition line, that of the first otherwise. *)
Theorem get_config_params_concat (a b : str) :
  get_config_params (a ++ nl ++ b)
  = match get_config_params a with
    | Err e => Err e
    | Ok (wdef_a, params_a) =>
        match get_config_params b with
        | Err e => Err e
        | Ok (wdef_b, params_b) =>
            Ok (if existsb Spec.is_definition (Py.split ch_newline b)
                then wdef_b else wdef_a,
                params_a ++ params_b)
        end
    end.
Proof.
  unfold get_config_params, nl. cbn [app].
  rewrite split_app_sep, config_lines_app.
  destruct (config_lines ([], []) (Py.split ch_newline a))
    as [[wa pa]|e]; [|reflexivity].
  apply config_lines_from.
Qed.

(** X3: a text in which no line starts with one of the two prefixes, the
    empty text among them, gives the empty definition id and no pair. *)
Theorem get_config_params_nothing_to_read (properties : str) :
  forallb is_other (Py.split ch_newline properties) = true ->
  get_config_params properties = Ok ([], []).
Proof.
  unfold get_config_params.
  induction (Py.split ch_newline properties) as [|line rest IH];
    intros Hall; [reflexivity|].
  cbn [forallb] in Hall. apply andb_true_iff in Hall as [Hline Hrest].
  cbn [config_lines]. rewrite (config_line_other _ _ Hline). now apply IH.
Qed.

Lemma get_config_params_nothing_to_read_witness :
  get_config_params [] = Ok ([], [])
  /\ get_config_params (py "capture.device.names=camera" ++ nl) = Ok ([], []).
Proof.
  split; apply get_config_params_nothing_to_read; reflexivity.
Defined.

(** ** The codecs *)

Lemma filter_all_iff {A} (p : A -> bool) (l : list A) :
  filter p l = l <-> forallb p l = true.
Proof.
  induction l as [|x l IH]; cbn [filter forallb]; [tauto|].
  destruct (p x) eqn:Hp; cbn [andb].
  - rewrite <- IH. split; [intros H; now injection H|intros ->; reflexivity].
  - split; [|discriminate]. intros H.
    assert (Hlen : (List.length (filter p l) <= List.length l)%nat)
      by apply filter_length_le.
    rewrite H in Hlen. cbn in Hlen. lia.
Qed.

Lemma encode_utf8_ascii (s : str) :
  forallb is_ascii s = true ->
  Py.encode_utf8 s = Ok (Py.encode_ascii_ignore s).
Proof.
  unfold Py.encode_ascii_ignore.
  induction s as [|c s IH]; intros Hall; [reflexivity|].
  cbn [forallb] in Hall. apply andb_true_iff in Hall as [Hc Hs].
  cbn [Py.encode_utf8 flat_map]. unfold Py.utf8_char, Py.byte_of.
  unfold is_ascii in Hc. rewrite Hc, (IH Hs).
  destruct (Byte.of_N c) eqn:Hb; [reflexivity|].
  apply Byte.of_N_None_iff in Hb. apply N.ltb_lt in Hc. lia.
Qed.

(** X6: [encode('ascii', 'ignore')] loses nothing exactly on the strings
    whose characters are all below 128, and there it gives the same bytes
    as [encode('utf-8')]; on any other string the result is shorter than
    the string. *)
Theorem encode_ascii_ignore_lossless_iff_ascii (s : str) :
  (map Byte.to_N (Py.encode_ascii_ignore s) = s
   <-> forallb is_ascii s = true)
  /\ (forallb is_ascii s = true ->
      Py.encode_utf8 s = Ok (Py.encode_ascii_ignore s))
  /\ (forallb is_ascii s = false ->
      (List.length (Py.encode_ascii_ignore s) < List.length s)%nat).
Proof.
  split; [|split].
  - rewrite encode_ascii_ignore_filter. apply filter_all_iff.
  - apply encode_utf8_ascii.
  - intros Hnot.
    rewrite <- (length_map Byte.to_N), encode_ascii_ignore_filter.
    change (List.length (filter is_ascii s) < List.length s)%nat.
    clear - Hnot.
    induction s as [|c s IH]; [discriminate|].
    cbn [forallb filter] in *. destruct (is_ascii c); cbn [andb] in Hnot.
    + cbn [List.length]. apply IH in Hnot. lia.
    + pose proof (filter_length_le is_ascii s). cbn [List.length]. lia.
Qed.

Lemma encode_ascii_ignore_lossless_iff_ascii_witness :
  Py.encode_utf8 (py "/rec/video.mkv")
  = Ok (Py.encode_ascii_ignore (py "/rec/video.mkv"))
  /\ (List.length (Py.encode_ascii_ignore (py "vid" ++ [233%N]))
      < List.length (py "vid" ++ [233%N]))%nat.
Proof.
  split.
  - apply (proj1 (proj2 (encode_ascii_ignore_lossless_iff_ascii
                           (py "/rec/video.mkv")))). reflexivity.
  - apply (proj2 (proj2 (encode_ascii_ignore_lossless_iff_ascii
                           (py "vid" ++ [233%N])))). reflexivity.
Defined.

Section Utf8.

Local Open Scope N_scope.

Lemma to_N_byte_of (n : N) : n < 256 -> Byte.to_N (Py.byte_of n) = n.
Proof.
  intros Hn. unfold Py.byte_of. destruct (Byte.of_N n) as [b|] eqn:Hb.
  - now apply Byte.to_of_N.
  - apply Byte.of_N_None_iff in Hb. lia.
Qed.

Lemma continuation_low6 (x : N) : x < 64 -> (128 + x) mod 64 = x.
Proof.
  intros Hx. replace (128 + x) with (x + 2 * 64) by lia.
  rewrite N.Div0.mod_add. now apply N.mod_small.
Qed.

Lemma digits2 (c : N) : c = 64 * (c / 64) + c mod 64 /\ c mod 64 < 64.
Proof.
  split; [apply N.div_mod'|]. now apply N.mod_lt.
Qed.

Lemma digits3 (c : N) :
  c = 4096 * (c / 4096) + 64 * ((c / 64) mod 64) + c mod 64
  /\ (c / 64) mod 64 < 64 /\ c mod 64 < 64.
Proof.
  pose proof (N.div_mod' c 64). pose proof (N.mod_lt c 64).
  pose proof (N.div_mod' (c / 64) 64). pose proof (N.mod_lt (c / 64) 64).
  rewrite !N.Div0.div_div in *. change (64 * 64) with 4096 in *. lia.
Qed.

Lemma digits4 (c : N) :
  c = 262144 * (c / 262144) + 4096 * ((c / 4096) mod 64)
      + 64 * ((c / 64) mod 64) + c mod 64
  /\ (c / 4096) mod 64 < 64 /\ (c / 64) mod 64 < 64 /\ c mod 64 < 64.
Proof.
  pose proof (N.div_mod' c 64). pose proof (N.mod_lt c 64).
  pose proof (N.div_mod' (c / 64) 64). pose proof (N.mod_lt (c / 64) 64).
  pose proof (N.div_mod' (c / 64 / 64) 64).
  pose proof (N.mod_lt (c / 64 / 64) 64).
  rewrite !N.Div0.div_div in *.
  change (64 * 64) with 4096 in *. change (4096 * 64) with 262144 in *.
  lia.
Qed.

(** The tests of the decoder, decided from the bounds at hand. *)
Ltac decide_tests :=
  repeat match goal with
    | |- context [N.ltb ?a ?b] =>
        first [ replace (N.ltb a b) with true
                  by (symmetry; apply N.ltb_lt; lia)
              | replace (N.ltb a b) with false
                  by (symmetry; apply N.ltb_ge; lia) ]
    | |- context [N.leb ?a ?b] =>
        first [ replace (N.leb a b) with true
                  by (symmetry; apply N.leb_le; lia)
              | replace (N.leb a b) with false
                  by (symmetry; apply N.leb_gt; lia) ]
    | |- context [N.eqb ?a ?b] =>
        first [ replace (N.eqb a b) with true
                  by (symmetry; apply N.eqb_eq; lia)
              | replace (N.eqb a b) with false
                  by (symmetry; apply N.eqb_neq; lia) ]
    end.

Lemma decode_one (b0 : byte) (rest : bytes) :
  Byte.to_N b0 < 128 ->
  Py.decode_utf8 (b0 :: rest)
  = match Py.decode_utf8 rest with
    | Ok s => Ok (Byte.to_N b0 :: s)
    | Err e => Err e
    end.
Proof.
  intros H0. cbn [Py.decode_utf8]. decide_tests. reflexivity.
Qed.

Lemma decode_two (b0 b1 : byte) (rest : bytes) :
  194 <= Byte.to_N b0 <= 223 ->
  128 <= Byte.to_N b1 <= 191 ->
  Py.decode_utf8 (b0 :: b1 :: rest)
  = match Py.decode_utf8 rest with
    | Ok s => Ok ((Byte.to_N b0 - 192) * 64 + Byte.to_N b1 mod 64 :: s)
    | Err e => Err e
    end.
Proof.
  intros H0 H1. cbn [Py.decode_utf8]. unfold Py.cont, Py.low6.
  decide_tests. reflexivity.
Qed.

Lemma decode_three (b0 b1 b2 : byte) (rest : bytes) :
  224 <= Byte.to_N b0 <= 239 ->
  128 <= Byte.to_N b1 <= 191 ->
  (Byte.to_N b0 = 224 -> 160 <= Byte.to_N b1) ->
  (Byte.to_N b0 = 237 -> Byte.to_N b1 <= 159) ->
  128 <= Byte.to_N b2 <= 191 ->
  Py.decode_utf8 (b0 :: b1 :: b2 :: rest)
  = match Py.decode_utf8 rest with
    | Ok s => Ok ((Byte.to_N b0 - 224) * 4096
                  + Byte.to_N b1 mod 64 * 64 + Byte.to_N b2 mod 64 :: s)
    | Err e => Err e
    end.
Proof.
  intros H0 H1 Hlo Hhi H2. cbn [Py.decode_utf8]. unfold Py.cont, Py.low6.
  decide_tests. cbn [andb].
  destruct (N.eqb_spec (Byte.to_N b0) 224) as [E1|E1];
    destruct (N.eqb_spec (Byte.to_N b0) 237) as [E2|E2];
    try specialize (Hlo E1); try specialize (Hhi E2);
    decide_tests; reflexivity.
Qed.

Lemma decode_four (b0 b1 b2 b3 : byte) (rest : bytes) :
  240 <= Byte.to_N b0 <= 244 ->
  128 <= Byte.to_N b1 <= 191 ->
  (Byte.to_N b0 = 240 -> 144 <= Byte.to_N b1) ->
  (Byte.to_N b0 = 244 -> Byte.to_N b1 <= 143) ->
  128 <= Byte.to_N b2 <= 191 ->
  128 <= Byte.to_N b3 <= 191 ->
  Py.decode_utf8 (b0 :: b1 :: b2 :: b3 :: rest)
  = match Py.decode_utf8 rest with
    | Ok s => Ok ((Byte.to_N b0 - 240) * 262144
                  + Byte.to_N b1 mod 64 * 4096
                  + Byte.to_N b2 mod 64 * 64 + Byte.to_N b3 mod 64 :: s)
    | Err e => Err e
    end.
Proof.
  intros H0 H1 Hlo Hhi H2 H3. cbn [Py.decode_utf8].
  unfold Py.cont, Py.low6. decide_tests. cbn [andb].
  destruct (N.eqb_spec (Byte.to_N b0) 240) as [E1|E1];
    destruct (N.eqb_spec (Byte.to_N b0) 244) as [E2|E2];
    try specialize (Hlo E1); try specialize (Hhi E2);
    decide_tests; reflexivity.
Qed.

Lemma decode_utf8_char (c : char) (rest : bytes) :
  is_scalar c = true ->
  exists bs,
    Py.utf8_char c = Ok bs
    /\ Py.decode_utf8 (bs ++ rest)
       = match Py.decode_utf8 rest with
         | Ok s => Ok (c :: s)
         | Err e => Err e
         end.
Proof.
  unfold is_scalar. intros Hc. apply andb_true_iff in Hc as [Hmax Hsur].
  apply N.ltb_lt in Hmax. apply negb_true_iff in Hsur.
  unfold Py.utf8_char.
  destruct (N.ltb_spec c 128) as [H1|H1].
  - eexists. split; [reflexivity|]. cbn [app].
    rewrite decode_one; rewrite to_N_byte_of by lia; [reflexivity|lia].
  - destruct (N.ltb_spec c 2048) as [H2|H2].
    + destruct (digits2 c) as [Hd Hr].
      remember (c / 64) as q eqn:Eq. remember (c mod 64) as r eqn:Er.
      clear Eq Er.
      eexists. split; [reflexivity|]. cbn [app].
      rewrite decode_two; rewrite ?to_N_byte_of by lia; try lia.
      rewrite (continuation_low6 _ Hr).
      destruct (Py.decode_utf8 rest); [|reflexivity].
      do 2 f_equal. lia.
    + destruct (N.ltb_spec c 65536) as [H3|H3].
      * rewrite Hsur. destruct (digits3 c) as (Hd & Hm & Hr).
        assert (Hnot : c < 55296 \/ 57343 < c).
        { apply andb_false_iff in Hsur as [H|H].
          - left. now apply N.leb_gt in H.
          - right. now apply N.leb_gt in H. }
        remember (c / 4096) as q eqn:Eq.
        remember ((c / 64) mod 64) as m eqn:Em.
        remember (c mod 64) as r eqn:Er. clear Eq Em Er.
        eexists. split; [reflexivity|]. cbn [app].
        rewrite decode_three; rewrite ?to_N_byte_of by lia; try lia.
        rewrite (continuation_low6 _ Hr), (continuation_low6 _ Hm).
        destruct (Py.decode_utf8 rest); [|reflexivity].
        do 2 f_equal. lia.
      * destruct (digits4 c) as (Hd & Hh & Hm & Hr).
        remember (c / 262144) as q eqn:Eq.
        remember ((c / 4096) mod 64) as h eqn:Eh.
        remember ((c / 64) mod 64) as m eqn:Em.
        remember (c mod 64) as r eqn:Er. clear Eq Eh Em Er.
        rewrite (N.mod_small q 8) by lia.
        eexists. split; [reflexivity|]. cbn [app].
        rewrite decode_four; rewrite ?to_N_byte_of by lia; try lia.
        rewrite (continuation_low6 _ Hr), (continuation_low6 _ Hm),
          (continuation_low6 _ Hh).
        destruct (Py.decode_utf8 rest); [|reflexivity].
        do 2 f_equal. lia.
Qed.

End Utf8.

Lemma encode_utf8_scalars (s : str) :
  forallb is_scalar s = true ->
  exists b, Py.encode_utf8 s = Ok b /\ Py.decode_utf8 b = Ok s.
Proof.
  induction s as [|c s IH]; intros Hall.
  - exists []. split; reflexivity.
  - cbn [forallb] in Hall. apply andb_true_iff in Hall as [Hc Hs].
    destruct (IH Hs) as (b & Henc & Hdec).
    destruct (decode_utf8_char c b Hc) as (bs & Hchar & Hstep).
    exists (bs ++ b). cbn [Py.encode_utf8]. rewrite Hchar, Henc.
    split; [reflexivity|]. now rewrite Hstep, Hdec.
Qed.

(** X7: every string of code points below U+110000 without surrogates
    has a UTF-8 encoding, and decoding it gives the string back; a
    surrogate makes the encoding raise [UnicodeEncodeError]. *)
Theorem utf8_round_trip :
  (forall s : str,
      forallb is_scalar s = true ->
      exists b, Py.encode_utf8 s = Ok b /\ Py.decode_utf8 b = Ok s)
  /\ (forall (s : str) (c : char),
         In c s -> N.leb 55296 c && N.leb c 57343 = true ->
         Py.encode_utf8 s = Err UnicodeEncodeError).
Proof.
  split; [exact encode_utf8_scalars|].
  induction s as [|x s IH]; intros c Hin Hsur; [contradiction|].
  cbn [Py.encode_utf8].
  destruct Hin as [->|Hin].
  - unfold Py.utf8_char. apply andb_true_iff in Hsur as [Hlo Hhi].
    apply N.leb_le in Hlo. apply N.leb_le in Hhi.
    replace (N.ltb c 128) with false by (symmetry; apply N.ltb_ge; lia).
    replace (N.ltb c 2048) with false by (symmetry; apply N.ltb_ge; lia).
    replace (N.ltb c 65536) with true by (symmetry; apply N.ltb_lt; lia).
    replace (N.leb 55296 c) with true by (symmetry; now apply N.leb_le).
    replace (N.leb c 57343) with true by (symmetry; now apply N.leb_le).
    reflexivity.
  - rewrite (IH c Hin Hsur).
    destruct (Py.utf8_char x) as [b|e] eqn:Hx; [reflexivity|].
    unfold Py.utf8_char in Hx.
    repeat match type of Hx with
           | (if ?t then _ else _) = _ => destruct t
           end; congruence.
Qed.

Lemma utf8_round_trip_witness :
  (exists b,
      Py.encode_utf8 (py "caf" ++ [233%N; 8364%N; 128512%N]) = Ok b
      /\ Py.decode_utf8 b = Ok (py "caf" ++ [233%N; 8364%N; 128512%N]))
  /\ Py.encode_utf8 (py "a" ++ [55357%N]) = Err UnicodeEncodeError.
Proof.
  split.
  - apply (proj1 utf8_round_trip). reflexivity.
  - apply (proj2 utf8_round_trip _ 55357%N); [|reflexivity].
    right. now left.
Defined.

(** ** More on the selection of the service *)

(** X8: when the lookup gives a list of services that is not empty, the
    selection returns one of its members, whatever the generator draws;
    it never raises [IndexError]. With one known service, it is that
    one. *)
Theorem select_service_picks_known (W : World) (s : State)
  (urls : list str) :
  service W (trace s) (py "ingest") true = Ok urls ->
  urls <> [] ->
  exists service_url,
    select_service W s
    = (Ok service_url, with_trace s (ServiceLookup (py "ingest") true))
    /\ In service_url urls
    /\ (forall u, urls = [u] -> service_url = u).
Proof.
  intros Hurls Hne.
  unfold select_service, bind, call_service, randrange, item.
  rewrite Hurls.
  assert (Hlen : (0 < Z.of_nat (List.length urls))%Z)
    by (destruct urls; [congruence|cbn [List.length]; lia]).
  apply Z.ltb_lt in Hlen. rewrite Hlen. apply Z.ltb_lt in Hlen.
  cbn [trace with_trace].
  set (r := random W _).
  set (i := (0 + Z.of_N r mod (Z.of_nat (List.length urls) - 0))%Z).
  assert (Hi : (Z.to_nat i < List.length urls)%nat).
  { subst i.
    pose proof (Z.mod_pos_bound (Z.of_N r)
                  (Z.of_nat (List.length urls) - 0)) as Hb.
    lia. }
  destruct (nth_error urls (Z.to_nat i)) as [u|] eqn:Hnth.
  - exists u. split; [reflexivity|]. split.
    + eapply nth_error_In. exact Hnth.
    + intros u' ->. apply nth_error_In in Hnth.
      destruct Hnth as [H|[]]. now symmetry.
  - apply nth_error_None in Hnth. lia.
Qed.

Lemma select_service_picks_known_witness :
  select_service (Run.calm 1) (Run.start [])
  = (Ok Run.base,
     with_trace (Run.start []) (ServiceLookup (py "ingest") true)).
Proof.
  destruct (select_service_picks_known (Run.calm 1) (Run.start [])
              [Run.base] eq_refl) as (u & Hrun & _ & Hone).
  { discriminate. }
  rewrite Hrun. now rewrite (Hone Run.base eq_refl).
Defined.

(** ** More on the states a run leaves *)

Lemma uploading_db_twice (event : RecordedEvent) (st1 st2 : Status)
  (events : list RecordedEvent) :
  uploading_db event st2 (uploading_db event st1 events)
  = uploading_db event st2 events.
Proof.
  unfold uploading_db. rewrite map_map. apply map_ext. intros e.
  destruct (Py.str_eqb (uid e) (uid event)) eqn:He; cbn [uid set_status].
  - rewrite He. reflexivity.
  - now rewrite He.
Qed.

(** X9: [ingest] does not clean up after itself: a run that raises,
    called without [safe_start_ingest], leaves the ingest service [BUSY]
    and has sent no [upload_error]. When a step of the upload has
    raised, the event is stored as [UPLOADING] and no state other than
    [uploading] has been sent; when the removal of the directory has
    raised, as the last thing done, the event is stored as
    [FINISHED_UPLOADING]. *)
Theorem ingest_failure_leaves_busy (W : World) (event : RecordedEvent)
  (force_uid : bool) (s s' : State) (e : exn) :
  ingest W event force_uid s = (Err e, s') ->
  ingest_status s' = BUSY
  /\ exists new,
      trace s' = trace s ++ new
      /\ ~ In (RecordingState (uid event) (py "upload_error")) new
      /\ ((db s' = uploading_db event UPLOADING (db s)
           /\ Forall (fun ev => uid ev = uid event -> status ev = UPLOADING)
                     (db s')
           /\ (forall d, ~ In (Rmtree d) new)
           /\ forall state,
               In (RecordingState (uid event) state) new ->
               state = py "uploading")
          \/ (db s' = uploading_db event FINISHED_UPLOADING (db s)
              /\ Forall (fun ev => uid ev = uid event ->
                                   status ev = FINISHED_UPLOADING) (db s')
              /\ delete_after_upload W = true
              /\ exists before,
                  new = before ++ cleanup_events event
                  /\ cleanup_result W event (trace s ++ before) = Err e)).
Proof.
  intros Hrun.
  assert (Hstates : forall mid state,
             Forall is_remote mid ->
             In (RecordingState (uid event) state)
                (begin_events event
                 ++ ServiceLookup (py "ingest") true :: mid) ->
             state = py "uploading").
  { intros mid state Hmid Hin. apply in_app_or in Hin as [Hin|[Hin|Hin]].
    - cbn in Hin. repeat destruct Hin as [Hin|Hin];
        try discriminate; try contradiction.
      now inversion Hin.
    - discriminate.
    - rewrite Forall_forall in Hmid. destruct (Hmid _ Hin). }
  apply ingest_err in Hrun
    as (Hst & mid & Hmid
        & [[Ht Hdb]|(Ht & Hdb & Hdel & _ & _ & Hres)]).
  - split; [exact Hst|]. eexists. split; [exact Ht|]. split.
    + intros Hin. apply Hstates in Hin; [|exact Hmid].
      vm_compute in Hin. discriminate.
    + left. split; [exact Hdb|]. split.
      * rewrite Hdb. apply uploading_db_status.
      * split; [intros d; now apply clean_no_rmtree_before|].
        intros state. now apply Hstates.
  - split; [exact Hst|].
    exists ((begin_events event
             ++ ServiceLookup (py "ingest") true :: mid)
            ++ cleanup_events event).
    split; [rewrite Ht, <- app_assoc; reflexivity|]. split.
    + intros Hin. apply in_app_or in Hin as [Hin|Hin].
      * apply Hstates in Hin; [|exact Hmid].
        vm_compute in Hin. discriminate.
      * cbn in Hin. repeat destruct Hin as [Hin|Hin];
          try discriminate; try contradiction.
    + right. rewrite uploading_db_twice in Hdb.
      split; [exact Hdb|]. split.
      * rewrite Hdb. apply uploading_db_status.
      * split; [exact Hdel|]. eexists. split; [reflexivity|exact Hres].
Qed.

Lemma ingest_failure_leaves_busy_witness :
  ingest_status (snd (ingest Run.failing Run.lecture false
                             (Run.start [Run.lecture]))) = BUSY
  /\ ingest_status (snd (ingest Run.locked Run.lecture false
                                (Run.start [Run.lecture]))) = BUSY.
Proof.
  split.
  - apply (ingest_failure_leaves_busy Run.failing Run.lecture false
             (Run.start [Run.lecture]) _ (Raised "pycurl.error")).
    vm_compute. reflexivity.
  - apply (ingest_failure_leaves_busy Run.locked Run.lecture false
             (Run.start [Run.lecture]) _ (Raised "PermissionError")).
    vm_compute. reflexivity.
Defined.

Lemma safe_start_ingest_run (W : World) (event : RecordedEvent)
  (s : State) :
  exists new s',
    safe_start_ingest W event s = (Ok tt, s')
    /\ trace s' = trace s ++ new
    /\ Forall (fun e => is_loop_effect e = false) new
    /\ ingest_status s' = IDLE
    /\ db s'
       = uploading_db event (status_after (fst (ingest W event false s)))
           (db s).
Proof.
  assert (Hremote : forall mid, Forall is_remote mid ->
            Forall (fun e => is_loop_effect e = false) mid).
  { intros mid. apply Forall_impl. intros [] H; try destruct H; reflexivity. }
  assert (Hbegin : Forall (fun e => is_loop_effect e = false)
                          (begin_events event)).
  { unfold begin_events.
    repeat (apply Forall_cons; [vm_compute; reflexivity|]).
    apply Forall_nil. }
  assert (Hfin : Forall (fun e => is_loop_effect e = false)
                        (finish_events W event)).
  { unfold finish_events. destruct (delete_after_upload W); cbn [app];
      repeat (apply Forall_cons; [vm_compute; reflexivity|]);
      apply Forall_nil. }
  assert (Hfail : Forall (fun e => is_loop_effect e = false)
                         (failure_events event)).
  { unfold failure_events.
    repeat (apply Forall_cons; [vm_compute; reflexivity|]).
    apply Forall_nil. }
  assert (Hclean : Forall (fun e => is_loop_effect e = false)
                          (cleanup_events event)).
  { unfold cleanup_events.
    repeat (apply Forall_cons; [vm_compute; reflexivity|]).
    apply Forall_nil. }
  unfold safe_start_ingest, try_except.
  destruct (ingest W event false s) as [[[]|e] s1] eqn:Hrun; cbn [fst].
  - apply ingest_ok in Hrun
      as (? & mid & ? & ? & ? & ? & ? & _ & Ht & Hmid & _ & _ & _ & _
          & Hdb & Hst).
    rewrite uploading_db_twice in Hdb.
    eexists _, s1. split; [reflexivity|]. split; [exact Ht|].
    split; [|split; assumption].
    apply Forall_app. split; [exact Hbegin|].
    constructor; [reflexivity|]. apply Forall_app. split; [auto|].
    constructor; [reflexivity|]. exact Hfin.
  - unfold bind, recording_state, update_event_status,
      set_service_status_immediate, emit.
    cbn [trace db ingest_status snd fst status_after].
    fold (uploading_db event FAILED_UPLOADING (db s1)).
    apply ingest_err in Hrun
      as (_ & mid & Hmid & [[Ht Hdb]|(Ht & Hdb & _)]);
      rewrite Hdb, ?uploading_db_twice, Ht.
    + exists (begin_events event
              ++ ServiceLookup (py "ingest") true :: mid
              ++ failure_events event).
      eexists. split; [reflexivity|]. cbn [trace db ingest_status].
      split; [unfold failure_events;
              repeat (rewrite <- app_assoc; cbn [app]); reflexivity|].
      split; [|split; reflexivity].
      apply Forall_app. split; [exact Hbegin|].
      constructor; [reflexivity|]. apply Forall_app. split; [auto|].
      exact Hfail.
    + exists (begin_events event
              ++ ServiceLookup (py "ingest") true :: mid
              ++ cleanup_events event ++ failure_events event).
      eexists. split; [reflexivity|]. cbn [trace db ingest_status].
      split; [unfold failure_events;
              repeat (rewrite <- app_assoc; cbn [app]); reflexivity|].
      split; [|split; reflexivity].
      apply Forall_app. split; [exact Hbegin|].
      constructor; [reflexivity|]. apply Forall_app. split; [auto|].
      apply Forall_app. split; [exact Hclean|exact Hfail].
Qed.

(** X10: whatever happens during the upload, [safe_start_ingest] returns
    and leaves the ingest service [IDLE] and the event stored as
    [FINISHED_UPLOADING] when [ingest] returned, as [FAILED_UPLOADING]
    when it raised. *)
Theorem safe_start_ingest_outcome (W : World) (event : RecordedEvent)
  (s : State) :
  exists s',
    safe_start_ingest W event s = (Ok tt, s')
    /\ ingest_status s' = IDLE
    /\ db s'
       = uploading_db event
           (match fst (ingest W event false s) with
            | Ok _ => FINISHED_UPLOADING
            | Err _ => FAILED_UPLOADING
            end) (db s).
Proof.
  destruct (safe_start_ingest_run W event s)
    as (new & s' & Hrun & _ & _ & Hst & Hdb).
  exists s'. split; [exact Hrun|]. split; [exact Hst|exact Hdb].
Qed.

Lemma safe_start_ingest_outcome_witness :
  ingest_status (snd (safe_start_ingest Run.failing Run.lecture
                                        (Run.start [Run.lecture]))) = IDLE.
Proof.
  destruct (safe_start_ingest_outcome Run.failing Run.lecture
              (Run.start [Run.lecture])) as (s' & Hrun & Hst & _).
  rewrite Hrun. exact Hst.
Defined.

Lemma pending_after_update (event : RecordedEvent) (st : Status)
  (events : list RecordedEvent) :
  st <> FINISHED_RECORDING ->
  (List.length (pending (uploading_db event st events))
   <= List.length (pending events))%nat
  /\ (forall e, In e (pending (uploading_db event st events)) ->
                uid e <> uid event)
  /\ (forall e, In e events -> uid e = uid event ->
                status e = FINISHED_RECORDING ->
                (List.length (pending (uploading_db event st events))
                 < List.length (pending events))%nat).
Proof.
  intros Hst.
  assert (Hno : Status_eqb st FINISHED_RECORDING = false)
    by (destruct st; congruence || reflexivity).
  unfold pending, uploading_db.
  induction events as [|x events (IHle & IHin & IHlt)].
  - cbn. split; [lia|]. split; [contradiction|contradiction].
  - cbn [map filter].
    destruct (Py.str_eqb (uid x) (uid event)) eqn:Hx; cbn [status set_status].
    + rewrite Hno.
      split; [|split].
      * destruct (Status_eqb (status x) FINISHED_RECORDING);
          cbn [List.length]; lia.
      * exact IHin.
      * intros e [->|Hin] He Hs.
        -- rewrite Hs. cbn [Status_eqb List.length]. lia.
        -- specialize (IHlt e Hin He Hs).
           destruct (Status_eqb (status x) FINISHED_RECORDING);
             cbn [List.length]; lia.
    + destruct (Status_eqb (status x) FINISHED_RECORDING);
        cbn [List.length]; (split; [lia|split]).
      * intros e [<-|Hin]; [|now apply IHin].
        intros H. rewrite H in Hx.
        assert (Hr : Py.str_eqb (uid event) (uid event) = true)
          by now apply str_eqb_eq.
        congruence.
      * intros e [->|Hin] He Hs.
        -- apply (proj2 (str_eqb_eq _ _)) in He. congruence.
        -- specialize (IHlt e Hin He Hs). lia.
      * exact IHin.
      * intros e [->|Hin] He Hs.
        -- apply (proj2 (str_eqb_eq _ _)) in He. congruence.
        -- now apply (IHlt e).
Qed.

(** X11: an upload is not tried again by itself: after
    [safe_start_ingest], no event with the identifier of the uploaded one
    waits for its upload, so the query of the control loop does not
    return it any more, and when the uploaded event was waiting in the
    database the number of waiting recordings has gone down. *)
Theorem safe_start_ingest_takes_event_off (W : World)
  (event : RecordedEvent) (s : State) :
  let s' := snd (safe_start_ingest W event s) in
  (forall e, In e (pending (db s')) -> uid e <> uid event)
  /\ (forall e, fst (query_first s') = Ok (Some e) -> uid e <> uid event)
  /\ (In event (db s) -> status event = FINISHED_RECORDING ->
      (List.length (pending (db s')) < List.length (pending (db s)))%nat).
Proof.
  cbv zeta.
  destruct (safe_start_ingest_run W event s)
    as (new & s' & Hrun & _ & _ & _ & Hdb).
  rewrite Hrun. cbn [snd]. rewrite Hdb.
  set (st := status_after (fst (ingest W event false s))).
  assert (Hst : st <> FINISHED_RECORDING)
    by (subst st; destruct (fst (ingest W event false s)); discriminate).
  destruct (pending_after_update event st (db s) Hst) as (_ & Hin & Hlt).
  split; [exact Hin|]. split.
  - intros e He. apply Hin. unfold query_first in He. cbn [fst] in He.
    injection He as He. rewrite Hdb in He. apply find_some in He as [H1 H2].
    unfold pending. apply filter_In. now split.
  - intros Hev Hs. now apply (Hlt event).
Qed.

Lemma safe_start_ingest_takes_event_off_witness :
  (List.length
     (pending (db (snd (safe_start_ingest Run.failing Run.lecture
                                          (Run.start [Run.lecture])))))
   < List.length (pending [Run.lecture]))%nat.
Proof.
  apply (proj2 (proj2 (safe_start_ingest_takes_event_off
                         Run.failing Run.lecture
                         (Run.start [Run.lecture])))).
  - now left.
  - reflexivity.
Defined.

(** ** The control loop as a whole *)

Lemma count_app (p : Effect -> bool) (a b : Trace) :
  count p (a ++ b) = (count p a + count p b)%nat.
Proof. unfold count. now rewrite filter_app, length_app. Qed.

Lemma count_none (p : Effect -> bool) (t : Trace) :
  Forall (fun e => p e = false) t -> count p t = 0%nat.
Proof.
  unfold count. induction 1 as [|e t He _ IH]; [reflexivity|].
  cbn [filter]. now rewrite He.
Qed.

Lemma count_upload (t : Trace) :
  Forall (fun e => is_loop_effect e = false) t ->
  count opens_session t = 0%nat
  /\ count closes_session t = 0%nat
  /\ count is_watchdog t = 0%nat.
Proof.
  intros H. repeat split; apply count_none; revert H; apply Forall_impl;
    intros e; unfold is_loop_effect;
    destruct (opens_session e), (closes_session e), (is_watchdog e),
      (is_sleep e); cbn; congruence.
Qed.

Lemma pause_upload (W : World) (t : Trace) :
  Forall (fun e => is_loop_effect e = false) t -> Forall (is_pause W) t.
Proof.
  apply Forall_impl. intros []; try (intros; exact I).
  discriminate.
Qed.

Lemma find_pending (events : list RecordedEvent) :
  find (fun e => Status_eqb (status e) FINISHED_RECORDING) events
  = hd_error (pending events).
Proof.
  unfold pending. induction events as [|e events IH]; [reflexivity|].
  cbn [find filter]. now destruct (Status_eqb _ _).
Qed.

Lemma randint_run (W : World) (lo hi : Z) (s : State) :
  (lo <= hi)%Z ->
  exists delay,
    randint W lo hi s = (Ok delay, s) /\ (lo <= delay <= hi)%Z.
Proof.
  intros Hle. unfold randint, randrange.
  destruct (Z.ltb_spec lo (hi + 1)) as [_|H]; [|lia].
  eexists. split; [reflexivity|].
  pose proof (Z.mod_pos_bound (Z.of_N (random W (trace s)))
                (hi + 1 - lo)). lia.
Qed.

(** One pass of the loop, in the mode that the delays select. A pass
    raises only from [time.sleep]: before the upload, with the session
    open, or at the end of the pass. *)
Lemma pass_cases (W : World) (s : State) :
  exists new s' r,
    loop_body W (delay_max W >=? delay_min W)%Z s = (r, s')
    /\ trace s' = trace s ++ new
    /\ count is_watchdog new = 1%nat
    /\ (ingest_status s = IDLE -> ingest_status s' = IDLE)
    /\ Forall (is_pause W) new
    /\ match r with
       | Ok _ =>
           count opens_session new = count closes_session new
           /\ ((delay_max W < delay_min W)%Z
               \/ pending (db s) = []
               \/ (0 <= delay_max W /\ delay_min W <= sleep_max)%Z)
       | Err e =>
           ((delay_min W <= delay_max W)%Z
            /\ count opens_session new = S (count closes_session new)
            /\ db s' = db s
            /\ exists event delay,
                hd_error (pending (db s)) = Some event
                /\ new = pass_start event
                /\ (delay_min W <= delay <= delay_max W)%Z
                /\ sleep_raises W (trace s') delay e)
           \/ (count opens_session new = count closes_session new
               /\ time_sleep W (trace s') 1 = Err e
               /\ ((delay_max W < delay_min W)%Z
                   \/ pending (db s) = []
                   \/ (0 <= delay_max W /\ delay_min W <= sleep_max)%Z))
       end.
Proof.
  destruct (Z.geb_spec (delay_max W) (delay_min W)) as [Hle|Hlt].
  - unfold loop_body, bind at 1 2 3 4, notify, emit, query_first.
    cbn [with_trace trace db ingest_status].
    rewrite find_pending.
    destruct (hd_error (pending (db s))) as [event|] eqn:Hfind.
    + unfold bind at 1 2 3, config, ret, emit, bind at 1 2.
      cbn [with_trace trace db ingest_status option_map].
      unfold bind at 1.
      match goal with
      | |- context [randint W ?a ?b ?s0] =>
          destruct (randint_run W a b s0) as (delay & Hrand & Hd);
          [lia|rewrite Hrand]
      end.
      unfold bind at 1.
      match goal with
      | |- context [sleep W delay ?s0] =>
          pose proof (sleep_run W delay s0) as Hsleep;
          destruct (sleep W delay s0) as [[[]|e] s2]
      end.
      * destruct Hsleep as (-> & Hrange & _).
        match goal with
        | |- context [safe_start_ingest W event ?s2] =>
            destruct (safe_start_ingest_run W event s2)
              as (up & s3 & Hsafe & Ht & Hup & Hst & _)
        end.
        unfold bind. rewrite Hsafe. rewrite sleep_one.
        cbn [trace db ingest_status with_trace] in *.
        destruct (count_upload up Hup) as (Ho & Hc & Hw).
        assert (Hstart : Forall (is_pause W)
                           (pass_start event ++ [Sleep delay])).
        { unfold pass_start. cbn [app].
          repeat (apply Forall_cons; [exact I|]).
          apply Forall_cons; [right; lia|apply Forall_nil]. }
        destruct (time_sleep W (trace s3 ++ [SessionClose]) 1)
          as [[]|e] eqn:Hone.
        -- exists ((pass_start event ++ [Sleep delay]) ++ up
                   ++ [SessionClose; Sleep 1]).
           eexists _, _. split; [reflexivity|].
           unfold with_trace. cbn [trace db ingest_status]. rewrite Ht.
           split; [unfold pass_start;
                   repeat (rewrite <- app_assoc; cbn [app]); reflexivity|].
           rewrite !count_app, Ho, Hc, Hw.
           split; [reflexivity|]. split; [auto|]. split.
           { apply Forall_app. split; [exact Hstart|].
             apply Forall_app. split; [now apply pause_upload|].
             apply Forall_cons; [exact I|].
             apply Forall_cons; [now left|apply Forall_nil]. }
           split; [reflexivity|].
           right. right. lia.
        -- exists ((pass_start event ++ [Sleep delay]) ++ up
                   ++ [SessionClose]).
           eexists _, _. split; [reflexivity|].
           unfold with_trace. cbn [trace db ingest_status]. rewrite Ht.
           split; [unfold pass_start;
                   repeat (rewrite <- app_assoc; cbn [app]); reflexivity|].
           rewrite !count_app, Ho, Hc, Hw.
           split; [reflexivity|]. split; [auto|]. split.
           { apply Forall_app. split; [exact Hstart|].
             apply Forall_app. split; [now apply pause_upload|].
             apply Forall_cons; [exact I|apply Forall_nil]. }
           right. split; [reflexivity|]. rewrite <- Ht.
           split; [exact Hone|]. right. right. lia.
      * destruct Hsleep as (-> & Hwhy).
        exists (pass_start event). eexists _, _.
        split; [reflexivity|]. unfold with_trace.
        cbn [trace db ingest_status].
        split; [unfold pass_start; rewrite <- !app_assoc; reflexivity|].
        split; [reflexivity|]. split; [auto|].
        split; [repeat constructor|].
        left. split; [lia|]. split; [reflexivity|]. split; [reflexivity|].
        exists event, delay. split; [reflexivity|].
        split; [reflexivity|]. split; [lia|]. exact Hwhy.
    + unfold bind, ret, emit. cbn [option_map trace db ingest_status].
      rewrite sleep_one. cbn [trace db ingest_status with_trace].
      match goal with
      | |- context [time_sleep W ?t 1] =>
          destruct (time_sleep W t 1) as [[]|e] eqn:Hone
      end.
      * exists [Notify (py "WATCHDOG=1"); GetSession; Query None;
                SessionClose; Sleep 1].
        eexists _, _. split; [reflexivity|].
        unfold with_trace. cbn [trace db ingest_status].
        split; [rewrite <- !app_assoc; reflexivity|].
        split; [reflexivity|]. split; [auto|].
        split; [repeat constructor; now left|].
        split; [reflexivity|]. right. left.
        destruct (pending (db s)); [reflexivity|discriminate].
      * exists [Notify (py "WATCHDOG=1"); GetSession; Query None;
                SessionClose].
        eexists _, _. split; [reflexivity|].
        unfold with_trace. cbn [trace db ingest_status].
        split; [rewrite <- !app_assoc; reflexivity|].
        split; [reflexivity|]. split; [auto|].
        split; [repeat constructor|].
        right. split; [reflexivity|]. split; [exact Hone|]. right. left.
        destruct (pending (db s)); [reflexivity|discriminate].
  - rewrite manual_pass.
    destruct (time_sleep W (trace s ++ [Notify (py "WATCHDOG=1")]) 1)
      as [[]|e] eqn:Hone.
    + exists heartbeat. eexists _, _. split; [reflexivity|].
      unfold with_trace. cbn [trace db ingest_status].
      split; [reflexivity|]. split; [reflexivity|]. split; [auto|].
      split; [repeat constructor; now left|].
      split; [reflexivity|]. left. lia.
    + exists [Notify (py "WATCHDOG=1")]. eexists _, _.
      split; [reflexivity|]. unfold with_trace.
        cbn [trace db ingest_status].
      split; [reflexivity|]. split; [reflexivity|]. split; [auto|].
      split; [repeat constructor|].
      right. split; [reflexivity|]. split; [exact Hone|]. left. lia.
Qed.

(** The loop, in the mode that the delays select. *)
Lemma loop_cases (W : World) (fuel : nat) :
  forall s, ingest_status s = IDLE ->
  exists new s' r,
    while_not_terminate W fuel
      (loop_body W (delay_max W >=? delay_min W)%Z) s = (r, s')
    /\ trace s' = trace s ++ new
    /\ ingest_status s' = IDLE
    /\ Forall (is_pause W) new
    /\ match r with
       | Ok exited =>
           count opens_session new = count closes_session new
           /\ (if exited then terminate W (trace s') = true
               else count is_watchdog new = fuel)
       | Err e =>
           ((delay_min W <= delay_max W)%Z
            /\ count opens_session new = S (count closes_session new)
            /\ exists before event delay,
                hd_error (pending (db s')) = Some event
                /\ new = before ++ pass_start event
                /\ (delay_min W <= delay <= delay_max W)%Z
                /\ sleep_raises W (trace s') delay e)
           \/ (count opens_session new = count closes_session new
               /\ time_sleep W (trace s') 1 = Err e)
       end.
Proof.
  induction fuel as [|fuel IH]; intros s Hidle.
  - exists [], s, (Ok false). cbn [while_not_terminate ret].
    rewrite app_nil_r. repeat split; [exact Hidle|constructor].
  - cbn [while_not_terminate].
    destruct (terminate W (trace s)) eqn:Hterm.
    + exists [], s, (Ok true). rewrite app_nil_r.
      repeat split; try assumption. constructor.
    + unfold bind.
      destruct (pass_cases W s)
        as (new & s1 & r & Hpass & Ht & Hw & Hst & Hnap & Hr).
      rewrite Hpass. destruct r as [[]|e].
      * destruct (IH s1 (Hst Hidle))
          as (new' & s2 & r' & Hloop & Ht' & Hst' & Hnap' & Hr').
        exists (new ++ new'), s2, r'. rewrite Hloop.
        split; [reflexivity|]. rewrite Ht', Ht, <- app_assoc.
        split; [reflexivity|]. split; [exact Hst'|].
        split; [apply Forall_app; now split|].
        destruct Hr as (Hbal & _). rewrite !count_app.
        destruct r' as [exited|e'].
        -- destruct Hr' as (Hbal' & Hexit). split; [lia|].
           destruct exited; [now rewrite app_assoc, <- Ht, <- Ht'|].
           lia.
        -- destruct Hr'
             as [(Hle & Hbal' & before & event & delay & Hev & -> & Hd
                  & Hwhy)|(Hbal' & Hone)].
           ++ left. split; [exact Hle|]. split; [lia|].
              exists (new ++ before), event, delay.
              split; [exact Hev|]. split; [now rewrite <- app_assoc|].
              split; [exact Hd|].
              rewrite Ht', Ht, <- app_assoc in Hwhy. exact Hwhy.
           ++ right. split; [lia|].
              rewrite Ht', Ht, <- app_assoc in Hone. exact Hone.
      * exists new, s1, (Err e). split; [reflexivity|].
        split; [exact Ht|]. split; [auto|]. split; [exact Hnap|].
        destruct Hr
          as [(Hle & Hbal & Hdb & event & delay & Hev & -> & Hd & Hwhy)
             |(Hbal & Hone & _)].
        -- left. split; [exact Hle|]. split; [exact Hbal|].
           exists [], event, delay. rewrite Hdb.
           split; [exact Hev|]. split; [reflexivity|].
           split; [exact Hd|exact Hwhy].
        -- right. split; [exact Hbal|exact Hone].
Qed.

Lemma control_loop_cases (W : World) (fuel : nat) (s : State) :
  exists new s' r,
    control_loop W fuel s = (r, s')
    /\ trace s' = trace s ++ startup_events ++ new
    /\ Forall (is_pause W) new
    /\ match r with
       | Ok true =>
           ingest_status s' = STOPPED
           /\ exists before,
               new = before ++ [SetServiceStatus INGEST STOPPED]
               /\ terminate W (trace s ++ startup_events ++ before) = true
               /\ count opens_session before = count closes_session before
       | Ok false =>
           ingest_status s' = IDLE
           /\ count opens_session new = count closes_session new
           /\ count is_watchdog new = fuel
       | Err e =>
           ingest_status s' = IDLE
           /\ (((delay_min W <= delay_max W)%Z
                /\ count opens_session new = S (count closes_session new)
                /\ exists before event delay,
                    hd_error (pending (db s')) = Some event
                    /\ new = before ++ pass_start event
                    /\ (delay_min W <= delay <= delay_max W)%Z
                    /\ sleep_raises W (trace s') delay e)
               \/ (count opens_session new = count closes_session new
                   /\ time_sleep W (trace s') 1 = Err e))
       end.
Proof.
  rewrite control_loop_startup. unfold bind.
  match goal with
  | |- context [while_not_terminate W fuel _ ?s1] =>
      destruct (loop_cases W fuel s1 eq_refl)
        as (new & s' & r & Hloop & Ht & Hst & Hnap & Hr)
  end.
  rewrite Hloop. cbn [trace] in Ht. destruct r as [[]|e].
  - destruct Hr as (Hbal & Hterm).
    eexists (new ++ [SetServiceStatus INGEST STOPPED]), _, (Ok true).
    unfold set_service_status, ret. split; [reflexivity|].
    cbn [trace ingest_status]. rewrite Ht, <- !app_assoc.
    split; [reflexivity|].
    split; [apply Forall_app; split; [exact Hnap|repeat constructor]|].
    split; [reflexivity|].
    exists new. split; [reflexivity|].
    rewrite Ht, <- app_assoc in Hterm. split; assumption.
  - destruct Hr as (Hbal & Hw).
    exists new, s', (Ok false). unfold ret. split; [reflexivity|].
    rewrite Ht, <- app_assoc. repeat split; assumption.
  - exists new, s', (Err e). split; [reflexivity|].
    rewrite Ht, <- app_assoc. split; [reflexivity|]. split; [exact Hnap|].
    split; [exact Hst|]. rewrite Ht, <- app_assoc in Hr. exact Hr.
Qed.

(** X12: when the platform refuses no pause and the delays are not
    negative and not too long for [time.sleep], or automatic ingest is
    off, the control loop never raises, whatever the server answers and
    however the uploads end, the removal of a directory included. After
    any number of passes, either [terminate()] has been true and the
    loop has returned, or that many passes have been made and the loop
    goes on; every session that has been opened is closed. *)
Theorem control_loop_survives_uploads (W : World) (fuel : nat) (s : State) :
  sleeps W ->
  (0 <= delay_min W /\ delay_max W <= sleep_max)%Z
  \/ (delay_max W < delay_min W)%Z ->
  exists exited s' new,
    control_loop W fuel s = (Ok exited, s')
    /\ trace s' = trace s ++ new
    /\ count opens_session new = count closes_session new
    /\ (if exited : bool
        then exists before,
            new = before ++ [SetServiceStatus INGEST STOPPED]
            /\ terminate W (trace s ++ before) = true
        else count is_watchdog new = fuel).
Proof.
  intros Hsleeps Hdelay.
  pose proof (eq_refl : sleep_max = 9223372036%Z) as Hmax.
  destruct (control_loop_cases W fuel s)
    as (new & s' & r & Hrun & Ht & _ & Hr).
  destruct r as [[]|e].
  - destruct Hr as (_ & before & -> & Hterm & Hbal).
    exists true, s', (startup_events ++ before
                      ++ [SetServiceStatus INGEST STOPPED]).
    split; [exact Hrun|]. split; [exact Ht|].
    split; [rewrite !count_app, Hbal; reflexivity|].
    exists (startup_events ++ before).
    split; [now rewrite <- app_assoc|exact Hterm].
  - destruct Hr as (_ & Hbal & Hw).
    exists false, s', (startup_events ++ new).
    split; [exact Hrun|]. split; [exact Ht|].
    split; [rewrite !count_app, Hbal; reflexivity|].
    rewrite count_app, Hw. reflexivity.
  - exfalso.
    destruct Hr as (_ & [(Hle & _ & before & event & delay & _ & _ & Hd
                          & Hwhy)|(_ & Hone)]).
    + destruct Hwhy as [(_ & H)|[(_ & H)|(Hrange & H)]]; try lia.
      rewrite (Hsleeps _ _ (or_intror Hd) Hrange) in H. discriminate.
    + rewrite Hsleeps in Hone by (try left; lia). discriminate.
Qed.

Lemma control_loop_survives_uploads_witness :
  exists exited s' new,
    control_loop Run.locked 3 (Run.start [Run.lecture]) = (Ok exited, s')
    /\ trace s' = trace (Run.start [Run.lecture]) ++ new
    /\ count opens_session new = count closes_session new
    /\ (if exited : bool
        then exists before,
            new = before ++ [SetServiceStatus INGEST STOPPED]
            /\ terminate Run.locked
                 (trace (Run.start [Run.lecture]) ++ before) = true
        else count is_watchdog new = 3%nat).
Proof.
  apply (control_loop_survives_uploads Run.locked 3
           (Run.start [Run.lecture])).
  - intros t seconds _ _. reflexivity.
  - left. cbn [delay_min delay_max Run.locked]. unfold sleep_max. lia.
Defined.

(** X13: when the control loop returns after leaving its [while] loop,
    [terminate()] was true on the last test, the last thing done is
    [set_service_status(Service.INGEST, ServiceStatus.STOPPED)], the
    service is left [STOPPED] and every session that was opened has been
    closed. *)
Theorem control_loop_shutdown (W : World) (fuel : nat) (s s' : State) :
  control_loop W fuel s = (Ok true, s') ->
  ingest_status s' = STOPPED
  /\ exists before,
      trace s' = trace s ++ before ++ [SetServiceStatus INGEST STOPPED]
      /\ terminate W (trace s ++ before) = true
      /\ count opens_session before = count closes_session before.
Proof.
  intros Hrun.
  destruct (control_loop_cases W fuel s)
    as (new & s1 & r & Hrun' & Ht & _ & Hr).
  rewrite Hrun in Hrun'. inversion Hrun'; subst r s1; clear Hrun'.
  destruct Hr as (Hst & before & -> & Hterm & Hbal).
  split; [exact Hst|]. exists (startup_events ++ before).
  rewrite Ht, <- !app_assoc. split; [reflexivity|].
  split; [exact Hterm|]. rewrite count_app, Hbal. reflexivity.
Qed.

Lemma control_loop_shutdown_witness :
  ingest_status (snd (control_loop (Run.calm 1) 3 (Run.start [Run.lecture])))
  = STOPPED.
Proof.
  apply (control_loop_shutdown (Run.calm 1) 3 (Run.start [Run.lecture])).
  vm_compute. reflexivity.
Defined.

(** X14: an exception that escapes the control loop has been raised by
    [time.sleep], never by an upload. Either it is the pause before an
    upload that has raised, for a delay drawn between [delay_min] and
    [delay_max]: [OverflowError] for a delay that does not fit in 64
    bits of nanoseconds, [ValueError] for a negative one, or the refusal
    of the platform; the upload has not started, the recording still
    waits and the session of that pass is left open. Or the platform has
    refused the pause of one second that ends a pass. In both cases the
    service stays registered as [IDLE], never [STOPPED]. When the
    platform refuses no pause, the exception is [ValueError] with
    [delay_min] below zero, or [OverflowError] with a delay out of the
    range of [time.sleep]. *)
Theorem control_loop_raises_only_from_sleep (W : World)
  (fuel : nat) (s s' : State) (e : exn) :
  control_loop W fuel s = (Err e, s') ->
  ingest_status s' = IDLE
  /\ (exists new,
        trace s' = trace s ++ new
        /\ (((delay_min W <= delay_max W)%Z
             /\ count opens_session new = S (count closes_session new)
             /\ exists before event delay,
                 hd_error (pending (db s')) = Some event
                 /\ new = before ++ pass_start event
                 /\ (delay_min W <= delay <= delay_max W)%Z
                 /\ sleep_raises W (trace s') delay e)
            \/ (count opens_session new = count closes_session new
                /\ time_sleep W (trace s') 1 = Err e)))
  /\ (sleeps W ->
      (e = ValueError /\ (delay_min W < 0)%Z)
      \/ (e = OverflowError
          /\ (delay_min W < - sleep_max \/ sleep_max < delay_max W)%Z)).
Proof.
  intros Hrun.
  pose proof (eq_refl : sleep_max = 9223372036%Z) as Hmax.
  destruct (control_loop_cases W fuel s)
    as (new & s1 & r & Hrun' & Ht & _ & Hr).
  rewrite Hrun in Hrun'. inversion Hrun'; subst r s1; clear Hrun'.
  destruct Hr as (Hst & Hcases). split; [exact Hst|]. split.
  - exists (startup_events ++ new). split; [exact Ht|].
    destruct Hcases
      as [(Hle & Hbal & before & event & delay & Hev & -> & Hd & Hwhy)
         |(Hbal & Hone)].
    + left. split; [exact Hle|].
      split; [rewrite count_app, (count_app closes_session), Hbal;
              reflexivity|].
      exists (startup_events ++ before), event, delay.
      split; [exact Hev|]. split; [now rewrite <- app_assoc|].
      split; [exact Hd|exact Hwhy].
    + right. split; [|exact Hone].
      rewrite count_app, (count_app closes_session), Hbal. reflexivity.
  - intros Hsleeps.
    destruct Hcases
      as [(Hle & _ & before & event & delay & _ & _ & Hd & Hwhy)
         |(_ & Hone)].
    + destruct Hwhy as [(-> & H)|[(-> & H)|(Hrange & H)]].
      * right. split; [reflexivity|]. lia.
      * left. split; [reflexivity|]. lia.
      * rewrite (Hsleeps _ _ (or_intror Hd) Hrange) in H. discriminate.
    + rewrite Hsleeps in Hone by (try left; lia). discriminate.
Qed.

Lemma control_loop_raises_only_from_sleep_witness :
  ingest_status (snd (control_loop hasty 3 (Run.start [Run.lecture]))) = IDLE
  /\ fst (control_loop patient 3 (Run.start [Run.lecture]))
     = Err OverflowError
  /\ (sleep_max < delay_max patient)%Z.
Proof.
  split; [|split].
  - apply (control_loop_raises_only_from_sleep hasty 3
             (Run.start [Run.lecture]) _ ValueError).
    vm_compute. reflexivity.
  - vm_compute. reflexivity.
  - assert (Hrun : control_loop patient 3 (Run.start [Run.lecture])
                   = (Err OverflowError,
                      snd (control_loop patient 3
                                        (Run.start [Run.lecture]))))
      by (vm_compute; reflexivity).
    assert (Hsleeps : sleeps patient)
      by (intros t seconds _ _; reflexivity).
    destruct (proj2 (proj2 (control_loop_raises_only_from_sleep
                              patient 3 (Run.start [Run.lecture]) _ _
                              Hrun)) Hsleeps)
      as [(H & _)|(_ & [H|H])].
    + discriminate H.
    + cbn [delay_min patient] in H. unfold sleep_max in H. lia.
    + exact H.
Defined.

(** X15: with both delays below zero and [delay_max >= delay_min], the
    control loop dies on its first pass as soon as a recording waits for
    its upload: [time.sleep] raises before [safe_start_ingest] is
    called, and the database is left as it was. The exception is
    [ValueError] when the delays fit in 64 bits of nanoseconds,
    [OverflowError] when they do not. *)
Theorem negative_delay_stops_loop (W : World) (fuel : nat) (s : State)
  (event : RecordedEvent) :
  (delay_min W <= delay_max W)%Z ->
  (delay_max W < 0)%Z ->
  hd_error (pending (db s)) = Some event ->
  terminate W (trace s ++ startup_events) = false ->
  exists e,
    control_loop W (S fuel) s
    = (Err e,
       {| trace := trace s ++ startup_events ++ pass_start event;
          db := db s;
          ingest_status := IDLE |})
    /\ (e = ValueError \/ e = OverflowError)
    /\ ((- sleep_max <= delay_min W)%Z -> e = ValueError)
    /\ ((delay_max W < - sleep_max)%Z -> e = OverflowError).
Proof.
  intros Hle Hneg Hev Hterm.
  pose proof (eq_refl : sleep_max = 9223372036%Z) as Hmax.
  rewrite control_loop_startup. unfold bind at 1.
  cbn [while_not_terminate trace]. rewrite Hterm. unfold bind at 1.
  match goal with
  | |- context [loop_body W _ ?s1] =>
      destruct (pass_cases W s1)
        as (new & s' & r & Hpass & Ht & _ & Hst & _ & Hr)
  end.
  rewrite Hpass. cbn [trace db ingest_status] in *.
  assert (Hno : ~ ((delay_max W < delay_min W)%Z
                   \/ pending (db s) = []
                   \/ (0 <= delay_max W /\ delay_min W <= sleep_max)%Z)).
  { intros [H|[H|H]]; [lia| |lia]. rewrite H in Hev. discriminate. }
  destruct r as [[]|e].
  - destruct Hr as (_ & H). contradiction.
  - destruct Hr
      as [(_ & _ & Hdb & event' & delay & Hev' & -> & Hd & Hwhy)
         |(_ & _ & H)]; [|contradiction].
    rewrite Hev in Hev'. inversion Hev'; subst event'.
    exists e. split.
    + f_equal. destruct s' as [t d i]. cbn in *. subst.
      rewrite (Hst eq_refl), <- app_assoc. reflexivity.
    + destruct Hwhy as [(-> & H)|[(-> & H)|(Hrange & H)]].
      * split; [now right|]. split; [intros; lia|reflexivity].
      * split; [now left|]. split; [reflexivity|intros; lia].
      * lia.
Qed.

Lemma negative_delay_stops_loop_witness :
  fst (control_loop hasty 1 (Run.start [Run.lecture])) = Err ValueError.
Proof.
  destruct (negative_delay_stops_loop hasty 0 (Run.start [Run.lecture])
              Run.lecture) as (e & Hrun & _ & Hvalue & _).
  - cbn [delay_min delay_max hasty]. lia.
  - cbn [delay_max hasty]. lia.
  - reflexivity.
  - reflexivity.
  - rewrite Hrun. cbn [fst]. f_equal. apply Hvalue.
    cbn [delay_min hasty]. unfold sleep_max. lia.
Defined.

(** X20: the control loop only pauses for the second that separates two
    passes, or, before an upload, for a delay that is not negative and
    lies between [delay_min] and [delay_max]. *)
Theorem control_loop_pauses (W : World) (fuel : nat) (s : State)
  (seconds : Z) :
  In (Sleep seconds) (trace (snd (control_loop W fuel s))) ->
  In (Sleep seconds) (trace s)
  \/ seconds = 1%Z
  \/ (0 <= seconds /\ delay_min W <= seconds <= delay_max W)%Z.
Proof.
  destruct (control_loop_cases W fuel s)
    as (new & s' & r & Hrun & Ht & Hnap & _).
  rewrite Hrun. cbn [snd]. rewrite Ht. intros Hin.
  apply in_app_or in Hin as [Hin|Hin]; [now left|right].
  apply in_app_or in Hin as [Hin|Hin].
  - cbn in Hin. repeat destruct Hin as [Hin|Hin];
      try discriminate; contradiction.
  - rewrite Forall_forall in Hnap. exact (Hnap _ Hin).
Qed.

Lemma control_loop_pauses_witness :
  In (Sleep 1)
     (trace (snd (control_loop (Run.calm 1) 3 (Run.start [Run.lecture]))))
  /\ (In (Sleep 1) (trace (Run.start [Run.lecture]))
      \/ 1 = 1
      \/ 0 <= 1 /\ delay_min (Run.calm 1) <= 1 <= delay_max (Run.calm 1))%Z.
Proof.
  assert (Hin : In (Sleep 1)
                   (trace (snd (control_loop (Run.calm 1) 3
                                             (Run.start [Run.lecture]))))).
  { vm_compute. do 2 right. auto 40. }
  split; [exact Hin|].
  exact (control_loop_pauses (Run.calm 1) 3 (Run.start [Run.lecture]) 1
           Hin).
Defined.

(** ** The catalogs *)

Lemma rsplit1_no_sep (c : char) (s : str) :
  ~ In c s -> Py.rsplit1 c s = [s].
Proof.
  induction s as [|x s IH]; intros Hno; [reflexivity|].
  cbn [Py.rsplit1]. rewrite IH by (intros H; apply Hno; now right).
  destruct (N.eqb_spec x c) as [->|Hne]; [|reflexivity].
  exfalso. apply Hno. now left.
Qed.

Lemma rsplit1_last_sep (c : char) (a b : str) :
  ~ In c b -> Py.rsplit1 c (a ++ c :: b) = [a; b].
Proof.
  intros Hno. induction a as [|x a IH]; cbn [app Py.rsplit1].
  - rewrite rsplit1_no_sep by exact Hno. now rewrite N.eqb_refl.
  - now rewrite IH.
Qed.

(** X5: the flavor sent with a catalog is [dublincore/] followed by
    the file name of the attachment up to its last dot: the whole name
    when it has no dot, nothing when the attachment has no file name. The
    catalog itself is sent as the UTF-8 encoding of its text, with the
    current mediapackage. *)
Theorem catalog_flavor (W : World) (service_url : str)
  (w w' : option params) (mp mp' : bytes) (a : Attachment)
  (s s' : State) :
  is_catalog W a = true ->
  attachment_step W service_url (w, mp) a s = (Ok (w', mp'), s') ->
  exists name d payload,
    data a = Some d
    /\ Py.encode_utf8 d = Ok payload
    /\ http_calls (trace s')
       = http_calls (trace s)
         ++ [({| url := service_url ++ py "/addDCCatalog";
                 post_data :=
                   Some [(py "mediaPackage", VBytes mp);
                         (py "flavor", VStr (py "dublincore/" ++ name));
                         (py "dublinCore", VBytes payload)] |},
              Ok mp')]
    /\ match x_apple_filename a with
       | None => name = []
       | Some label =>
           (~ In ch_dot label -> name = label)
           /\ (forall stem ext,
                 label = stem ++ ch_dot :: ext -> ~ In ch_dot ext ->
                 name = stem)
       end.
Proof.
  unfold is_catalog, is_properties, attachment_step.
  destruct (opt_str_eqb (x_apple_filename a) prop); [discriminate|].
  destruct (opt_str_eqb (fmttype a) (py "application/xml"));
    [|discriminate].
  destruct (data a) as [d|]; [|discriminate].
  destruct (Py.contains dcns d); [|discriminate].
  destruct (upload_catalogs W); [|discriminate].
  intros _. unfold bind, config, emit, ret, lift, call_http. simpl.
  destruct (Py.encode_utf8 d) as [payload|e] eqn:Hpayload; [|discriminate].
  match goal with
  | |- context [http_request W ?t ?q] =>
      destruct (http_request W t q) as [answer|e]; [|discriminate]
  end.
  intros H. injection H as <- <- <-. simpl.
  eexists _, d, payload. split; [reflexivity|]. split; [exact Hpayload|].
  split.
  - rewrite !http_calls_app. simpl. rewrite app_nil_r. reflexivity.
  - destruct (x_apple_filename a) as [label|]; [|reflexivity]. split.
    + intros Hno. now rewrite rsplit1_no_sep.
    + intros stem ext -> Hno. now rewrite rsplit1_last_sep.
Qed.

Lemma catalog_flavor_witness :
  exists name payload,
    http_calls (trace (snd (attachment_step (Run.calm 1) Run.base
                              (None, bytes_of "mp") Run.catalog
                              (Run.start []))))
    = http_calls (trace (Run.start []))
      ++ [({| url := Run.base ++ py "/addDCCatalog";
              post_data :=
                Some [(py "mediaPackage", VBytes (bytes_of "mp"));
                      (py "flavor", VStr (py "dublincore/" ++ name));
                      (py "dublinCore", VBytes payload)] |},
           Ok (bytes_of "mp"))]
    /\ name = py "episode".
Proof.
  assert (Hrun : attachment_step (Run.calm 1) Run.base
                   (None, bytes_of "mp") Run.catalog (Run.start [])
                 = (Ok (None, bytes_of "mp"),
                    snd (attachment_step (Run.calm 1) Run.base
                           (None, bytes_of "mp") Run.catalog
                           (Run.start []))))
    by (vm_compute; reflexivity).
  assert (Hcat : is_catalog (Run.calm 1) Run.catalog = true)
    by reflexivity.
  destruct (catalog_flavor _ _ _ _ _ _ _ _ _ Hcat Hrun)
    as (name & d & payload & _ & _ & Hcalls & _ & Hstem).
  exists name, payload. split; [exact Hcalls|].
  apply (Hstem (py "episode") (py "xml")); [reflexivity|].
  vm_compute. intuition discriminate.
Defined.

(** ** Failed calls *)

Lemma stops_ret {A} (a : A) : stops_at_failure (ret a).
Proof.
  intros s. exists []. cbn. rewrite app_nil_r. split; [reflexivity|].
  constructor.
Qed.

Lemma stops_lift {A} (r : Exc A) : stops_at_failure (lift r).
Proof.
  intros s. exists []. cbn. rewrite app_nil_r. split; [reflexivity|].
  destruct r; [constructor|]. exists []. split; [constructor|now left].
Qed.

Lemma stops_raise {A} (e : exn) : stops_at_failure (@raise A e).
Proof. apply (stops_lift (Err e)). Qed.

Lemma stops_emit (e : Effect) : ~ failed e -> stops_at_failure (emit e).
Proof.
  intros He s. exists [e]. cbn. split; [reflexivity|]. now constructor.
Qed.

Lemma stops_bind {A B} (m : M A) (k : A -> M B) :
  stops_at_failure m -> (forall a, stops_at_failure (k a)) ->
  stops_at_failure (bind m k).
Proof.
  intros Hm Hk s. unfold bind.
  destruct (Hm s) as (new & Ht & Hr).
  destruct (m s) as [[a|e] s1]; cbn [fst snd] in *.
  - destruct (Hk a s1) as (new' & Ht' & Hr').
    exists (new ++ new'). rewrite Ht', Ht, app_assoc.
    split; [reflexivity|].
    destruct (fst (k a s1)) as [b|e].
    + now apply clean_app.
    + destruct Hr' as (before & Hc & [->|[req ->]]).
      * exists (new ++ before). split; [now apply clean_app|now left].
      * exists (new ++ before). split; [now apply clean_app|].
        right. exists req. now rewrite app_assoc.
  - exists new. split; assumption.
Qed.

Lemma stops_for_each {A S} (body : S -> A -> M S) (l : list A) :
  (forall acc x, stops_at_failure (body acc x)) ->
  forall acc, stops_at_failure (for_each body l acc).
Proof.
  intros Hbody. induction l as [|x l IH]; intros acc; cbn [for_each].
  - apply stops_ret.
  - apply stops_bind; [apply Hbody|exact IH].
Qed.

Lemma stops_config {A} (key : string) (v : A) :
  stops_at_failure (config key v).
Proof.
  unfold config. apply stops_bind; [|intros; apply stops_ret].
  apply stops_emit. intros [].
Qed.

Lemma stops_call_http (W : World) (u : str)
  (fields : option (list field)) :
  stops_at_failure (call_http W u fields).
Proof.
  intros s. eexists [_]. unfold call_http. cbn [fst snd trace with_trace].
  split; [reflexivity|].
  destruct (http_request W (trace s) _) as [r|e].
  - constructor; [intros []|constructor].
  - exists []. split; [constructor|]. right. eexists. reflexivity.
Qed.

Lemma stops_build (W : World) (service_url : str)
  (event : RecordedEvent) (force_uid : bool) :
  stops_at_failure (build W service_url event force_uid).
Proof.
  unfold build.
  apply stops_bind; [apply stops_call_http|intros mp].
  apply stops_bind;
    [destruct force_uid; [apply stops_lift|apply stops_ret]|intros mp0].
  apply stops_bind.
  - apply stops_for_each. intros [w m] a. unfold attachment_step.
    destruct (opt_str_eqb (x_apple_filename a) prop).
    + destruct (data a); [|apply stops_raise].
      apply stops_bind; [apply stops_lift|intros; apply stops_ret].
    + destruct (opt_str_eqb (fmttype a) (py "application/xml"));
        [|apply stops_ret].
      destruct (data a) as [d|]; [|apply stops_raise].
      destruct (Py.contains dcns d); [|apply stops_ret].
      apply stops_bind; [apply stops_config|intros [|]];
        [|apply stops_ret].
      apply stops_bind; [apply stops_lift|intros payload].
      apply stops_bind; [apply stops_call_http|intros; apply stops_ret].
  - intros acc. apply stops_bind.
    + apply stops_for_each. intros m [flavor track].
      apply stops_call_http.
    + intros m. unfold submit. destruct (fst acc);
        [apply stops_call_http|apply stops_raise].
Qed.

(** How [ingest] goes through its phases. *)
Lemma ingest_phases (W : World) (event : RecordedEvent)
  (force_uid : bool) (s : State) :
  let s0 := {| trace := trace s ++ begin_events event;
               db := uploading_db event UPLOADING (db s);
               ingest_status := BUSY |} in
  let s1 := with_trace s0 (ServiceLookup (py "ingest") true) in
  ingest W event force_uid s
  = match fst (select_service W s0) with
    | Err e => (Err e, s1)
    | Ok service_url =>
        match build W service_url event force_uid s1 with
        | (Ok _, s2) =>
            match cleanup_result W event (trace s2) with
            | Ok _ =>
                (Ok tt,
                 {| trace := trace s2 ++ finish_events W event;
                    db := uploading_db event FINISHED_UPLOADING (db s2);
                    ingest_status := IDLE |})
            | Err e =>
                (Err e,
                 {| trace := trace s2 ++ cleanup_events event;
                    db := uploading_db event FINISHED_UPLOADING (db s2);
                    ingest_status := ingest_status s2 |})
            end
        | (Err e, s2) => (Err e, s2)
        end
    end.
Proof.
  cbv zeta. unfold ingest, bind. rewrite mark_uploading_run.
  destruct (select_service W _) as [[service_url|e] s1] eqn:Hsel;
    apply select_service_run in Hsel as [-> _]; cbn [fst]; [|reflexivity].
  destruct (build W service_url event force_uid _) as [[r|e] s2];
    [|reflexivity].
  apply finish_run.
Qed.

Lemma stops_ingest (W : World) (event : RecordedEvent)
  (force_uid : bool) :
  stops_at_failure (ingest W event force_uid).
Proof.
  intros s. rewrite ingest_phases. cbv zeta.
  destruct (fst (select_service W _)) as [service_url|e].
  - match goal with
    | |- context [build W service_url event force_uid ?s1] =>
        destruct (stops_build W service_url event force_uid s1)
          as (new & Ht & Hr);
        destruct (build W service_url event force_uid s1) as [[r|e] s2]
    end; cbn [fst snd trace with_trace] in *.
    + destruct (cleanup_result W event (trace s2)) as [[]|e];
        cbn [fst snd trace]; eexists; rewrite Ht, <- !app_assoc;
        (split; [reflexivity|]).
      * apply clean_app; [apply clean_begin|].
        apply clean_app; [repeat constructor; intros []|].
        apply clean_app; [exact Hr|apply clean_finish].
      * eexists. split; [|left; reflexivity].
        apply clean_app; [apply clean_begin|].
        apply clean_app; [repeat constructor; intros []|].
        apply clean_app; [exact Hr|apply clean_cleanup].
    + eexists. rewrite Ht, <- !app_assoc. split; [reflexivity|].
      destruct Hr as (before & Hc & [->|[req ->]]).
      * eexists. split; [|left; reflexivity].
        apply clean_app; [apply clean_begin|].
        apply clean_app; [repeat constructor; intros []|exact Hc].
      * exists (begin_events event
                ++ [ServiceLookup (py "ingest") true] ++ before).
        split.
        -- apply clean_app; [apply clean_begin|].
           apply clean_app; [repeat constructor; intros []|exact Hc].
        -- right. exists req. now rewrite <- !app_assoc.
  - cbn [fst snd trace with_trace]. eexists. rewrite <- app_assoc.
    split; [reflexivity|]. eexists. split; [|left; reflexivity].
    apply clean_app; [apply clean_begin|repeat constructor; intros []].
Qed.

Lemma clean_no_failure (before after : Trace) (req : Request) (e : exn) :
  ~ clean (before ++ Http req (Err e) :: after).
Proof.
  intros H. apply Forall_app in H as [_ H]. inversion H; subst.
  match goal with H : ~ failed _ |- _ => apply H end. exact I.
Qed.

(** X16: an upload stops at the first remote call that fails: in every
    run of [ingest], a failed call is the last thing the run does, no
    call before it has failed, and [ingest] raises what that call has
    raised. *)
Theorem ingest_stops_at_first_failure (W : World)
  (event : RecordedEvent) (force_uid : bool) (s s' : State)
  (r : Exc unit) (before after : Trace) (req : Request) (e : exn) :
  ingest W event force_uid s = (r, s') ->
  trace s' = trace s ++ before ++ Http req (Err e) :: after ->
  after = [] /\ r = Err e /\ clean before.
Proof.
  intros Hrun Ht.
  destruct (stops_ingest W event force_uid s) as (new & Ht' & Hr).
  rewrite Hrun in Ht', Hr. cbn [fst snd] in *.
  rewrite Ht in Ht'. apply app_inv_head in Ht'. subst new.
  destruct r as [[]|e'].
  - now apply clean_no_failure in Hr.
  - destruct Hr as (before' & Hc & [H|[req' H]]).
    + rewrite <- H in Hc. now apply clean_no_failure in Hc.
    + destruct after as [|x after] using rev_ind.
      * apply app_inj_tail in H as [-> H]. inversion H; subst.
        now repeat split.
      * clear IHafter. rewrite app_comm_cons, app_assoc in H.
        apply app_inj_tail in H as [<- _].
        now apply clean_no_failure in Hc.
Qed.

Lemma ingest_stops_at_first_failure_witness :
  fst (ingest Run.failing Run.lecture false (Run.start [Run.lecture]))
  = Err (Raised "pycurl.error").
Proof.
  pose (run := ingest Run.failing Run.lecture false
                      (Run.start [Run.lecture])).
  destruct (ingest_stops_at_first_failure Run.failing Run.lecture false
              (Run.start [Run.lecture]) (snd run) (fst run)
              (removelast (trace (snd run))) []
              (catalog_request Run.base Run.catalog (bytes_of "mp"))
              (Raised "pycurl.error"))
    as (_ & Hr & _).
  - vm_compute. reflexivity.
  - vm_compute. reflexivity.
  - exact Hr.
Defined.

(** ** The service that is called *)

Section Endpoints.

Variable W : World.
Variable service_url : str.

Lemma to_service_config_bind {A B} (key : string) (v : A)
  (k : A -> M B) :
  appends (to_service (upload_catalogs W) service_url) (k v) ->
  appends (to_service (upload_catalogs W) service_url)
          (bind (config key v) k).
Proof.
  intros Hk s. unfold bind, config, emit, ret. cbn.
  match goal with
  | |- context [k v ?s1] => destruct (Hk s1) as (new & Ht & Hp & Hd & Hi)
  end.
  exists (Config (py "ingest") (py key) :: new).
  rewrite Ht, Hd, Hi. cbn [trace db ingest_status].
  rewrite <- app_assoc. repeat split. constructor; [exact I|exact Hp].
Qed.

Lemma to_service_call (catalogs : bool) (u : str)
  (fields : option (list field)) :
  is_endpoint catalogs service_url u ->
  appends (to_service catalogs service_url) (call_http W u fields).
Proof.
  intros Hu s. eexists [_]. cbn. repeat split. now constructor.
Qed.

Lemma to_service_build (event : RecordedEvent) (force_uid : bool) :
  appends (to_service (upload_catalogs W) service_url)
          (build W service_url event force_uid).
Proof.
  unfold build.
  apply appends_bind; [apply to_service_call; now left|intros mp].
  apply appends_bind;
    [destruct force_uid; [apply appends_lift|apply appends_ret]
    |intros mp0].
  apply appends_bind.
  - apply appends_for_each. intros [w m] a. unfold attachment_step.
    destruct (opt_str_eqb (x_apple_filename a) prop).
    + destruct (data a); [|apply appends_raise].
      apply appends_bind; [apply appends_lift|intros; apply appends_ret].
    + destruct (opt_str_eqb (fmttype a) (py "application/xml"));
        [|apply appends_ret].
      destruct (data a) as [d|]; [|apply appends_raise].
      destruct (Py.contains dcns d); [|apply appends_ret].
      apply to_service_config_bind.
      destruct (upload_catalogs W) eqn:Hup; [|apply appends_ret].
      apply appends_bind; [apply appends_lift|intros payload].
      apply appends_bind; [|intros; apply appends_ret].
      apply to_service_call. right. left. now split.
  - intros acc. apply appends_bind.
    + apply appends_for_each. intros m [flavor track].
      apply to_service_call. right. right. now left.
    + intros m. unfold submit. destruct (fst acc);
        [|apply appends_raise].
      apply to_service_call. right. right. now right.
Qed.

Lemma to_service_calls (t : Trace) :
  Forall (to_service (upload_catalogs W) service_url) t ->
  Forall (fun c : Call =>
            is_endpoint (upload_catalogs W) service_url (url (fst c)))
         (http_calls t).
Proof.
  induction 1 as [|e t He _ IH]; [constructor|].
  destruct e; cbn [http_calls]; try exact IH.
  constructor; [exact He|exact IH].
Qed.

End Endpoints.

(** X17: all the remote calls of an upload, whether it succeeds or not,
    go to one service, which is one of those the lookup has returned, and
    to no other resource of it than [/createMediaPackage],
    [/addDCCatalog], [/addTrack] and [/ingest]; none goes to
    [/addDCCatalog] when [upload_catalogs] is off. When no service can be
    selected, no remote call is made at all. *)
Theorem ingest_calls_one_service (W : World) (event : RecordedEvent)
  (force_uid : bool) (s : State) :
  exists new,
    trace (snd (ingest W event force_uid s)) = trace s ++ new
    /\ match fst (select_service W (snd (mark_uploading event s))) with
       | Err e =>
           fst (ingest W event force_uid s) = Err e
           /\ http_calls new = []
       | Ok service_url =>
           (exists urls,
               service W (trace s ++ begin_events event) (py "ingest") true
               = Ok urls
               /\ In service_url urls)
           /\ Forall (fun c : Call =>
                        is_endpoint (upload_catalogs W) service_url
                                    (url (fst c)))
                     (http_calls new)
       end.
Proof.
  rewrite ingest_phases, mark_uploading_run. cbv zeta. cbn [snd].
  destruct (select_service W _) as [[service_url|e] s1] eqn:Hsel;
    apply select_service_run in Hsel as [-> Hurl]; cbn [fst].
  - match goal with
    | |- context [build W service_url event force_uid ?s1] =>
        destruct (to_service_build W service_url event force_uid s1)
          as (new & Ht & Hp & _);
        destruct (build W service_url event force_uid s1) as [[r|e] s2]
    end; cbn [fst snd trace with_trace] in *;
      apply to_service_calls in Hp.
    + destruct (cleanup_result W event (trace s2)) as [[]|e];
        cbn [fst snd trace]; eexists; rewrite Ht, <- !app_assoc;
        (split; [reflexivity|]); (split; [exact Hurl|]);
        rewrite !http_calls_app.
      * replace (http_calls (finish_events W event)) with (@nil Call)
          by (unfold finish_events; now destruct (delete_after_upload W)).
        cbn [http_calls begin_events app]. now rewrite app_nil_r.
      * cbn [http_calls begin_events cleanup_events app].
        now rewrite app_nil_r.
    + eexists. rewrite Ht, <- !app_assoc. split; [reflexivity|].
      split; [exact Hurl|].
      rewrite !http_calls_app. exact Hp.
  - cbn [snd trace with_trace]. eexists. rewrite <- app_assoc.
    split; [reflexivity|]. split; [reflexivity|].
    now rewrite http_calls_app.
Qed.

(** ** The properties that count *)

Lemma last_map_some {A} (l : list A) :
  forall b, exists y, last (map Some l) (Some b) = Some y.
Proof.
  induction l as [|x l IH]; intros b; [now exists b|].
  cbn [map]. rewrite last_cons. apply IH.
Qed.

Lemma last_properties_cons (a : Attachment) (atts : list Attachment) :
  last_properties (a :: atts)
  = match last_properties atts with
    | Some b => Some b
    | None => if is_properties a then Some a else None
    end.
Proof.
  unfold last_properties. cbn [filter].
  destruct (is_properties a); [|now destruct (last _ None)].
  cbn [map]. rewrite last_cons.
  destruct (filter is_properties atts) as [|b l]; [reflexivity|].
  cbn [map]. rewrite !last_cons.
  destruct (last_map_some l b) as (y & ->). reflexivity.
Qed.

Lemma attachments_workflow (W : World) (service_url : str)
  (atts : list Attachment) :
  forall w mp s w' mp' s',
    for_each (attachment_step W service_url) atts (w, mp) s
    = (Ok (w', mp'), s') ->
    match last_properties atts with
    | None => w' = w
    | Some a => exists d p, data a = Some d
                            /\ get_config_params d = Ok p
                            /\ w' = Some p
    end
    /\ Forall (fun a => is_properties a = true ->
                        exists d p, data a = Some d
                                    /\ get_config_params d = Ok p) atts.
Proof.
  induction atts as [|a atts IH]; intros w mp s w' mp' s' Hrun.
  - cbv [for_each ret] in Hrun. inversion Hrun; subst. now split.
  - cbn [for_each] in Hrun. unfold bind in Hrun.
    destruct (attachment_step W service_url (w, mp) a s)
      as [[[w1 mp1]|e] s1] eqn:Hstep; cbv beta iota in Hrun;
      [|discriminate].
    apply attachment_step_ok in Hstep as (_ & _ & Hw).
    destruct (IH _ _ _ _ _ _ Hrun) as (Hlast & Hall).
    rewrite last_properties_cons. split.
    + destruct (last_properties atts) as [b|]; [exact Hlast|].
      subst w'. destruct (is_properties a); [exact Hw|exact Hw].
    + constructor; [|exact Hall]. intros Ha. rewrite Ha in Hw.
      destruct Hw as (d & p & Hd & Hp & _). now exists d, p.
Qed.

Lemma build_workflow (W : World) (service_url : str)
  (event : RecordedEvent) (force_uid : bool) (s s' : State) (r : bytes) :
  build W service_url event force_uid s = (Ok r, s') ->
  exists a d w before current,
    last_properties (attach event) = Some a
    /\ data a = Some d
    /\ get_config_params d = Ok w
    /\ trace s'
       = trace s ++ before
         ++ [Http (ingest_request service_url event w current) (Ok r)]
    /\ Forall (fun a => is_properties a = true ->
                        exists d p, data a = Some d
                                    /\ get_config_params d = Ok p)
              (attach event).
Proof.
  unfold build, bind. intros Hrun.
  destruct (call_http W (service_url ++ py "/createMediaPackage") None s)
    as [[r0|e] s0] eqn:Hcreate; [|discriminate].
  apply (appends_run _ _ _ _ _ (appends_call_http W _ _)) in Hcreate
    as (new0 & Ht0 & _).
  destruct ((if force_uid then lift (force_identity W event r0)
             else ret r0) s0) as [[mp0|e] s0'] eqn:Hforce; [|discriminate].
  assert (Hs0 : s0' = s0).
  { destruct force_uid; unfold lift, ret in Hforce;
      now inversion Hforce. }
  subst s0'. clear Hforce.
  destruct (for_each (attachment_step W service_url) (attach event)
                     (None, mp0) s0) as [[[w1 mp1]|e] s1] eqn:Hatt;
    [|discriminate].
  pose proof (appends_run _ _ _ _ _
                (appends_for_each _ _ _
                   (appends_attachment_step W service_url) _) Hatt)
    as (new1 & Ht1 & _).
  apply attachments_workflow in Hatt as (Hlast & Hall).
  cbn [fst snd] in Hrun.
  destruct (for_each (track_step W service_url) (tracks event) mp1 s1)
    as [[mp2|e] s2] eqn:Htracks; [|discriminate].
  apply (appends_run _ _ _ _ _
           (appends_for_each _ _ _ (appends_track_step W service_url) _))
    in Htracks as (new2 & Ht2 & _).
  unfold submit in Hrun.
  destruct (last_properties (attach event)) as [a|];
    [|subst w1; discriminate].
  destruct Hlast as (d & w & Hd & Hw & ->).
  unfold call_http in Hrun. inversion Hrun as [[Hr Hs']].
  exists a, d, w, (new0 ++ new1 ++ new2), mp2.
  repeat split; try assumption.
  cbn [trace with_trace]. rewrite Hr, Ht2, Ht1, Ht0, <- !app_assoc.
  reflexivity.
Qed.

Lemma ingest_fields_explicit (event : RecordedEvent) (wdef : str)
  (cfg : list (str * str)) (current : bytes) :
  ingest_fields event (wdef, cfg) current
  = [(py "mediaPackage", VBytes current)]
    ++ (if Py.truthy wdef
        then [(py "workflowDefinitionId", VStr wdef)] else [])
    ++ (if Py.truthy (uid event)
        then [(py "workflowInstanceId",
               VBytes (Py.encode_ascii_ignore (uid event)))] else [])
    ++ map (fun kv => (fst kv, VStr (snd kv))) cfg.
Proof.
  unfold ingest_fields, config_fields.
  destruct (Py.truthy wdef), (Py.truthy (uid event)); reflexivity.
Qed.

(** X18: when several attachments carry agent properties, the last one
    wins: in an upload that succeeds, the fields sent to [/ingest] are
    the mediapackage, the workflow definition read from the last
    properties attachment when it is not empty, the identifier of the
    event when it is not empty, and the configuration pairs read from
    that same attachment, in this order. Every properties attachment has
    been read without error all the same: a malformed one would have
    stopped the upload even if a later one replaces it. *)
Theorem last_properties_win (W : World) (event : RecordedEvent)
  (force_uid : bool) (s s' : State) :
  ingest W event force_uid s = (Ok tt, s') ->
  exists a d wdef cfg,
    last_properties (attach event) = Some a
    /\ data a = Some d
    /\ get_config_params d = Ok (wdef, cfg)
    /\ (exists before service_url current answer,
          trace s'
          = trace s ++ before
            ++ Http {| url := service_url ++ py "/ingest";
                       post_data :=
                         Some ([(py "mediaPackage", VBytes current)]
                               ++ (if Py.truthy wdef
                                   then [(py "workflowDefinitionId",
                                          VStr wdef)]
                                   else [])
                               ++ (if Py.truthy (uid event)
                                   then [(py "workflowInstanceId",
                                          VBytes (Py.encode_ascii_ignore
                                                    (uid event)))]
                                   else [])
                               ++ map (fun kv => (fst kv, VStr (snd kv)))
                                      cfg) |}
                    (Ok answer)
               :: finish_events W event)
    /\ Forall (fun a => is_properties a = true ->
                        exists d p, data a = Some d
                                    /\ get_config_params d = Ok p)
              (attach event).
Proof.
  rewrite ingest_phases. cbv zeta.
  destruct (fst (select_service W _)) as [service_url|e]; [|discriminate].
  destruct (build W service_url event force_uid _) as [[r|e] s2] eqn:Hbuild;
    [|discriminate].
  destruct (cleanup_result W event (trace s2)) as [[]|e]; [|discriminate].
  intros H. inversion H; subst s'; clear H.
  apply build_workflow in Hbuild
    as (a & d & [wdef cfg] & before & current & Hlast & Hd & Hw & Ht
        & Hall).
  exists a, d, wdef, cfg. repeat split; try assumption.
  exists (begin_events event ++ ServiceLookup (py "ingest") true :: before),
    service_url, current, r.
  cbn [trace with_trace] in *. rewrite Ht, <- !app_assoc.
  unfold ingest_request. rewrite ingest_fields_explicit. reflexivity.
Qed.

Lemma last_properties_win_witness :
  last_properties (attach rescheduled) = Some second_properties
  /\ exists before service_url current answer,
      trace (snd (ingest (Run.calm 1) rescheduled false
                         (Run.start [rescheduled])))
      = before
        ++ Http {| url := service_url ++ py "/ingest";
                   post_data :=
                     Some [(py "mediaPackage", VBytes current);
                           (py "workflowDefinitionId", VStr (py "full"));
                           (py "workflowInstanceId",
                            VBytes (bytes_of "ev2"));
                           (py "trim", VStr (py "true"))] |}
                (Ok answer)
           :: finish_events (Run.calm 1) rescheduled.
Proof.
  destruct (last_properties_win (Run.calm 1) rescheduled false
              (Run.start [rescheduled])
              (snd (ingest (Run.calm 1) rescheduled false
                           (Run.start [rescheduled]))))
    as (a & d & wdef & cfg & Hlast & Hd & Hw
        & (before & u & current & answer & Ht) & _).
  { vm_compute. reflexivity. }
  split; [reflexivity|].
  vm_compute in Hlast. inversion Hlast; subst a; clear Hlast.
  vm_compute in Hd. inversion Hd; subst d; clear Hd.
  vm_compute in Hw. inversion Hw; subst wdef cfg; clear Hw.
  exists before, u, current, answer. exact Ht.
Defined.

(** ** A forced identifier that cannot be set *)

(** X19: with [force_uid], an answer to [/createMediaPackage] that is
    not UTF-8, or that the parser refuses, ends the upload after that
    one call: [ingest] raises the error of the decoder or of the parser
    and nothing has been uploaded. *)
Theorem forced_upload_needs_a_document (W : World)
  (event : RecordedEvent) (s : State) (service_url : str) (r0 : bytes)
  (e : exn) :
  fst (select_service W (snd (mark_uploading event s))) = Ok service_url ->
  http_request W
    (trace s ++ begin_events event ++ [ServiceLookup (py "ingest") true])
    (create_request service_url) = Ok r0 ->
  force_identity W event r0 = Err e ->
  (Py.decode_utf8 r0 = Err e
   \/ exists xml_string,
       Py.decode_utf8 r0 = Ok xml_string
       /\ fromstring W xml_string = Err e)
  /\ exists s',
      ingest W event true s = (Err e, s')
      /\ trace s'
         = trace s ++ begin_events event
           ++ [ServiceLookup (py "ingest") true;
               Http (create_request service_url) (Ok r0)].
Proof.
  intros Hsel Hcreate Hforce. split.
  - unfold force_identity in Hforce.
    destruct (Py.decode_utf8 r0) as [xml_string|e1]; [|left; congruence].
    right. exists xml_string. split; [reflexivity|].
    destruct (fromstring W xml_string); [discriminate|congruence].
  - rewrite ingest_phases. cbv zeta.
    rewrite mark_uploading_run in Hsel. cbn [snd] in Hsel. rewrite Hsel.
    unfold build, bind at 1, call_http at 1.
    cbn [trace with_trace]. rewrite <- app_assoc.
    unfold create_request in Hcreate. rewrite Hcreate.
    unfold bind at 1, lift. rewrite Hforce.
    eexists. split; [reflexivity|].
    cbn [trace with_trace]. now rewrite <- !app_assoc.
Qed.

Lemma forced_upload_needs_a_document_witness :
  fst (ingest (Run.calm 1) Run.lecture true (Run.start [Run.lecture]))
  = Err (Raised "xml.etree.ElementTree.ParseError").
Proof.
  destruct (forced_upload_needs_a_document (Run.calm 1) Run.lecture
              (Run.start [Run.lecture]) Run.base (bytes_of "mp")
              (Raised "xml.etree.ElementTree.ParseError")
              eq_refl eq_refl eq_refl) as (_ & s' & Hrun & _).
  now rewrite Hrun.
Defined.
